(** * AnimateDiff-Evolved: the sampling module (animatediff/sampling.py)

    A shallow embedding of the sampling wrapper [animatediff_sample] and of
    the replacement denoising step [sliding_sampling_function] with its nested
    helpers, followed by the properties established about them.

    Python exceptions are values of [exn]; a computation that may raise
    returns a [result]; code that mutates module-level state threads that
    state explicitly and keeps it when an exception is raised. *)

From Stdlib Require Import ZArith List Bool Lia QArith.
From stdpp Require Import base list strings gmap.

Local Open Scope Z_scope.

(* ===================================================================== *)
(** ** Exceptions and the two effect monads                               *)
(* ===================================================================== *)

(** The exception classes the module can raise itself, and [HostError] for
    whatever a collaborator (host sampler, model function, motion module
    loader) raises. *)
Inductive exn : Type :=
| UnboundLocalError
| AttributeError
| TypeError
| ValueError
| IndexError
| KeyError
| ZeroDivisionError
| AssertionError
| RecursionError
| RuntimeError
| HostError (code : nat).

Inductive result (A : Type) : Type :=
| Ok (a : A)
| Err (e : exn).
Arguments Ok {A} a.
Arguments Err {A} e.

Definition rbind {A B : Type} (r : result A) (k : A -> result B) : result B :=
  match r with
  | Ok a => k a
  | Err e => Err e
  end.

Definition is_ok {A : Type} (r : result A) : bool :=
  match r with Ok _ => true | Err _ => false end.

(** Stateful code: the state survives an exception, as mutations of Python
    objects do. *)
Definition M (S A : Type) : Type := S -> result A * S.

Definition ret {S A : Type} (a : A) : M S A := fun s => (Ok a, s).
Definition raise {S A : Type} (e : exn) : M S A := fun s => (Err e, s).
Definition bind {S A B : Type} (m : M S A) (k : A -> M S B) : M S B :=
  fun s => match m s with
           | (Ok a, s') => k a s'
           | (Err e, s') => (Err e, s')
           end.
Definition get {S : Type} : M S S := fun s => (Ok s, s).
Definition modify {S : Type} (f : S -> S) : M S unit := fun s => (Ok tt, f s).
Definition lift_result {S A : Type} (r : result A) : M S A := fun s => (r, s).

(** [try: body finally: fin].  The [finally] block always runs, on the state
    the body left; an exception raised by the [finally] block replaces the
    outcome of the body. *)
Definition try_finally {S A : Type} (body : M S A) (fin : M S unit) : M S A :=
  fun s => match body s with
           | (r, s1) => match fin s1 with
                        | (Ok _, s2) => (r, s2)
                        | (Err e, s2) => (Err e, s2)
                        end
           end.

Declare Scope py_scope.
Delimit Scope py_scope with py.
Notation "'do' x <- c ; k" := (bind c (fun x => k))
  (at level 10, x name, c at level 100, k at level 200) : py_scope.
Notation "'do' ' p <- c ; k" := (bind c (fun x => match x with p => k end))
  (at level 10, p pattern, c at level 100, k at level 200) : py_scope.
Notation "'doR' x <- c ; k" := (rbind c (fun x => k))
  (at level 10, x name, c at level 100, k at level 200) : py_scope.
Notation "'doR' ' p <- c ; k" := (rbind c (fun x => match x with p => k end))
  (at level 10, p pattern, c at level 100, k at level 200) : py_scope.

(** Reading a local variable: an unbound one raises [UnboundLocalError]. *)
Definition read_local {A : Type} (v : option A) : result A :=
  match v with
  | Some a => Ok a
  | None => Err UnboundLocalError
  end.

(** [del v] on a local variable. *)
Definition del_local {A : Type} (v : option A) : result (option A) :=
  match v with
  | Some _ => Ok None
  | None => Err UnboundLocalError
  end.

(* ===================================================================== *)
(** ** The global run state: class AnimateDiffHelper_GlobalState          *)
(* ===================================================================== *)

(** The fields of [InjectionParams] (motion_module.py) this module reads. *)
Module InjectionParams.
Record t : Type := mk {
  video_length : Z;
  context_length : option Z;
  context_stride : option Z;
  context_overlap : option Z;
  context_schedule : option string;
  closed_loop : bool;
  sync_context_to_pe : bool;
  unlimited_area_hack : bool;
  apply_mm_groupnorm_hack : bool;
  model_name : string;
  loras : nat;
  attn_scale : nat;
  beta_schedule : string
}.

Definition set_video_length (p : t) (n : Z) : t :=
  mk n (context_length p) (context_stride p) (context_overlap p)
     (context_schedule p) (closed_loop p) (sync_context_to_pe p)
     (unlimited_area_hack p) (apply_mm_groupnorm_hack p) (model_name p)
     (loras p) (attn_scale p) (beta_schedule p).
End InjectionParams.

Module GlobalState.
Section with_motion_module.
Context {MotionModule : Type}.

Record t : Type := mk {
  motion_module : option MotionModule;
  start_step : Z;
  last_step : Z;
  current_step : Z;
  total_steps : Z;
  video_length : Z;
  context_frames : option Z;
  context_stride : option Z;
  context_overlap : option Z;
  context_schedule : option string;
  closed_loop : bool;
  sync_context_to_pe : bool;
  sub_idxs : option (list Z)
}.

(** [reset]: every field back to its default, the motion module dropped. *)
Definition reset (self : t) : t :=
  mk None 0 0 0 0 0 None None None None false false None.

(** [__init__]: [motion_module = None], then [reset()]. *)
Definition init : t :=
  reset (mk None 0 0 0 0 0 None None None None false false None).

Definition update_with_inject_params (self : t) (params : InjectionParams.t) : t :=
  mk (motion_module self) (start_step self) (last_step self)
     (current_step self) (total_steps self)
     (InjectionParams.video_length params)
     (InjectionParams.context_length params)
     (InjectionParams.context_stride params)
     (InjectionParams.context_overlap params)
     (InjectionParams.context_schedule params)
     (InjectionParams.closed_loop params)
     (InjectionParams.sync_context_to_pe params)
     (sub_idxs self).

Definition is_using_sliding_context (self : t) : bool :=
  match context_frames self with
  | Some _ => true
  | None => false
  end.

Definition set_motion_module (self : t) (m : option MotionModule) : t :=
  mk m (start_step self) (last_step self) (current_step self)
     (total_steps self) (video_length self) (context_frames self)
     (context_stride self) (context_overlap self) (context_schedule self)
     (closed_loop self) (sync_context_to_pe self) (sub_idxs self).

Definition set_start_step (self : t) (n : Z) : t :=
  mk (motion_module self) n (last_step self) (current_step self)
     (total_steps self) (video_length self) (context_frames self)
     (context_stride self) (context_overlap self) (context_schedule self)
     (closed_loop self) (sync_context_to_pe self) (sub_idxs self).

Definition set_last_step (self : t) (n : Z) : t :=
  mk (motion_module self) (start_step self) n (current_step self)
     (total_steps self) (video_length self) (context_frames self)
     (context_stride self) (context_overlap self) (context_schedule self)
     (closed_loop self) (sync_context_to_pe self) (sub_idxs self).

Definition set_current_step (self : t) (n : Z) : t :=
  mk (motion_module self) (start_step self) (last_step self) n
     (total_steps self) (video_length self) (context_frames self)
     (context_stride self) (context_overlap self) (context_schedule self)
     (closed_loop self) (sync_context_to_pe self) (sub_idxs self).

Definition set_sub_idxs (self : t) (idxs : option (list Z)) : t :=
  mk (motion_module self) (start_step self) (last_step self)
     (current_step self) (total_steps self) (video_length self)
     (context_frames self) (context_stride self) (context_overlap self)
     (context_schedule self) (closed_loop self) (sync_context_to_pe self)
     idxs.
End with_motion_module.
Arguments t : clear implicits.
End GlobalState.

Local Open Scope py_scope.

(* ===================================================================== *)
(** ** The sampling wrapper: animatediff_sample_factory                   *)
(* ===================================================================== *)

(** The functions a patched module attribute can hold, by identity: a
    function of the host, or one of the four this module installs. *)
Inductive FnRef : Type :=
| HostFn (id : nat)
| Fn_forward_timestep_embed
| Fn_unlimited_batch_area
| Fn_groupnorm_mm_forward (params : InjectionParams.t)
| Fn_sliding_sampling_function.

Definition groupnorm_mm_factory (params : InjectionParams.t) : FnRef :=
  Fn_groupnorm_mm_forward params.

Section animatediff_sample.
(** Objects of the host and of motion_module.py / model_utils.py. *)
Context {Model MotionModule Arg Out BetaCache HostState : Type}.

(** What a run can observe and change outside its own frame: the five
    patched attributes, the module-level [ADGS], and the state of the
    collaborators (models, loaded motion modules, beta schedules). *)
Record World : Type := mkWorld {
  forward_timestep_embed_attr : FnRef;  (* openaimodel.forward_timestep_embed *)
  maximum_batch_area_attr : FnRef;      (* model_management.maximum_batch_area *)
  GroupNorm_forward_attr : FnRef;       (* torch.nn.GroupNorm.forward *)
  GroupNormAD_forward_attr : FnRef;     (* GroupNormAD.forward *)
  sampling_function_attr : FnRef;       (* comfy_samplers.sampling_function *)
  ADGS : GlobalState.t MotionModule;
  host : HostState
}.

Definition set_forward_timestep_embed_attr (f : FnRef) (w : World) : World :=
  mkWorld f (maximum_batch_area_attr w) (GroupNorm_forward_attr w)
          (GroupNormAD_forward_attr w) (sampling_function_attr w) (ADGS w) (host w).
Definition set_maximum_batch_area_attr (f : FnRef) (w : World) : World :=
  mkWorld (forward_timestep_embed_attr w) f (GroupNorm_forward_attr w)
          (GroupNormAD_forward_attr w) (sampling_function_attr w) (ADGS w) (host w).
Definition set_GroupNorm_forward_attr (f : FnRef) (w : World) : World :=
  mkWorld (forward_timestep_embed_attr w) (maximum_batch_area_attr w) f
          (GroupNormAD_forward_attr w) (sampling_function_attr w) (ADGS w) (host w).
Definition set_GroupNormAD_forward_attr (f : FnRef) (w : World) : World :=
  mkWorld (forward_timestep_embed_attr w) (maximum_batch_area_attr w)
          (GroupNorm_forward_attr w) f (sampling_function_attr w) (ADGS w) (host w).
Definition set_sampling_function_attr (f : FnRef) (w : World) : World :=
  mkWorld (forward_timestep_embed_attr w) (maximum_batch_area_attr w)
          (GroupNorm_forward_attr w) (GroupNormAD_forward_attr w) f (ADGS w) (host w).
Definition set_ADGS (g : GlobalState.t MotionModule) (w : World) : World :=
  mkWorld (forward_timestep_embed_attr w) (maximum_batch_area_attr w)
          (GroupNorm_forward_attr w) (GroupNormAD_forward_attr w)
          (sampling_function_attr w) g (host w).
Definition set_host (h : HostState) (w : World) : World :=
  mkWorld (forward_timestep_embed_attr w) (maximum_batch_area_attr w)
          (GroupNorm_forward_attr w) (GroupNormAD_forward_attr w)
          (sampling_function_attr w) (ADGS w) h.

(** The step callback of the host sampler. *)
Definition Callback : Type := Z -> Arg -> Arg -> Z -> M World unit.

Record Kwargs : Type := mkKwargs {
  kw_start_step : option Z;
  kw_last_step : option Z;
  kw_callback : option Callback
}.

Definition SampleFn : Type := Model -> list Arg -> Kwargs -> M World Out.

(** The collaborators, each acting on the host state and free to raise. *)
Record Collaborators : Type := mkCollaborators {
  is_injected_mm_params : Model -> bool;
  get_injected_mm_params : Model -> result InjectionParams.t;
  latents_size : Arg -> Z;
  inject_params_into_model : Model -> InjectionParams.t -> M HostState Model;
  BetaScheduleCache : Model -> M HostState BetaCache;
  load_motion_module : string -> nat -> Model -> M HostState MotionModule;
  inject_motion_module : Model -> MotionModule -> InjectionParams.t -> M HostState unit;
  BetaSchedules_to_name : string -> result string;
  register_schedule : Model -> string -> M HostState unit;
  set_scale_multiplier : MotionModule -> nat -> M HostState unit;
  wrap_function_to_inject_xformers_bug_info : SampleFn -> SampleFn;
  eject_motion_module : Model -> M HostState unit;
  reset_scale_multiplier : MotionModule -> M HostState unit;
  set_sub_idxs : MotionModule -> option (list Z) -> M HostState unit;
  has_loras : MotionModule -> M HostState bool;
  unload_motion_module : MotionModule -> M HostState unit;
  use_cached_beta_schedule_and_clean : BetaCache -> Model -> M HostState unit
}.

Context (C : Collaborators).

(** The five function references saved at lines 138-142. *)
Record SavedFns : Type := mkSavedFns {
  orig_forward_timestep_embed : FnRef;
  orig_maximum_batch_area : FnRef;
  orig_groupnorm_forward : FnRef;
  orig_groupnormad_forward : FnRef;
  orig_sampling_function : FnRef
}.

(** The frame of one call: its local variables (an unbound one is [None])
    next to the world.  [motion_module] is bound to Python's [None] from
    the first line on, so its value is itself an option. *)
Record Frame : Type := mkFrame {
  model : Model;
  motion_module : option (option MotionModule);
  saved_fns : option SavedFns;
  orig_beta_cache : option BetaCache;
  world : World
}.

Definition set_model (m : Model) (f : Frame) : Frame :=
  mkFrame m (motion_module f) (saved_fns f) (orig_beta_cache f) (world f).
Definition set_motion_module (m : option (option MotionModule)) (f : Frame) : Frame :=
  mkFrame (model f) m (saved_fns f) (orig_beta_cache f) (world f).
Definition set_saved_fns (o : option SavedFns) (f : Frame) : Frame :=
  mkFrame (model f) (motion_module f) o (orig_beta_cache f) (world f).
Definition set_orig_beta_cache (o : option BetaCache) (f : Frame) : Frame :=
  mkFrame (model f) (motion_module f) (saved_fns f) o (world f).
Definition set_world (w : World) (f : Frame) : Frame :=
  mkFrame (model f) (motion_module f) (saved_fns f) (orig_beta_cache f) w.

(** Running a collaborator, or the host sampler, from inside the frame. *)
Definition on_host {A : Type} (m : M HostState A) : M Frame A :=
  fun f => match m (host (world f)) with
           | (r, h) => (r, set_world (set_host h (world f)) f)
           end.
Definition on_world {A : Type} (m : M World A) : M Frame A :=
  fun f => match m (world f) with
           | (r, w) => (r, set_world w f)
           end.
Definition modify_world (g : World -> World) : M Frame unit :=
  modify (fun f => set_world (g (world f)) f).
Definition modify_ADGS
    (g : GlobalState.t MotionModule -> GlobalState.t MotionModule) : M Frame unit :=
  modify_world (fun w => set_ADGS (g (ADGS w)) w).

(** [args[-1]] *)
Definition last_arg (args : list Arg) : result Arg :=
  match last args with
  | Some a => Ok a
  | None => Err IndexError
  end.

(** [kwargs.get(key) or 0] *)
Definition get_or_0 (v : option Z) : Z :=
  match v with
  | Some n => n
  | None => 0
  end.

(** The callback installed in [kwargs]: the caller's callback first, then
    the step tally of the global state. *)
Definition ad_callback (original_callback : option Callback) : Callback :=
  fun step x0 x total_steps =>
    do _ <- match original_callback with
            | Some cb => cb step x0 x total_steps
            | None => ret tt
            end;
    modify (fun w =>
      set_ADGS (GlobalState.set_current_step (ADGS w)
                  (GlobalState.start_step (ADGS w) + step + 1)) w).

(** Lines 128-188: the body of the [try]. *)
Definition sample_try_body (orig_comfy_sample : SampleFn)
    (args : list Arg) (kwargs : Kwargs) : M Frame Out :=
  do f <- get;
  (* get params - clone to keep from resetting values on cached model *)
  do params <- lift_result (get_injected_mm_params C (model f));
  (* get amount of latents passed in, and inject into model *)
  do latents <- lift_result (last_arg args);
  let params := InjectionParams.set_video_length params (latents_size C latents) in
  do model' <- on_host (inject_params_into_model C (model f) params);
  do _ <- modify (set_model model');
  (* reset global state *)
  do _ <- modify_ADGS GlobalState.reset;
  (* Save Original Functions *)
  do f <- get;
  do _ <- modify (set_saved_fns (Some
            (mkSavedFns (forward_timestep_embed_attr (world f))
                        (maximum_batch_area_attr (world f))
                        (GroupNorm_forward_attr (world f))
                        (GroupNormAD_forward_attr (world f))
                        (sampling_function_attr (world f)))));
  do cache <- on_host (BetaScheduleCache C model');
  do _ <- modify (set_orig_beta_cache (Some cache));
  (* Inject Functions *)
  do _ <- modify_world (set_forward_timestep_embed_attr Fn_forward_timestep_embed);
  do _ <- (if InjectionParams.unlimited_area_hack params
           then modify_world (set_maximum_batch_area_attr Fn_unlimited_batch_area)
           else ret tt);
  do _ <- modify_world (set_GroupNorm_forward_attr (groupnorm_mm_factory params));
  do _ <- (if InjectionParams.apply_mm_groupnorm_hack params
           then modify_world (set_GroupNormAD_forward_attr (groupnorm_mm_factory params))
           else ret tt);
  do _ <- modify_world (set_sampling_function_attr Fn_sliding_sampling_function);
  (* try to load motion module *)
  do mm <- on_host (load_motion_module C (InjectionParams.model_name params)
                      (InjectionParams.loras params) model');
  do _ <- modify (set_motion_module (Some (Some mm)));
  (* inject motion module into unet *)
  do _ <- on_host (inject_motion_module C model' mm params);
  (* apply suggested beta schedule *)
  do beta_schedule <- lift_result
                        (BetaSchedules_to_name C (InjectionParams.beta_schedule params));
  do _ <- on_host (register_schedule C model' beta_schedule);
  (* apply scale multiplier, if needed *)
  do _ <- on_host (set_scale_multiplier C mm (InjectionParams.attn_scale params));
  (* handle GLOBALSTATE vars and step tally *)
  do _ <- modify_ADGS (fun g => GlobalState.set_motion_module g (Some mm));
  do _ <- modify_ADGS (fun g => GlobalState.update_with_inject_params g params);
  do _ <- modify_ADGS (fun g => GlobalState.set_start_step g (get_or_0 (kw_start_step kwargs)));
  do _ <- modify_ADGS (fun g => GlobalState.set_current_step g (GlobalState.start_step g));
  do _ <- modify_ADGS (fun g => GlobalState.set_last_step g (get_or_0 (kw_last_step kwargs)));
  let original_callback := kw_callback kwargs in
  let kwargs := mkKwargs (kw_start_step kwargs) (kw_last_step kwargs)
                         (Some (ad_callback original_callback)) in
  on_world (wrap_function_to_inject_xformers_bug_info C orig_comfy_sample
              model' args kwargs).

(** [motion_module.method(...)]: on Python's [None] the attribute lookup
    raises [AttributeError]. *)
Definition motion_module_method {A : Type} (f : Frame)
    (method : MotionModule -> M HostState A) : M Frame A :=
  match motion_module f with
  | None => raise UnboundLocalError
  | Some None => raise AttributeError
  | Some (Some mm) => on_host (method mm)
  end.

(** Lines 190-210: the [finally] block. *)
Definition sample_finally : M Frame unit :=
  do f <- get;
  (* attempt to eject motion module *)
  do _ <- on_host (eject_motion_module C (model f));
  (* reset motion module scale multiplier *)
  do _ <- motion_module_method f (reset_scale_multiplier C);
  (* reset motion module sub_idxs *)
  do _ <- motion_module_method f (fun mm => set_sub_idxs C mm None);
  (* if loras are present, remove model so it can be re-loaded next time *)
  do loras <- motion_module_method f (has_loras C);
  do _ <- (if loras : bool
           then do _ <- motion_module_method f (unload_motion_module C);
                modify (set_motion_module None)
           else ret tt);
  (* Restoration *)
  do saved <- lift_result (read_local (saved_fns f));
  do _ <- modify_world (set_maximum_batch_area_attr (orig_maximum_batch_area saved));
  do _ <- modify_world (set_forward_timestep_embed_attr (orig_forward_timestep_embed saved));
  do _ <- modify_world (set_GroupNorm_forward_attr (orig_groupnorm_forward saved));
  do _ <- modify_world (set_GroupNormAD_forward_attr (orig_groupnormad_forward saved));
  do _ <- modify_world (set_sampling_function_attr (orig_sampling_function saved));
  (* reapply previous beta schedule *)
  do cache <- lift_result (read_local (orig_beta_cache f));
  do _ <- on_host (use_cached_beta_schedule_and_clean C cache (model f));
  (* reset global state *)
  modify_ADGS GlobalState.reset.

Definition animatediff_sample (orig_comfy_sample : SampleFn)
    (model : Model) (args : list Arg) (kwargs : Kwargs) : M World Out :=
  fun w =>
    (* check if model has params - if not, no need to do anything *)
    if negb (is_injected_mm_params C model)
    then orig_comfy_sample model args kwargs w
    else
      (* otherwise, injection time *)
      let frame := mkFrame model (Some None) None None w in
      match try_finally (sample_try_body orig_comfy_sample args kwargs)
                        sample_finally frame with
      | (r, f) => (r, world f)
      end.

End animatediff_sample.

(* ===================================================================== *)
(** ** Python lists, slices and dicts                                     *)
(* ===================================================================== *)

Section python_lists.
Context {A : Type}.

(** [l[i]] with an integer index: negative indices count from the end. *)
Definition py_index (l : list A) (i : Z) : result A :=
  let n := Z.of_nat (length l) in
  let j := if i <? 0 then i + n else i in
  if (0 <=? j) && (j <? n)
  then match l !! Z.to_nat j with
       | Some a => Ok a
       | None => Err IndexError
       end
  else Err IndexError.

(** The bounds of the slice [l[start:stop]] after Python's clamping. *)
Definition slice_bound (n i : Z) : Z :=
  if i <? 0 then Z.max 0 (i + n) else Z.min i n.

Definition slice_lo (start : Z) (l : list A) : nat :=
  Z.to_nat (slice_bound (Z.of_nat (length l)) start).
Definition slice_len (start stop : Z) (l : list A) : nat :=
  let n := Z.of_nat (length l) in
  Z.to_nat (slice_bound n stop - slice_bound n start).

(** [l[start:stop]] *)
Definition py_slice (start stop : Z) (l : list A) : list A :=
  take (slice_len start stop l) (drop (slice_lo start l) l).

(** [l[start:stop] = g(l[start:stop])], for a [g] that keeps the length: the
    in-place update of a slice view. *)
Definition slice_update (g : list A -> result (list A))
    (start stop : Z) (l : list A) : result (list A) :=
  let lo := slice_lo start l in
  let len := slice_len start stop l in
  doR mid <- g (take len (drop lo l));
  if (length mid =? len)%nat
  then Ok (take lo l ++ mid ++ drop (lo + len) l)
  else Err RuntimeError.

(** [l.pop(i)] for an index in range. *)
Definition py_pop (l : list A) (i : nat) : result (A * list A) :=
  match l !! i with
  | Some a => Ok (a, take i l ++ drop (S i) l)
  | None => Err IndexError
  end.

(** [for a in l: body(a)] *)
Fixpoint for_each {S : Type} (l : list A) (body : A -> M S unit) : M S unit :=
  match l with
  | [] => ret tt
  | a :: l' => do _ <- body a; for_each l' body
  end.
End python_lists.

(** [mapM] in the exception monad, left to right. *)
Fixpoint map_result {A B : Type} (f : A -> result B) (l : list A) : result (list B) :=
  match l with
  | [] => Ok []
  | a :: l' => doR b <- f a; doR bs <- map_result f l'; Ok (b :: bs)
  end.

(** Element-wise combination of two equally long lists; a length mismatch is
    the shape error torch raises. *)
Fixpoint zip_result {A B C : Type} (f : A -> B -> result C)
    (l : list A) (k : list B) : result (list C) :=
  match l, k with
  | [], [] => Ok []
  | a :: l', b :: k' => doR c <- f a b; doR cs <- zip_result f l' k'; Ok (c :: cs)
  | _, _ => Err RuntimeError
  end.

(** A dict with string keys, in insertion order. *)
Definition dict (V : Type) : Type := list (string * V).

Section python_dicts.
Context {V : Type}.

Fixpoint dict_get (d : dict V) (k : string) : option V :=
  match d with
  | [] => None
  | (k', v) :: d' => if String.eqb k' k then Some v else dict_get d' k
  end.

(** [d[k] = v]: replaces the value of an existing key in place, appends a
    new key. *)
Fixpoint dict_set (d : dict V) (k : string) (v : V) : dict V :=
  match d with
  | [] => [(k, v)]
  | (k', v') :: d' =>
      if String.eqb k' k then (k', v) :: d' else (k', v') :: dict_set d' k v
  end.

Definition dict_keys (d : dict V) : list string := map fst d.

(** [d[k]] *)
Definition dict_item (d : dict V) (k : string) : result V :=
  match dict_get d k with
  | Some v => Ok v
  | None => Err KeyError
  end.

Definition dict_has (d : dict V) (k : string) : bool :=
  match dict_get d k with Some _ => true | None => false end.
End python_dicts.

(** [d1.keys() != d2.keys()] compares the key views as sets. *)
Definition keys_eqb {V W : Type} (d1 : dict V) (d2 : dict W) : bool :=
  forallb (fun k => dict_has d2 k) (dict_keys d1)
  && forallb (fun k => dict_has d1 k) (dict_keys d2).

(* ===================================================================== *)
(** ** Tensors                                                            *)
(* ===================================================================== *)

(** Floating-point scalars are kept abstract: the embedding fixes which
    operations the code applies, not how floats round. *)
Class Scalar (R : Type) : Type := {
  r_of_Z : Z -> R;
  r_add : R -> R -> R;
  r_sub : R -> R -> R;
  r_mul : R -> R -> R;
  r_div : R -> R -> R;
  r_ltb : R -> R -> bool;
  r_isclose : R -> R -> bool
}.

Section tensors.
Context {R : Type} `{Scalar R}.

(** A tensor of rank [n] is a rectangular nesting of lists, outermost
    dimension first. *)
Fixpoint tensor (n : nat) : Type :=
  match n with
  | O => R
  | S n' => list (tensor n')
  end.

(** A [torch.Tensor] of any rank. *)
Record AnyTensor : Type := mkAnyTensor { rank : nat; data : tensor rank }.

(** [t.size(0)] *)
Definition size0 (t : AnyTensor) : result Z :=
  match t with
  | mkAnyTensor O _ => Err IndexError
  | mkAnyTensor (S n) l => Ok (Z.of_nat (length (l : list (tensor n))))
  end.

(** [l[idxs]] with a list of integers: the rows at those indices, in that
    order; an index out of range raises. *)
Definition gather {A : Type} (l : list A) (idxs : list Z) : result (list A) :=
  map_result (py_index l) idxs.

(** [t[idxs]] on a tensor of any rank. *)
Definition index_select (t : AnyTensor) (idxs : list Z) : result AnyTensor :=
  match t with
  | mkAnyTensor O _ => Err IndexError
  | mkAnyTensor (S n) l =>
      doR rows <- gather (l : list (tensor n)) idxs;
      Ok (mkAnyTensor (S n) rows)
  end.

Fixpoint tmap (n : nat) (f : R -> R) : tensor n -> tensor n :=
  match n with
  | O => fun r => f r
  | S n' => fun l => map (tmap n' f) l
  end.

Definition zeros_like {n : nat} (t : tensor n) : tensor n :=
  tmap n (fun _ => r_of_Z 0) t.
Definition ones_like {n : nat} (t : tensor n) : tensor n :=
  tmap n (fun _ => r_of_Z 1) t.

(** An element-wise operation with the right operand broadcast along the
    dimensions where it has size 1; any other mismatch is a shape error. *)
Fixpoint broadcast (n : nat) (f : R -> R -> R)
    : tensor n -> tensor n -> result (tensor n) :=
  match n with
  | O => fun a b => Ok (f a b)
  | S n' => fun a b =>
      match b with
      | [b1] => if (length a =? 1)%nat
                then zip_result (broadcast n' f) a b
                else map_result (fun a1 => broadcast n' f a1 b1) a
      | _ => zip_result (broadcast n' f) a b
      end
  end.

Definition tadd {n} := broadcast n r_add.
Definition tmul {n} := broadcast n r_mul.
Definition tdiv {n} := broadcast n r_div.

(** [x.shape] of a rank-4 tensor. *)
Definition shape4 (x : tensor 4) : Z * Z * Z * Z :=
  let d1 := match x with c :: _ => c | [] => [] end in
  let d2 := match d1 with h :: _ => h | [] => [] end in
  let d3 := match d2 with w :: _ => w | [] => [] end in
  (Z.of_nat (length x), Z.of_nat (length d1),
   Z.of_nat (length d2), Z.of_nat (length d3)).

(** [x.shape] of a rank-3 tensor (a mask). *)
Definition shape3 (m : tensor 3) : Z * Z * Z :=
  let d1 := match m with h :: _ => h | [] => [] end in
  let d2 := match d1 with w :: _ => w | [] => [] end in
  (Z.of_nat (length m), Z.of_nat (length d1), Z.of_nat (length d2)).

(** An area is the tuple (height, width, y, x) of a conditioning region. *)
Definition Area : Type := (Z * Z * Z * Z)%type.

(** [x[:, :, a2:a0+a2, a3:a1+a3]] *)
Definition crop (area : Area) (x : tensor 4) : tensor 4 :=
  let '(a0, a1, a2, a3) := area in
  map (map (fun hw : tensor 2 =>
              map (py_slice a3 (a1 + a3)) (py_slice a2 (a0 + a2) hw))) x.

(** [mask[:, a2:a0+a2, a3:a1+a3]] *)
Definition crop3 (area : Area) (m : tensor 3) : tensor 3 :=
  let '(a0, a1, a2, a3) := area in
  map (fun hw : tensor 2 =>
         map (py_slice a3 (a1 + a3)) (py_slice a2 (a0 + a2) hw)) m.

(** [out[:, :, a2:a0+a2, a3:a1+a3] += v] *)
Definition region_add (area : Area) (out v : tensor 4) : result (tensor 4) :=
  let '(a0, a1, a2, a3) := area in
  doR sum <- tadd (crop area out) v;
  zip_result (zip_result (fun (hw shw : tensor 2) =>
    slice_update (fun rows =>
      zip_result (fun (row srow : tensor 1) =>
        slice_update (fun _ => Ok srow) a3 (a1 + a3) row) rows shw)
      a2 (a0 + a2) hw)) out sum.

(** [mult[:, :, start:stop, :] *= k] and [mult[:, :, :, start:stop] *= k] *)
Definition scale_rows (start stop : Z) (k : R) (mult : tensor 4) : tensor 4 :=
  map (map (fun hw : tensor 2 =>
    match slice_update (fun rows => Ok (map (map (r_mul k)) rows)) start stop hw with
    | Ok hw' => hw'
    | Err _ => hw
    end)) mult.
Definition scale_cols (start stop : Z) (k : R) (mult : tensor 4) : tensor 4 :=
  map (map (map (fun row : tensor 1 =>
    match slice_update (fun cols => Ok (map (r_mul k) cols)) start stop row with
    | Ok row' => row'
    | Err _ => row
    end))) mult.

(** [torch.cat(ts)] along dimension 0. *)
Definition cat {A : Type} (ts : list (list A)) : result (list A) :=
  match ts with
  | [] => Err RuntimeError
  | _ => Ok (concat ts)
  end.

Fixpoint split_every {A : Type} (fuel size : nat) (l : list A) : list (list A) :=
  match fuel, l with
  | O, _ => []
  | _, [] => []
  | S fuel', _ => take size l :: split_every fuel' size (drop size l)
  end.

(** [t.chunk(chunks)] along dimension 0: pieces of ceil(len / chunks) rows. *)
Definition chunk {A : Type} (l : list A) (chunks : nat) : result (list (list A)) :=
  match chunks with
  | O => Err RuntimeError
  | _ => let size := ((length l + chunks - 1) / chunks)%nat in
         Ok (split_every (length l) size l)
  end.

(** [mask.unsqueeze(1).repeat(r0, r1, 1, 1)] *)
Definition unsqueeze_repeat (r0 r1 : nat) (m : tensor 3) : tensor 4 :=
  concat (replicate r0 (map (fun hw : tensor 2 => replicate r1 hw) m)).
End tensors.

Arguments tensor R n : clear implicits.
Arguments AnyTensor R : clear implicits.

(* ===================================================================== *)
(** ** Conditioning data                                                  *)
(* ===================================================================== *)

(** The guidance branch of a request: [COND = 0], [UNCOND = 1]. *)
Inductive Branch : Type := COND | UNCOND.

Definition Branch_eqb (a b : Branch) : bool :=
  match a, b with
  | COND, COND | UNCOND, UNCOND => true
  | _, _ => false
  end.

(** A control object as the module sees it (comfy's [ControlBase]): the
    link to the previous one in the chain, and the three window-scope
    attributes.  [sub_idxs = None] is an object without that attribute
    (a stock ControlBase); [Some None] is the attribute holding [None]. *)
Record ControlBase : Type := mkControlBase {
  previous_controlnet : option nat;
  sub_idxs : option (option (list Z));
  full_latent_length : option Z;
  context_length : option (option Z)
}.

(** The control objects alive during a step, by identity. *)
Definition ControlStore : Type := nat -> ControlBase.

Definition store_set (s : ControlStore) (c : nat) (o : ControlBase) : ControlStore :=
  fun c' => if (c' =? c)%nat then o else s c'.

(** [conds['gligen']]: the tuple (type, model, position parameters). *)
Record Gligen : Type := mkGligen {
  gligen_type : string;
  gligen_model : nat;
  gligen_params : nat
}.

(** The objects of comfy the module only calls into: the values of
    [model_conds] (comfy/conds.py), gligen patches, the output of a control
    object. *)
Class Comfy (R : Type) `{Scalar R} : Type := {
  CondObj : Type;
  Patch : Type;
  ControlOut : Type;
  (** [o.cond] when the object has that attribute and it is a Tensor *)
  cond_attr : CondObj -> option (AnyTensor R);
  (** [o._copy_with(t)] *)
  copy_with : CondObj -> AnyTensor R -> CondObj;
  (** [o.process_cond(batch_size=, device=, area=)] *)
  process_cond : CondObj -> Z -> Area -> result CondObj;
  (** [o.can_concat(other)] *)
  can_concat : CondObj -> CondObj -> bool;
  (** [o.concat(others)] *)
  concat_conds : CondObj -> list CondObj -> result (AnyTensor R);
  (** [gligen_model.model.set_position(shape, params, device)] *)
  set_position : nat -> Z * Z * Z * Z -> nat -> result Patch;
  (** [gligen_model.model.set_empty(shape, device)] *)
  set_empty : nat -> Z * Z * Z * Z -> result Patch;
  (** [control.get_control(input_x, timestep_, c, batch_chunks)] *)
  get_control : ControlBase -> tensor R 4 -> tensor R 1 -> dict (AnyTensor R)
                -> nat -> result ControlOut
}.

Section conditioning.
Context {R : Type} `{Comfy R}.

(** A value of a nested dict such as [model_conds]. *)
Inductive DictValue : Type :=
| DTensor (t : AnyTensor R)
| DObj (o : CondObj)
| DOther (o : nat).

(** A value of a conditioning entry. *)
Inductive CondValue : Type :=
| VTensor (t : AnyTensor R)     (* pooled_output, mask, ... *)
| VControl (c : nat)            (* a control object, by identity *)
| VDict (d : dict DictValue)    (* model_conds *)
| VFloat (r : R)                (* strength, timestep_start, ... *)
| VArea (a : Area)
| VGligen (g : Gligen)
| VOther (o : nat).

(** One conditioning entry: the inner dict of a cond list. *)
Definition CondEntry : Type := dict CondValue.

(** The dicts [get_area_and_mult] creates are compared by identity later:
    each carries the identity of the object. *)
Record Conditioning : Type := mkConditioning {
  conditioning_id : nat;
  conditioning_items : dict CondObj
}.
Record Patches : Type := mkPatches {
  patches_id : nat;
  patches_items : dict (list Patch)
}.

(** The tuple [get_area_and_mult] returns:
    (input_x, mult, conditionning, area, control, patches). *)
Record Prepared : Type := mkPrepared {
  p_input_x : tensor R 4;            (* p[0] *)
  p_mult : tensor R 4;               (* p[1] *)
  p_conditionning : Conditioning;    (* p[2] *)
  p_area : Area;                     (* p[3] *)
  p_control : option nat;            (* p[4] *)
  p_patches : option Patches         (* p[5] *)
}.

Record TransformerOptions : Type := mkTransformerOptions {
  to_patches : option (dict (list Patch));
  to_cond_or_uncond : option (list Branch);
  to_rest : nat
}.

(** The keyword arguments [**c] of the model function. *)
Record ModelKwargs : Type := mkModelKwargs {
  c_conds : dict (AnyTensor R);
  c_control : option ControlOut;
  c_transformer_options : TransformerOptions
}.

Definition ModelFn : Type :=
  tensor R 4 -> tensor R 1 -> ModelKwargs -> result (tensor R 4).
Definition ModelFnWrapper : Type :=
  ModelFn -> tensor R 4 -> tensor R 1 -> ModelKwargs -> list Branch
  -> result (tensor R 4).
(** [sampler_cfg_function(args)] with cond, uncond, cond_scale, timestep. *)
Definition CfgFn : Type :=
  tensor R 4 -> tensor R 4 -> R -> tensor R 1 -> result (tensor R 4).

Record ModelOptions : Type := mkModelOptions {
  mo_transformer_options : option TransformerOptions;
  mo_model_function_wrapper : option ModelFnWrapper;
  mo_sampler_cfg_function : option CfgFn
}.

(** Reading a key of an entry at the type the code uses it at. *)
Definition as_float (v : CondValue) : result R :=
  match v with VFloat r => Ok r | _ => Err TypeError end.
Definition as_area (v : CondValue) : result Area :=
  match v with VArea a => Ok a | _ => Err TypeError end.
Definition as_mask (v : CondValue) : result (tensor R 3) :=
  match v with
  | VTensor (mkAnyTensor 3 m) => Ok (m : tensor R 3)
  | _ => Err TypeError
  end.
Definition as_control (v : CondValue) : result nat :=
  match v with VControl c => Ok c | _ => Err TypeError end.
Definition as_gligen (v : CondValue) : result Gligen :=
  match v with VGligen g => Ok g | _ => Err TypeError end.
Definition as_model_conds (v : CondValue) : result (dict CondObj) :=
  match v with
  | VDict d => map_result (fun '(k, dv) =>
                 match dv with
                 | DObj o => Ok (k, o)
                 | _ => Err AttributeError
                 end) d
  | _ => Err TypeError
  end.

(** [(1.0 / rr) * (t + 1)] with [rr = 8] *)
Definition ramp (t : nat) : R :=
  r_mul (r_div (r_of_Z 1) (r_of_Z 8)) (r_of_Z (Z.of_nat t + 1)).

(** [for t in range(rr): mult = step t mult] *)
Definition feather (step : nat -> tensor R 4 -> tensor R 4)
    (mult : tensor R 4) : tensor R 4 :=
  fold_left (fun m t => step t m) (seq 0 8) mult.

(** Lines 217-287.  [None] is the request gated out by its timestep range.
    [obj_id] is the identity taken by the dicts this call creates. *)
Definition get_area_and_mult (obj_id : nat) (conds : CondEntry)
    (x_in : tensor R 4) (timestep_in : tensor R 1)
    : result (option Prepared) :=
  let '(_, _, x_h, x_w) := shape4 x_in in
  let area : Area := (x_h, x_w, 0, 0) in
  let strength := r_of_Z 1 in
  doR gated_start <-
    match dict_get conds "timestep_start" with
    | Some v => doR timestep_start <- as_float v;
                doR t0 <- py_index timestep_in 0;
                Ok (r_ltb timestep_start t0)
    | None => Ok false
    end;
  if gated_start : bool then Ok None else
  doR gated_end <-
    match dict_get conds "timestep_end" with
    | Some v => doR timestep_end <- as_float v;
                doR t0 <- py_index timestep_in 0;
                Ok (r_ltb t0 timestep_end)
    | None => Ok false
    end;
  if gated_end : bool then Ok None else
  doR area <- match dict_get conds "area" with
              | Some v => as_area v
              | None => Ok area
              end;
  doR strength <- match dict_get conds "strength" with
                  | Some v => as_float v
                  | None => Ok strength
                  end;
  let '(a0, a1, a2, a3) := area in
  let input_x := crop area x_in in
  let '(in_b, in_c, _, _) := shape4 input_x in
  doR mask <-
    match dict_get conds "mask" with
    | Some v =>
        (* Scale the mask to the size of the input *)
        doR mask_strength <- match dict_get conds "mask_strength" with
                             | Some s => as_float s
                             | None => Ok (r_of_Z 1)
                             end;
        doR mask <- as_mask v;
        let '(m_b, m_h, m_w) := shape3 mask in
        if negb (m_h =? x_h) then Err AssertionError else
        if negb (m_w =? x_w) then Err AssertionError else
        let mask := tmap 3 (fun r => r_mul r mask_strength) (crop3 area mask) in
        if m_b =? 0 then Err ZeroDivisionError else
        Ok (unsqueeze_repeat (Z.to_nat (in_b / m_b)) (Z.to_nat in_c) mask)
    | None => Ok (ones_like input_x)
    end;
  let mult := tmap 4 (fun r => r_mul r strength) mask in
  let mult :=
    if dict_has conds "mask" then mult else
    let mult := if negb (a2 =? 0)
                then feather (fun t => scale_rows (Z.of_nat t) (1 + Z.of_nat t) (ramp t)) mult
                else mult in
    let mult := if a0 + a2 <? x_h
                then feather (fun t => scale_rows (a0 - 1 - Z.of_nat t) (a0 - Z.of_nat t)
                                                  (ramp t)) mult
                else mult in
    let mult := if negb (a3 =? 0)
                then feather (fun t => scale_cols (Z.of_nat t) (1 + Z.of_nat t) (ramp t)) mult
                else mult in
    let mult := if a1 + a3 <? x_w
                then feather (fun t => scale_cols (a1 - 1 - Z.of_nat t) (a1 - Z.of_nat t)
                                                  (ramp t)) mult
                else mult in
    mult in
  doR model_conds <- dict_item conds "model_conds";
  doR model_conds <- as_model_conds model_conds;
  doR conditionning <-
    map_result (fun '(c, o) =>
                  doR o' <- process_cond o (Z.of_nat (length x_in)) area; Ok (c, o'))
               model_conds;
  doR control <- match dict_get conds "control" with
                 | Some v => doR c <- as_control v; Ok (Some c)
                 | None => Ok None
                 end;
  doR patches <-
    match dict_get conds "gligen" with
    | Some v =>
        doR gligen <- as_gligen v;
        doR gligen_patch <-
          (if String.eqb (gligen_type gligen) "position"
           then set_position (gligen_model gligen) (shape4 input_x) (gligen_params gligen)
           else set_empty (gligen_model gligen) (shape4 input_x));
        Ok (Some (mkPatches obj_id [("middle_patch"%string, [gligen_patch])]))
    | None => Ok None
    end;
  Ok (Some (mkPrepared input_x mult (mkConditioning obj_id conditionning)
                       area control patches)).
End conditioning.

(* ===================================================================== *)
(** ** The batch planner: calc_cond_uncond_batch and its helpers          *)
(* ===================================================================== *)

Section batch_planner.
Context {R : Type} `{Comfy R}.

(** Lines 289-297.  [c1 is c2] compares identities; once the key sets
    agree every [c2[k]] exists. *)
Definition cond_equal_size (c1 c2 : Conditioning) : bool :=
  if (conditioning_id c1 =? conditioning_id c2)%nat then true
  else if negb (keys_eqb (conditioning_items c1) (conditioning_items c2)) then false
  else forallb (fun k =>
                  match dict_get (conditioning_items c1) k,
                        dict_get (conditioning_items c2) k with
                  | Some o1, Some o2 => can_concat o1 o2
                  | _, _ => false
                  end) (dict_keys (conditioning_items c1)).

Definition shape_eqb (s1 s2 : Z * Z * Z * Z) : bool :=
  let '(a0, a1, a2, a3) := s1 in
  let '(b0, b1, b2, b3) := s2 in
  (a0 =? b0) && (a1 =? b1) && (a2 =? b2) && (a3 =? b3).

(** [(a is None) != (b is None)] *)
Definition none_mismatch {A B : Type} (a : option A) (b : option B) : bool :=
  match a, b with
  | None, None | Some _, Some _ => false
  | _, _ => true
  end.

(** [a is not b] for two objects, by identity. *)
Definition is_not (ida : option nat) (idb : option nat) : bool :=
  match ida, idb with
  | Some i, Some j => negb (i =? j)%nat
  | None, None => false
  | _, _ => true
  end.

(** Lines 299-317. *)
Definition can_concat_cond (c1 c2 : Prepared) : bool :=
  if negb (shape_eqb (shape4 (p_input_x c1)) (shape4 (p_input_x c2))) then false
  (* control *)
  else if none_mismatch (p_control c1) (p_control c2) then false
  else if match p_control c1 with
          | Some _ => is_not (p_control c1) (p_control c2)
          | None => false
          end then false
  (* patches *)
  else if none_mismatch (p_patches c1) (p_patches c2) then false
  else if match p_patches c1 with
          | Some _ => is_not (patches_id <$> p_patches c1) (patches_id <$> p_patches c2)
          | None => false
          end then false
  else cond_equal_size (p_conditionning c1) (p_conditionning c2).

(** Lines 319-337: values grouped by key in order of first appearance,
    then [conds[0].concat(conds[1:])] per key. *)
Definition cond_cat (c_list : list Conditioning) : result (dict (AnyTensor R)) :=
  let temp : dict (list CondObj) :=
    fold_left (fun temp x_t =>
      fold_left (fun temp '(k, o) =>
        let cur := match dict_get temp k with Some l => l | None => [] end in
        dict_set temp k (cur ++ [o]))
        (conditioning_items x_t) temp)
      c_list [] in
  map_result (fun '(k, conds) =>
                match conds with
                | o :: rest => doR t <- concat_conds o rest; Ok (k, t)
                | [] => Err IndexError
                end) temp.

(** Lines 368-372: the indices of the requests mergeable with the first
    one, highest index first. *)
Definition mergeable_with_first (to_run : list (Prepared * Branch))
    (first : Prepared * Branch) : list nat :=
  reverse (List.filter (fun x_t =>
                          match to_run !! x_t with
                          | Some o => can_concat_cond (fst o) (fst first)
                          | None => false
                          end) (seq 0 (length to_run))).

(** Lines 375-379: the first prefix of length [len // i], [i = 1, 2, ...],
    whose area is below the budget; [to_batch] when there is none. *)
Fixpoint select_loop (divisors : list nat) (to_batch_temp : list nat)
    (first_shape : Z * Z * Z * Z) (max_total_area : Z)
    (to_batch : list nat) : list nat :=
  match divisors with
  | [] => to_batch
  | i :: divisors' =>
      let batch_amount := take (length to_batch_temp / i)%nat to_batch_temp in
      let '(s0, _, s2, s3) := first_shape in
      if Z.of_nat (length batch_amount) * s0 * s2 * s3 <? max_total_area
      then batch_amount
      else select_loop divisors' to_batch_temp first_shape max_total_area to_batch
  end.

(** Lines 373-379. *)
Definition select_batch (to_batch_temp : list nat)
    (first_shape : Z * Z * Z * Z) (max_total_area : Z) : list nat :=
  let to_batch := take 1 to_batch_temp in
  select_loop (seq 1 (length to_batch_temp)) to_batch_temp first_shape
              max_total_area to_batch.

(** What lines 381-397 collect while popping the chosen requests. *)
Record Batch : Type := mkBatch {
  b_to_run : list (Prepared * Branch);
  b_input_x : list (tensor R 4);
  b_mult : list (tensor R 4);
  b_c : list Conditioning;
  b_cond_or_uncond : list Branch;
  b_area : list Area;
  b_control : option nat;
  b_patches : option Patches
}.

(** Lines 388-397. *)
Fixpoint pop_batch (to_batch : list nat) (b : Batch) : result Batch :=
  match to_batch with
  | [] => Ok b
  | x_t :: rest =>
      doR '(o, to_run) <- py_pop (b_to_run b) x_t;
      let p := fst o in
      pop_batch rest
        (mkBatch to_run
                 (b_input_x b ++ [p_input_x p])
                 (b_mult b ++ [p_mult p])
                 (b_c b ++ [p_conditionning p])
                 (b_cond_or_uncond b ++ [snd o])
                 (b_area b ++ [p_area p])
                 (p_control p)
                 (p_patches p))
  end.

(** The local variables lines 431-456 read, write and delete. *)
Record Locals : Type := mkLocals {
  out_cond : tensor R 4;
  out_count : tensor R 4;
  out_uncond : tensor R 4;
  out_uncond_count : tensor R 4;
  input_x : option (tensor R 4);
  mult : option (list (tensor R 4));
  output : list (tensor R 4)
}.

Definition set_out_cond (t : tensor R 4) (l : Locals) : Locals :=
  mkLocals t (out_count l) (out_uncond l) (out_uncond_count l)
           (input_x l) (mult l) (output l).
Definition set_out_count (t : tensor R 4) (l : Locals) : Locals :=
  mkLocals (out_cond l) t (out_uncond l) (out_uncond_count l)
           (input_x l) (mult l) (output l).
Definition set_out_uncond (t : tensor R 4) (l : Locals) : Locals :=
  mkLocals (out_cond l) (out_count l) t (out_uncond_count l)
           (input_x l) (mult l) (output l).
Definition set_out_uncond_count (t : tensor R 4) (l : Locals) : Locals :=
  mkLocals (out_cond l) (out_count l) (out_uncond l) t
           (input_x l) (mult l) (output l).
Definition set_input_x (t : option (tensor R 4)) (l : Locals) : Locals :=
  mkLocals (out_cond l) (out_count l) (out_uncond l) (out_uncond_count l)
           t (mult l) (output l).
Definition set_mult (m : option (list (tensor R 4))) (l : Locals) : Locals :=
  mkLocals (out_cond l) (out_count l) (out_uncond l) (out_uncond_count l)
           (input_x l) m (output l).
Definition set_output (o : list (tensor R 4)) (l : Locals) : Locals :=
  mkLocals (out_cond l) (out_count l) (out_uncond l) (out_uncond_count l)
           (input_x l) (mult l) o.

(** [del input_x] and [del mult] *)
Definition del_input_x : M Locals unit :=
  do l <- get;
  do v <- lift_result (del_local (input_x l));
  modify (set_input_x v).
Definition del_mult : M Locals unit :=
  do l <- get;
  do v <- lift_result (del_local (mult l));
  modify (set_mult v).

(** [output[o] * mult[o]] and [mult[o]] *)
Definition weighted_chunk (o : nat) : M Locals (tensor R 4 * tensor R 4) :=
  do l <- get;
  do out_o <- lift_result (py_index (output l) (Z.of_nat o));
  do mults <- lift_result (read_local (mult l));
  do mult_o <- lift_result (py_index mults (Z.of_nat o));
  do w <- lift_result (tmul out_o mult_o);
  ret (w, mult_o).

(** Lines 435-437 and 444-445: the scatter into the conditioned buffers. *)
Definition scatter_cond (area : list Area) (o : nat) : M Locals unit :=
  do '(w, mult_o) <- weighted_chunk o;
  do a <- lift_result (py_index area (Z.of_nat o));
  do l <- get;
  do t <- lift_result (region_add a (out_cond l) w);
  do _ <- modify (set_out_cond t);
  do l <- get;
  do t <- lift_result (region_add a (out_count l) mult_o);
  modify (set_out_count t).

(** Lines 447-448: the scatter into the unconditioned buffers. *)
Definition scatter_uncond (area : list Area) (o : nat) : M Locals unit :=
  do '(w, mult_o) <- weighted_chunk o;
  do a <- lift_result (py_index area (Z.of_nat o));
  do l <- get;
  do t <- lift_result (region_add a (out_uncond l) w);
  do _ <- modify (set_out_uncond t);
  do l <- get;
  do t <- lift_result (region_add a (out_uncond_count l) mult_o);
  modify (set_out_uncond_count t).

(** [cond_or_uncond[o] == COND] *)
Definition is_cond (cond_or_uncond : list Branch) (o : nat) : M Locals bool :=
  do b <- lift_result (py_index cond_or_uncond (Z.of_nat o));
  ret (Branch_eqb b COND).

(** Lines 433-449: the loop over the chunks as it stands in the source.
    The conditioned scatter and a second call of the model function are
    the two branches of the outer [if]; [del input_x], a second loop over
    all chunks and [del mult] follow inside the same iteration. *)
Definition scatter_loop (model_function : ModelFn) (timestep_ : tensor R 1)
    (c : ModelKwargs) (cond_or_uncond : list Branch) (area : list Area)
    (batch_chunks : nat) : M Locals unit :=
  for_each (seq 0 batch_chunks) (fun o =>
    do is_c <- is_cond cond_or_uncond o;
    do _ <- (if is_c : bool
             then scatter_cond area o
             else
               do l <- get;
               do x <- lift_result (read_local (input_x l));
               do out <- lift_result (model_function x timestep_ c);
               do chunks <- lift_result (chunk out batch_chunks);
               modify (set_output chunks));
    do _ <- del_input_x;
    do _ <- for_each (seq 0 batch_chunks) (fun o =>
              do is_c <- is_cond cond_or_uncond o;
              if is_c : bool
              then scatter_cond area o
              else scatter_uncond area o);
    del_mult).

(** Lines 365-456: one pass through the body of the [while], which ends in
    the [return] of line 456. *)
Definition batch_pass (model_function : ModelFn) (controls : ControlStore)
    (to_run : list (Prepared * Branch)) (first : Prepared * Branch)
    (timestep : tensor R 1) (max_total_area : Z) (model_options : ModelOptions)
    (l : Locals) : result (tensor R 4 * tensor R 4) :=
  let first_shape := shape4 (p_input_x (fst first)) in
  let to_batch_temp := mergeable_with_first to_run first in
  let to_batch := select_batch to_batch_temp first_shape max_total_area in
  doR b <- pop_batch to_batch (mkBatch to_run [] [] [] [] [] None None);
  let cond_or_uncond := b_cond_or_uncond b in
  let area := b_area b in
  let batch_chunks := length cond_or_uncond in
  doR input_x <- cat (b_input_x b);
  doR c <- cond_cat (b_c b);
  doR timestep_ <- cat (replicate batch_chunks timestep);
  doR control_out <-
    match b_control b with
    | Some control =>
        doR out <- get_control (controls control) input_x timestep_ c
                               (length cond_or_uncond);
        Ok (Some out)
    | None => Ok None
    end;
  let transformer_options :=
    match mo_transformer_options model_options with
    | Some t => t
    | None => mkTransformerOptions None None 0
    end in
  let transformer_options :=
    match b_patches b with
    | Some patches =>
        match to_patches transformer_options with
        | Some _ =>
            (* cur_patches is merged into a copy that is then dropped *)
            transformer_options
        | None =>
            mkTransformerOptions (Some (patches_items patches))
                                 (to_cond_or_uncond transformer_options)
                                 (to_rest transformer_options)
        end
    | None => transformer_options
    end in
  let transformer_options :=
    mkTransformerOptions (to_patches transformer_options) (Some cond_or_uncond)
                         (to_rest transformer_options) in
  let c := mkModelKwargs c control_out transformer_options in
  doR out <-
    match mo_model_function_wrapper model_options with
    | Some wrapper => wrapper model_function input_x timestep_ c cond_or_uncond
    | None => model_function input_x timestep_ c
    end;
  doR chunks <- chunk out batch_chunks;
  let l := set_output chunks (set_mult (Some (b_mult b))
             (set_input_x (Some input_x) l)) in
  match (do _ <- del_input_x;
         do _ <- scatter_loop model_function timestep_ c cond_or_uncond area
                              batch_chunks;
         do l <- get;
         do t <- lift_result (tdiv (out_cond l) (out_count l));
         do _ <- modify (set_out_cond t);
         do l <- get;
         do t <- lift_result (tdiv (out_uncond l) (out_uncond_count l));
         do _ <- modify (set_out_uncond t);
         do l <- get;
         ret (out_cond l, out_uncond l)) l with
  | (r, _) => r
  end.

(** [for x_t in conds: p = get_area_and_mult(...); to_run += [(p, branch)]] *)
Fixpoint collect (branch : Branch) (obj_id : nat) (conds : list CondEntry)
    (x_in : tensor R 4) (timestep : tensor R 1)
    : result (list (Prepared * Branch)) :=
  match conds with
  | [] => Ok []
  | x_t :: rest =>
      doR p <- get_area_and_mult obj_id x_t x_in timestep;
      doR ps <- collect branch (S obj_id) rest x_in timestep;
      Ok (match p with
          | Some p => (p, branch) :: ps
          | None => ps
          end)
  end.

(** Lines 339-456.  The result is [None] when the function falls off its
    end, which it does when the [while] is never entered; an entered
    [while] leaves through the [return] (or an exception) of its first
    pass. *)
Definition calc_cond_uncond_batch (model_function : ModelFn)
    (controls : ControlStore)
    (cond uncond : option (list CondEntry)) (x_in : tensor R 4)
    (timestep : tensor R 1) (max_total_area : Z) (model_options : ModelOptions)
    : result (option (tensor R 4 * tensor R 4)) :=
  let out_cond := zeros_like x_in in
  let out_count := tmap 4 (fun r => r_div r (r_of_Z 100000)) (ones_like x_in) in
  let out_uncond := zeros_like x_in in
  let out_uncond_count := tmap 4 (fun r => r_div r (r_of_Z 100000)) (ones_like x_in) in
  doR cond <- match cond with Some l => Ok l | None => Err TypeError end;
  doR to_run <- collect COND 0 cond x_in timestep;
  doR to_run_u <- match uncond with
                  | Some uncond => collect UNCOND (length cond) uncond x_in timestep
                  | None => Ok []
                  end;
  let to_run := to_run ++ to_run_u in
  match to_run with
  | [] => Ok None
  | first :: _ =>
      doR r <- batch_pass model_function controls to_run first timestep
                          max_total_area model_options
                          (mkLocals out_cond out_count out_uncond out_uncond_count
                                    None None []);
      Ok (Some r)
  end.
End batch_planner.

(* ===================================================================== *)
(** ** The sliding-context path and the replacement denoising step        *)
(* ===================================================================== *)

Section sliding_context.
Context {R : Type} `{Comfy R}.
(** The motion module and its internal state (motion_module.py). *)
Context {MotionModule MotionState : Type}.
(** [motion_module.set_sub_idxs(idxs)] *)
Context (motion_set_sub_idxs : MotionModule -> option (list Z) -> M MotionState unit).

(** A context scheduler (context.py): the windows of one step, from
    (step, num_steps, num_frames, context_size, context_stride,
    context_overlap, closed_loop). *)
Definition ContextScheduler : Type :=
  Z -> Z -> Z -> option Z -> option Z -> option Z -> bool -> result (list (list Z)).
(** [get_context_scheduler(name)] *)
Context (get_context_scheduler : option string -> result ContextScheduler).

(** What the step reads and mutates outside its frame. *)
Record Env : Type := mkEnv {
  env_ADGS : GlobalState.t MotionModule;
  env_controls : ControlStore;
  env_motion : MotionState
}.

Definition set_env_ADGS (g : GlobalState.t MotionModule) (e : Env) : Env :=
  mkEnv g (env_controls e) (env_motion e).
Definition set_env_controls (s : ControlStore) (e : Env) : Env :=
  mkEnv (env_ADGS e) s (env_motion e).
Definition set_env_motion (m : MotionState) (e : Env) : Env :=
  mkEnv (env_ADGS e) (env_controls e) m.

(** Lines 471-476.  [depth] is what is left of the interpreter's recursion
    limit. *)
Fixpoint prepare_control_objects (depth : nat) (control : nat)
    (full_idxs : list Z) : M Env unit :=
  match depth with
  | O => raise RecursionError
  | S depth' =>
      do e <- get;
      do _ <- match previous_controlnet (env_controls e control) with
              | Some previous => prepare_control_objects depth' previous full_idxs
              | None => ret tt
              end;
      modify (fun e =>
        let o := env_controls e control in
        set_env_controls
          (store_set (env_controls e) control
             (mkControlBase (previous_controlnet o)
                            (Some (Some full_idxs))
                            (Some (GlobalState.video_length (env_ADGS e)))
                            (Some (GlobalState.context_frames (env_ADGS e)))))
          e)
  end.

(** [hasattr(control_item, "sub_idxs")] *)
Definition has_sub_idxs (s : ControlStore) (v : CondValue) : bool :=
  match v with
  | VControl c => match sub_idxs (s c) with Some _ => true | None => false end
  | _ => false
  end.

(** Lines 507-517: the copy of a nested dict with its per-frame tensors
    and wrapped tensors subset. *)
Definition resize_dict (x_size : Z) (full_idxs : list Z)
    (cond_item : dict DictValue) : result (dict DictValue) :=
  let new_cond_item := cond_item in
  fold_left (fun acc '(cond_key, cond_value) =>
    doR new_cond_item <- acc;
    match cond_value with
    | DTensor t =>
        doR n <- size0 t;
        if n =? x_size
        then doR t' <- index_select t full_idxs;
             Ok (dict_set new_cond_item cond_key (DTensor t'))
        else Ok new_cond_item
    | DObj o =>
        match cond_attr o with
        | Some t =>
            (* if has cond that is a Tensor, check if needs to be subset *)
            doR n <- size0 t;
            if n =? x_size
            then doR t' <- index_select t full_idxs;
                 Ok (dict_set new_cond_item cond_key (DObj (copy_with o t')))
            else Ok new_cond_item
        | None => Ok new_cond_item
        end
    | DOther _ => Ok new_cond_item
    end) new_cond_item (Ok new_cond_item).

(** Lines 486-521: the new value of one key. *)
Definition resize_item (depth : nat) (x_size : Z) (full_idxs : list Z)
    (key : string) (cond_item : CondValue) : M Env CondValue :=
  match cond_item with
  | VTensor t =>
      (* check that tensor is the expected length - x.size(0) *)
      do n <- lift_result (size0 t);
      if n =? x_size
      then do t' <- lift_result (index_select t full_idxs); ret (VTensor t')
      else ret cond_item
  | _ =>
      (* look for control *)
      if String.eqb key "control" then
        let control_item := cond_item in
        do e <- get;
        do _ <- (if has_sub_idxs (env_controls e) control_item
                 then match control_item with
                      | VControl c => prepare_control_objects depth c full_idxs
                      | _ => ret tt
                      end
                 else raise ValueError);
        ret control_item
      else
        match cond_item with
        | VDict d =>
            do new_cond_item <- lift_result (resize_dict x_size full_idxs d);
            ret (VDict new_cond_item)
        | _ => ret cond_item
        end
  end.

(** Lines 483-522: one entry. *)
Definition resize_entry (depth : nat) (x_size : Z) (full_idxs : list Z)
    (actual_cond : CondEntry) : M Env CondEntry :=
  let resized_actual_cond := actual_cond in
  fold_left (fun acc key =>
    do resized_actual_cond <- acc;
    do cond_item <- lift_result (dict_item actual_cond key);
    do v <- resize_item depth x_size full_idxs key cond_item;
    ret (dict_set resized_actual_cond key v))
    (dict_keys actual_cond) (ret resized_actual_cond).

(** Lines 478-523.  [x] is the full input batch of the enclosing step. *)
Fixpoint get_resized_cond (depth : nat) (x : tensor R 4)
    (cond_in : list CondEntry) (full_idxs : list Z) : M Env (list CondEntry) :=
  match cond_in with
  | [] => ret []
  | actual_cond :: rest =>
      do resized_actual_cond <-
        resize_entry depth (Z.of_nat (length x)) full_idxs actual_cond;
      do resized_cond <- get_resized_cond depth x rest full_idxs;
      ret (resized_actual_cond :: resized_cond)
  end.

(** [l[idxs] = vals] with a list of integers, one row after the other. *)
Fixpoint index_put {A : Type} (l : list A) (idxs : list Z) (vals : list A)
    : result (list A) :=
  match idxs, vals with
  | [], [] => Ok l
  | i :: idxs', v :: vals' =>
      let n := Z.of_nat (length l) in
      let j := if i <? 0 then i + n else i in
      if (0 <=? j) && (j <? n)
      then index_put (<[Z.to_nat j := v]> l) idxs' vals'
      else Err IndexError
  | _, _ => Err RuntimeError
  end.

(** [t[idxs] += v] *)
Definition index_add {n : nat} (t : tensor R (S n)) (idxs : list Z)
    (v : tensor R (S n)) : result (tensor R (S n)) :=
  doR rows <- gather (t : list (tensor R n)) idxs;
  doR sum <- @tadd R _ (S n) rows v;
  index_put (t : list (tensor R n)) idxs sum.

(** [for n in range(axes_factor): for ind in ctx_idxs:
       full_idxs.append((ADGS.video_length*n)+ind)] *)
Definition expand_idxs (video_length axes_factor : Z) (ctx_idxs : list Z) : list Z :=
  concat (map (fun n => map (fun ind => video_length * Z.of_nat n + ind) ctx_idxs)
              (seq 0 (Z.to_nat axes_factor))).

(** The three buffers of lines 467-469. *)
Record Final : Type := mkFinal {
  cond_final : tensor R 4;
  uncond_final : tensor R 4;
  out_count_final : tensor R 4
}.

(** Lines 527-546: one context window. *)
Definition window_pass (depth : nat) (x : tensor R 4) (axes_factor : Z)
    (model_function : ModelFn) (cond uncond : option (list CondEntry))
    (timestep : tensor R 1) (max_total_area : Z) (model_options : ModelOptions)
    (f : Final) (ctx_idxs : list Z) : M Env Final :=
  do e <- get;
  (* idxs of positional encoders in motion module to use, if needed *)
  do _ <- (if GlobalState.sync_context_to_pe (env_ADGS e)
           then
             do _ <- modify (fun e =>
                       set_env_ADGS (GlobalState.set_sub_idxs (env_ADGS e)
                                                              (Some ctx_idxs)) e);
             match GlobalState.motion_module (env_ADGS e) with
             | Some mm => fun e =>
                 match motion_set_sub_idxs mm (GlobalState.sub_idxs (env_ADGS e))
                                           (env_motion e) with
                 | (r, m) => (r, set_env_motion m e)
                 end
             | None => raise AttributeError
             end
           else ret tt);
  (* account for all portions of input frames *)
  let full_idxs := expand_idxs (GlobalState.video_length (env_ADGS e))
                               axes_factor ctx_idxs in
  (* get subsections of x, timestep, cond, uncond, cond_concat *)
  do sub_x <- lift_result (gather x full_idxs);
  do sub_timestep <- lift_result (gather timestep full_idxs);
  do sub_cond <- match cond with
                 | Some cond => do c <- get_resized_cond depth x cond full_idxs;
                                ret (Some c)
                 | None => ret None
                 end;
  do sub_uncond <- match uncond with
                   | Some uncond => do c <- get_resized_cond depth x uncond full_idxs;
                                    ret (Some c)
                   | None => ret None
                   end;
  do e <- get;
  do out <- lift_result (calc_cond_uncond_batch model_function (env_controls e)
                           sub_cond sub_uncond sub_x sub_timestep
                           max_total_area model_options);
  (* unpacking the result of the call into two names *)
  do '(sub_cond_out, sub_uncond_out) <-
    match out with
    | Some outs => ret outs
    | None => raise TypeError
    end;
  do cf <- lift_result (index_add (cond_final f) full_idxs sub_cond_out);
  do uf <- lift_result (index_add (uncond_final f) full_idxs sub_uncond_out);
  (* increment which indeces were used *)
  do counts <- lift_result (gather (out_count_final f) full_idxs);
  do cnt <- lift_result
              (index_put (out_count_final f) full_idxs
                         (map (tmap 3 (fun r => r_add r (r_of_Z 1))) counts));
  ret (mkFinal cf uf cnt).

(** [for ctx_idxs in windows: ...] *)
Fixpoint windows_loop (windows : list (list Z)) (pass : Final -> list Z -> M Env Final)
    (f : Final) : M Env Final :=
  match windows with
  | [] => ret f
  | ctx_idxs :: rest => do f' <- pass f ctx_idxs; windows_loop rest pass f'
  end.

(** Lines 460-551.  [x] is the variable of the enclosing function the body
    reads; the parameter [x_in] is not used.  Everything the source has
    after the [return] of line 551 (lines 553-565) is never executed. *)
Definition sliding_calc_cond_uncond_batch (depth : nat) (x : tensor R 4)
    (model_function : ModelFn) (cond uncond : option (list CondEntry))
    (x_in : tensor R 4) (timestep : tensor R 1) (max_total_area : Z)
    (model_options : ModelOptions) : M Env (tensor R 4 * tensor R 4) :=
  do e <- get;
  let adgs := env_ADGS e in
  (* get context scheduler *)
  do context_scheduler <-
    lift_result (get_context_scheduler (GlobalState.context_schedule adgs));
  (* figure out how input is split *)
  do axes_factor <- (if GlobalState.video_length adgs =? 0
                     then raise ZeroDivisionError
                     else ret (Z.of_nat (length x) / GlobalState.video_length adgs));
  (* prepare final cond, uncond, and out_count *)
  let f := mkFinal (zeros_like x) (zeros_like x)
                   (map (fun _ => [[[r_of_Z 0]]]) x) in
  (* perform calc_cond_uncond_batch per context window *)
  do windows <- lift_result
                  (context_scheduler (GlobalState.current_step adgs)
                     (GlobalState.total_steps adgs) (GlobalState.video_length adgs)
                     (GlobalState.context_frames adgs)
                     (GlobalState.context_stride adgs)
                     (GlobalState.context_overlap adgs)
                     (GlobalState.closed_loop adgs));
  do f <- windows_loop windows
            (window_pass depth x axes_factor model_function cond uncond timestep
                         max_total_area model_options) f;
  (* normalize cond and uncond via division by context usage counts *)
  do cf <- lift_result (tdiv (cond_final f) (out_count_final f));
  do uf <- lift_result (tdiv (uncond_final f) (out_count_final f));
  ret (cf, uf).

(** Lines 216-565.  The body binds its six nested functions and ends: the
    statements that would pick a path and combine its two outputs sit, by
    their indentation, behind the [return] of
    [sliding_calc_cond_uncond_batch].  The call returns Python's [None]. *)
Definition sliding_sampling_function (depth : nat) (model_function : ModelFn)
    (x : tensor R 4) (timestep : tensor R 1)
    (uncond cond : option (list CondEntry)) (cond_scale : R)
    (model_options : ModelOptions) (seed : option Z)
    : M Env (option (tensor R 4)) :=
  let get_area_and_mult := @get_area_and_mult R _ _ in
  let cond_equal_size := @cond_equal_size R _ _ in
  let can_concat_cond := @can_concat_cond R _ _ in
  let cond_cat := @cond_cat R _ _ in
  let calc_cond_uncond_batch := @calc_cond_uncond_batch R _ _ in
  let sliding_calc_cond_uncond_batch := sliding_calc_cond_uncond_batch depth x in
  ret None.
End sliding_context.

(* ===================================================================== *)
(** ** A small concrete host, to run the definitions on                   *)
(* ===================================================================== *)

(** Scalars as rationals. *)
#[export] Instance Q_Scalar : Scalar Q := {|
  r_of_Z := inject_Z;
  r_add := Qplus;
  r_sub := Qminus;
  r_mul := Qmult;
  r_div := Qdiv;
  r_ltb := fun a b => negb (Qle_bool b a);
  r_isclose := Qeq_bool
|}.

(** Conditioning objects in the manner of comfy's CONDRegular: a wrapped
    tensor, concatenable with another one of the same number of rows. *)
#[export] Instance Q_Comfy : Comfy Q := {|
  CondObj := AnyTensor Q;
  Patch := nat;
  ControlOut := nat;
  cond_attr := fun o => Some o;
  copy_with := fun _ t => t;
  process_cond := fun o _ _ => Ok o;
  can_concat := fun a b =>
    match size0 a, size0 b with
    | Ok n, Ok m => n =? m
    | _, _ => false
    end;
  concat_conds := fun o _ => Ok o;
  set_position := fun _ _ _ => Ok 0%nat;
  set_empty := fun _ _ => Ok 0%nat;
  get_control := fun _ _ _ _ _ => Ok 0%nat
|}.

Module Demo.
(** One frame, one channel, one pixel. *)
Definition x : tensor Q 4 := [[[[inject_Z 1]]]].
Definition timestep : tensor Q 1 := [inject_Z 1].

(** A model function that returns its input. *)
Definition model_function : @ModelFn Q _ _ := fun x _ _ => Ok x.

Definition model_options : @ModelOptions Q _ _ := mkModelOptions None None None.

(** A single request with no area, mask, control or conditioning objects. *)
Definition request : @CondEntry Q _ _ := [("model_conds"%string, VDict [])].

(** Stock control objects everywhere: no window-scope attributes. *)
Definition no_controls : ControlStore := fun _ => mkControlBase None None None None.

(** A scheduler that yields the single window of all frames. *)
Definition one_window : ContextScheduler :=
  fun _ _ num_frames _ _ _ _ => Ok [map Z.of_nat (seq 0 (Z.to_nat num_frames))].

(** The run state of a one-frame video; [context_frames] tells whether the
    sliding context is in use. *)
Definition adgs (context_frames : option Z) : GlobalState.t nat :=
  GlobalState.mk None 0 0 0 1 1 context_frames (Some 1) (Some 0)
                 (Some "uniform"%string) false false None.

Definition env (context_frames : option Z) : @Env nat unit :=
  mkEnv (adgs context_frames) no_controls tt.

Definition motion_set_sub_idxs : nat -> option (list Z) -> M unit unit :=
  fun _ _ => ret tt.

(** What [get_area_and_mult] makes of [request] when the dicts it creates
    take the identity [i]. *)
Definition prepared (i : nat) : @Prepared Q _ _ :=
  mkPrepared x x (mkConditioning i []) (1, 1, 0, 0) None None.

(** The list [to_run] of [n] such conditioned requests. *)
Definition to_run (n : nat) : list (@Prepared Q _ _ * Branch) :=
  match collect COND 0 (replicate n request) x timestep with
  | Ok l => l
  | Err _ => []
  end.
End Demo.

Module DemoHost.
(** A host whose state is the log of the collaborator calls made so far.
    Models, motion modules and caches are numbers; model 1 carries
    injected motion-module parameters. *)
Definition log (s : string) : M (list string) unit :=
  modify (fun l => l ++ [s]).

Definition params : InjectionParams.t :=
  InjectionParams.mk 0 (Some 16) (Some 1) (Some 4) (Some "uniform"%string)
                     false false true true "mm_sd_v15"%string 0 1 "sqrt_linear"%string.

(** [load_ok = false]: the motion module cannot be loaded. *)
Definition collaborators (load_ok : bool)
    : @Collaborators nat nat nat nat nat (list string) := {|
  is_injected_mm_params := fun m => (m =? 1)%nat;
  get_injected_mm_params := fun _ => Ok params;
  latents_size := fun a => Z.of_nat a;
  inject_params_into_model := fun m _ => do _ <- log "inject_params_into_model"; ret m;
  BetaScheduleCache := fun _ => ret 0%nat;
  load_motion_module := fun _ _ _ =>
    if load_ok then do _ <- log "load_motion_module"; ret 7%nat
    else raise (HostError 404);
  inject_motion_module := fun _ _ _ => log "inject_motion_module";
  BetaSchedules_to_name := fun s => Ok s;
  register_schedule := fun _ _ => log "register_schedule";
  set_scale_multiplier := fun _ _ => log "set_scale_multiplier";
  wrap_function_to_inject_xformers_bug_info := fun f => f;
  eject_motion_module := fun _ => log "eject_motion_module";
  reset_scale_multiplier := fun _ => log "reset_scale_multiplier";
  set_sub_idxs := fun _ _ => log "set_sub_idxs";
  has_loras := fun _ => ret false;
  unload_motion_module := fun _ => log "unload_motion_module";
  use_cached_beta_schedule_and_clean := fun _ _ => log "use_cached_beta_schedule_and_clean"
|}.

(** The world before the run: five functions of the host in the patched
    attributes, a fresh global state, an empty log. *)
Definition world : @World nat (list string) :=
  mkWorld (HostFn 1) (HostFn 2) (HostFn 3) (HostFn 4) (HostFn 5)
          GlobalState.init [].

Definition kwargs : @Kwargs nat nat (list string) := mkKwargs None None None.

(** A host sampler that fails, and one that succeeds. *)
Definition failing_sample : @SampleFn nat nat nat nat (list string) :=
  fun _ _ _ => raise (HostError 500).
Definition working_sample : @SampleFn nat nat nat nat (list string) :=
  fun _ _ _ => ret 0%nat.
End DemoHost.

(** Whether a call produced the pair of buffers, as opposed to raising or
    returning [None]. *)
Definition returns_buffers {A : Type} (r : result (option A)) : bool :=
  match r with
  | Ok (Some _) => true
  | _ => false
  end.

Ltac break_match_hyp E :=
  repeat match type of E with
         | context [match ?x with _ => _ end] => destruct x eqn:?
         end.

(** Whether [k] requests of the given tile shape stay under the budget. *)
Definition fits (k : nat) (shape : Z * Z * Z * Z) (budget : Z) : Prop :=
  let '(s0, _, s2, s3) := shape in Z.of_nat k * s0 * s2 * s3 < budget.

Definition fitsb (k : nat) (shape : Z * Z * Z * Z) (budget : Z) : bool :=
  let '(s0, _, s2, s3) := shape in Z.of_nat k * s0 * s2 * s3 <? budget.

(** The batch size in the words of the specification, read as "the largest
    power-of-two-sized subset whose total area stays under the budget": the
    largest power of two, at most the size [n] of the group, that fits; one
    request when none does. *)
Definition spec_pow2_size (n : nat) (shape : Z * Z * Z * Z) (budget : Z) : nat :=
  hd 1%nat (List.filter (fun p => (p <=? n)%nat && fitsb p shape budget)
                        (map (fun k => 2 ^ k)%nat (rev (seq 0 n)))).

(** The same words read as "by repeated halving": halve the size of the
    group until it fits, down to one request. *)
Fixpoint spec_halving_size (fuel n : nat) (shape : Z * Z * Z * Z) (budget : Z) : nat :=
  match fuel with
  | O => 1%nat
  | S fuel' =>
      if fitsb n shape budget then n
      else if (n <=? 1)%nat then 1%nat
      else spec_halving_size fuel' (n / 2)%nat shape budget
  end.

(* ===================================================================== *)
(** ** Vocabulary for the projection of conditioning entries              *)
(* ===================================================================== *)

(** [rows'] are the rows of [rows] at the indices [idxs], in that order. *)
Definition gathered {A : Type} (rows : list A) (idxs : list Z) (rows' : list A) : Prop :=
  length rows' = length idxs
  /\ forall (j : nat) (i : Z), idxs !! j = Some i -> rows' !! j = rows !! Z.to_nat i.

(** The control objects reached from [c] through [previous_controlnet], [c]
    first, up to the one without a previous object. *)
Inductive chain (s : ControlStore) : nat -> list nat -> Prop :=
| chain_last (c : nat) :
    previous_controlnet (s c) = None -> chain s c [c]
| chain_link (c p : nat) (links : list nat) :
    previous_controlnet (s c) = Some p -> chain s p links -> chain s c (c :: links).

(** A control object carrying the window-scope attributes of the current
    window. *)
Definition window_scoped (o : ControlBase) (idxs : list Z) (video_length : Z)
    (context_frames : option Z) : Prop :=
  sub_idxs o = Some (Some idxs)
  /\ full_latent_length o = Some video_length
  /\ context_length o = Some context_frames.

(** Between two states of the control store: links are kept, and an object
    is either untouched or carries the attributes of the current window. *)
Definition store_step (idxs : list Z) (video_length : Z) (context_frames : option Z)
    (s s' : ControlStore) : Prop :=
  forall c, previous_controlnet (s' c) = previous_controlnet (s c)
            /\ (s' c = s c \/ window_scoped (s' c) idxs video_length context_frames).

Section projectable.
Context {R : Type} `{Comfy R}.

(** The entries projection is defined on: tensors with a leading dimension,
    and under the key "control" a control object that has the window-scope
    protocol and a chain within the recursion limit. *)
Definition nested_projectable (dv : DictValue) : Prop :=
  match dv with
  | DTensor t => rank t <> 0%nat
  | DObj o => match cond_attr o with
              | Some t => rank t <> 0%nat
              | None => True
              end
  | DOther _ => True
  end.

Definition item_projectable (s : ControlStore) (depth : nat) (key : string)
    (v : CondValue) : Prop :=
  match v with
  | VTensor t => rank t <> 0%nat
  | VControl c =>
      key = "control"%string ->
      sub_idxs (s c) <> None
      /\ exists links, chain s c links /\ (length links <= depth)%nat
  | VDict d =>
      key <> "control"%string /\ Forall (fun kv => nested_projectable (snd kv)) d
  | _ => key <> "control"%string
  end.

Definition entry_projectable (s : ControlStore) (depth : nat) (entry : CondEntry) : Prop :=
  forall key v, dict_get entry key = Some v -> item_projectable s depth key v.

(** What projection makes of the value [v] of a key, apart from its effect
    on control objects. *)
Definition resize_value (x_size : Z) (full_idxs : list Z) (key : string)
    (v : CondValue) : result CondValue :=
  match v with
  | VTensor t =>
      doR n <- size0 t;
      if n =? x_size
      then doR t' <- index_select t full_idxs; Ok (VTensor t')
      else Ok v
  | VDict d =>
      if String.eqb key "control" then Ok v
      else doR d' <- resize_dict x_size full_idxs d; Ok (VDict d')
  | _ => Ok v
  end.
End projectable.

(** Between two states of the step while a window is projected: the run
    state and the motion module are untouched, the control store moves by
    [store_step] for the window scope the run state prescribes. *)
Definition env_step {MotionModule MotionState : Type} (idxs : list Z)
    (e e' : @Env MotionModule MotionState) : Prop :=
  env_ADGS e' = env_ADGS e
  /\ env_motion e' = env_motion e
  /\ store_step idxs (GlobalState.video_length (env_ADGS e))
                (GlobalState.context_frames (env_ADGS e))
                (env_controls e) (env_controls e').

(** One turn of the loop over the keys of an entry (lines 485-521), as the
    function [resize_entry] folds over the keys. *)
Definition resize_key {R : Type} `{Comfy R} {MotionModule MotionState : Type}
    (depth : nat) (x_size : Z) (full_idxs : list Z) (actual_cond : CondEntry)
    (acc : M (@Env MotionModule MotionState) CondEntry) (key : string)
    : M (@Env MotionModule MotionState) CondEntry :=
  do resized_actual_cond <- acc;
  do cond_item <- lift_result (dict_item actual_cond key);
  do v <- resize_item depth x_size full_idxs key cond_item;
  ret (dict_set resized_actual_cond key v).

(** What projection leaves of an entry: every key with the new value of its
    value. *)
Definition entry_projected {R : Type} `{Comfy R} (x_size : Z) (full_idxs : list Z)
    (actual_cond resized_actual_cond : CondEntry) : Prop :=
  forall key v, dict_get actual_cond key = Some v ->
    exists v', resize_value x_size full_idxs key v = Ok v'
               /\ dict_get resized_actual_cond key = Some v'.

(** The fields of a projected entry, by kind of value: per-frame tensors
    are gathered, other tensors and plain values are kept, mappings are
    projected by [resize_dict]. *)
Definition fields_projected {R : Type} `{Comfy R} (x_size : Z) (idxs : list Z)
    (actual_cond resized_actual_cond : CondEntry) : Prop :=
  (forall key n (rows : list (tensor R n)),
     dict_get actual_cond key = Some (VTensor (mkAnyTensor (S n) rows)) ->
     if Z.of_nat (length rows) =? x_size
     then exists rows',
            dict_get resized_actual_cond key
            = Some (VTensor (mkAnyTensor (S n) rows'))
            /\ gathered rows idxs rows'
     else dict_get resized_actual_cond key
          = Some (VTensor (mkAnyTensor (S n) rows)))
  /\ (forall key d,
        dict_get actual_cond key = Some (VDict d) ->
        exists d', resize_dict x_size idxs d = Ok d'
                   /\ dict_get resized_actual_cond key = Some (VDict d'))
  /\ (forall key v,
        dict_get actual_cond key = Some v ->
        match v with
        | VTensor _ | VDict _ => True
        | _ => dict_get resized_actual_cond key = Some v
        end).

(** A video of sixteen frames under a sliding context of five, with two
    chained control objects that have the window-scope attributes and a
    stock one (handle 9) that has not. *)
Module DemoWindow.
Definition x : tensor Q 4 := replicate 16 [[[inject_Z 1]]].

Definition per_frame : AnyTensor Q :=
  mkAnyTensor 1 (map (fun n => inject_Z (Z.of_nat n)) (seq 0 16)).
Definition pooled : AnyTensor Q := mkAnyTensor 1 [inject_Z 7; inject_Z 8].

Definition controls : ControlStore :=
  fun c => match c with
           | 0%nat => mkControlBase (Some 1%nat) (Some None) None None
           | 1%nat => mkControlBase None (Some None) None None
           | _ => mkControlBase None None None None
           end.

Definition adgs : GlobalState.t nat :=
  GlobalState.mk None 0 0 0 1 16 (Some 5) (Some 1) (Some 0)
                 (Some "uniform"%string) false false None.

Definition env : @Env nat unit := mkEnv adgs controls tt.

Definition entry : @CondEntry Q _ _ :=
  [("per_frame"%string, VTensor per_frame);
   ("pooled_output"%string, VTensor pooled);
   ("strength"%string, VFloat (inject_Z 1));
   ("control"%string, VControl 0)].


Definition window : list Z := [0; 1; 2; 6; 7].
End DemoWindow.

(** Lines 510-516: the new value of one value of a nested dict. *)
Definition resize_dict_value {R : Type} `{Comfy R} (x_size : Z) (full_idxs : list Z)
    (cond_value : DictValue) : result DictValue :=
  match cond_value with
  | DTensor t =>
      doR n <- size0 t;
      if n =? x_size
      then doR t' <- index_select t full_idxs; Ok (DTensor t')
      else Ok cond_value
  | DObj o =>
      match cond_attr o with
      | Some t =>
          doR n <- size0 t;
          if n =? x_size
          then doR t' <- index_select t full_idxs; Ok (DObj (copy_with o t'))
          else Ok cond_value
      | None => Ok cond_value
      end
  | DOther _ => Ok cond_value
  end.

(** One turn of the loop over the items of a nested dict (lines 509-516),
    as [resize_dict] folds over them. *)
Definition resize_dict_step {R : Type} `{Comfy R} (x_size : Z) (full_idxs : list Z)
    (acc : result (dict DictValue)) (item : string * DictValue)
    : result (dict DictValue) :=
  let '(cond_key, cond_value) := item in
  doR new_cond_item <- acc;
  match cond_value with
  | DTensor t =>
      doR n <- size0 t;
      if n =? x_size
      then doR t' <- index_select t full_idxs;
           Ok (dict_set new_cond_item cond_key (DTensor t'))
      else Ok new_cond_item
  | DObj o =>
      match cond_attr o with
      | Some t =>
          doR n <- size0 t;
          if n =? x_size
          then doR t' <- index_select t full_idxs;
               Ok (dict_set new_cond_item cond_key (DObj (copy_with o t')))
          else Ok new_cond_item
      | None => Ok new_cond_item
      end
  | DOther _ => Ok new_cond_item
  end.

(** Strictly decreasing indices, all below [bound]: the shape of
    [to_batch_temp] after its [reverse()]. *)
Fixpoint descending_below (bound : nat) (l : list nat) : Prop :=
  match l with
  | [] => True
  | i :: l' => (i < bound)%nat /\ descending_below i l'
  end.

(** The tensor of rank [n] with one element, [r]: shape (1, ..., 1). *)
Fixpoint unit_tensor {R : Type} (n : nat) (r : R) : tensor R n :=
  match n with
  | O => r
  | S n' => [unit_tensor n' r]
  end.

(** A scheduler that yields no window at all. *)
Definition no_window : ContextScheduler := fun _ _ _ _ _ _ _ => Ok [].

(** A rank-4 nested list that is a tensor as far as its last two dimensions
    go: every image has the height and every row the width that [shape4]
    reports. *)
Definition uniform {R : Type} (x : tensor R 4) : Prop :=
  let d1 := match x with c :: _ => c | [] => [] end in
  let d2 := match d1 with h :: _ => h | [] => [] end in
  let d3 := match d2 with w :: _ => w | [] => [] end in
  Forall (Forall (fun hw : tensor R 2 =>
                    length hw = length d2
                    /\ Forall (fun row : tensor R 1 => length row = length d3) hw)) x.

(** Whether a call of [get_area_and_mult] produced a request, as opposed to
    raising or gating the entry out. *)
Definition returns_request {A : Type} (r : result (option A)) : bool :=
  match r with
  | Ok (Some _) => true
  | _ => false
  end.

(** A collaborator call that returns whatever the state it is made in. *)
Definition never_raises {S A : Type} (m : M S A) : Prop :=
  forall s, exists a s', m s = (Ok a, s').

Section sample_vocabulary.
Context {Model MotionModule Arg Out BetaCache HostState : Type}.
Context (C : @Collaborators Model MotionModule Arg Out BetaCache HostState).

(** The collaborators called before the motion module is bound complete. *)
Definition setup_never_raises : Prop :=
  (forall m p, never_raises (inject_params_into_model C m p))
  /\ (forall m, never_raises (BetaScheduleCache C m))
  /\ (forall name loras m, never_raises (load_motion_module C name loras m)).

(** The collaborators called by the [finally] block complete. *)
Definition teardown_never_raises : Prop :=
  (forall m, never_raises (eject_motion_module C m))
  /\ (forall mm, never_raises (reset_scale_multiplier C mm))
  /\ (forall mm idxs, never_raises (set_sub_idxs C mm idxs))
  /\ (forall mm, never_raises (has_loras C mm))
  /\ (forall mm, never_raises (unload_motion_module C mm))
  /\ (forall cache m, never_raises (use_cached_beta_schedule_and_clean C cache m)).

(** The five module attributes a run patches. *)
Definition patched_attrs (w : @World MotionModule HostState) : SavedFns :=
  mkSavedFns (forward_timestep_embed_attr w) (maximum_batch_area_attr w)
             (GroupNorm_forward_attr w) (GroupNormAD_forward_attr w)
             (sampling_function_attr w).

(** The local variables of a call that the [finally] block reads, except
    [model]. *)
Definition frame_locals (f : @Frame Model MotionModule BetaCache HostState)
    : option (option MotionModule) * option SavedFns * option BetaCache :=
  (motion_module f, saved_fns f, orig_beta_cache f).

Definition keeps_locals {A : Type}
    (m : M (@Frame Model MotionModule BetaCache HostState) A) : Prop :=
  forall f, frame_locals (snd (m f)) = frame_locals f.
End sample_vocabulary.

Section sample_vocabulary_run.
Context {Model MotionModule Arg Out BetaCache HostState : Type}.
Context (C : @Collaborators Model MotionModule Arg Out BetaCache HostState).

(** The global state a run hands to the host sampler. *)
Definition run_state (mm : MotionModule) (params : InjectionParams.t)
    (kwargs : @Kwargs MotionModule Arg HostState) : GlobalState.t MotionModule :=
  GlobalState.mk (Some mm)
                 (get_or_0 (kw_start_step kwargs)) (get_or_0 (kw_last_step kwargs))
                 (get_or_0 (kw_start_step kwargs)) 0
                 (InjectionParams.video_length params)
                 (InjectionParams.context_length params)
                 (InjectionParams.context_stride params)
                 (InjectionParams.context_overlap params)
                 (InjectionParams.context_schedule params)
                 (InjectionParams.closed_loop params)
                 (InjectionParams.sync_context_to_pe params)
                 None.
End sample_vocabulary_run.

(* ===================================================================== *)
(** ** The replacement of openaimodel.forward_timestep_embed              *)
(* ===================================================================== *)

Section forward_timestep_embed.
(** Activations, timestep embeddings, cross-attention contexts, output
    shapes, and whatever else [transformer_options] holds. *)
Context {X Emb Ctx Shape Other : Type}.

(** The dict [transformer_options] as this function uses it: the key
    "current_index", which may be missing, next to the other keys. *)
Record LayerOptions : Type := mkLayerOptions {
  current_index : option Z;
  other_options : Other
}.

(** A layer of the sequence, by the first [isinstance] test it passes, with
    its forward function.  Only a SpatialTransformer is handed
    [transformer_options], which it may read and update. *)
Inductive Layer : Type :=
| TimestepBlock (forward : X -> Emb -> result X)
| VanillaTemporalModule (forward : X -> option Ctx -> result X)
| SpatialTransformer (forward : X -> option Ctx -> M LayerOptions X)
| Upsample (forward : X -> option Shape -> result X)
| OtherLayer (forward : X -> result X).

(** [transformer_options["current_index"] += 1] *)
Definition increment_current_index : M LayerOptions unit :=
  do o <- get;
  match current_index o with
  | Some i => modify (fun o => mkLayerOptions (Some (i + 1)) (other_options o))
  | None => raise KeyError
  end.

(** Lines 77-92. *)
Fixpoint forward_timestep_embed (ts : list Layer) (x : X) (emb : Emb)
    (context : option Ctx) (output_shape : option Shape) : M LayerOptions X :=
  match ts with
  | [] => ret x
  | layer :: ts' =>
      do x <- match layer with
              | TimestepBlock forward => lift_result (forward x emb)
              | VanillaTemporalModule forward => lift_result (forward x context)
              | SpatialTransformer forward =>
                  do x <- forward x context;
                  do _ <- increment_current_index;
                  ret x
              | Upsample forward => lift_result (forward x output_shape)
              | OtherLayer forward => lift_result (forward x)
              end;
      forward_timestep_embed ts' x emb context output_shape
  end.

Definition is_SpatialTransformer (layer : Layer) : bool :=
  match layer with
  | SpatialTransformer _ => true
  | _ => false
  end.

(** A layer that leaves the key "current_index" as it finds it. *)
Definition keeps_current_index (layer : Layer) : Prop :=
  match layer with
  | SpatialTransformer forward =>
      forall x context o, current_index (snd (forward x context o)) = current_index o
  | _ => True
  end.

(** A layer whose forward function returns on every input. *)
Definition layer_returns (layer : Layer) : Prop :=
  match layer with
  | TimestepBlock forward => forall x emb, is_ok (forward x emb) = true
  | VanillaTemporalModule forward => forall x c, is_ok (forward x c) = true
  | SpatialTransformer forward => forall x c o, is_ok (fst (forward x c o)) = true
  | Upsample forward => forall x s, is_ok (forward x s) = true
  | OtherLayer forward => forall x, is_ok (forward x) = true
  end.
End forward_timestep_embed.

(** Three layers on integers: a timestep block adding the embedding, a
    spatial transformer doubling its input, another layer. *)
Module DemoLayers.
Definition block : list (@Layer Z Z unit unit unit) :=
  [TimestepBlock (fun x emb => Ok (x + emb));
   SpatialTransformer (fun x _ => ret (2 * x));
   OtherLayer (fun x => Ok (x - 1));
   SpatialTransformer (fun x _ => ret (2 * x))].
End DemoLayers.

(** The control object [k] previous-links away from [c], if the chain is
    that long. *)
Fixpoint nth_previous (s : ControlStore) (c : nat) (k : nat) : option nat :=
  match k with
  | O => Some c
  | S k' => match previous_controlnet (s c) with
            | Some p => nth_previous s p k'
            | None => None
            end
  end.

(** Control objects whose chain loops: each one has object 0 as previous. *)
Definition looped_controls : ControlStore :=
  fun _ => mkControlBase (Some 0%nat) (Some None) None None.

Section cond_cat_vocabulary.
Context {R : Type} `{Comfy R}.

(** Lines 325-330 of [cond_cat]: the dict [temp], from the values gathered
    so far. *)
Definition group_by_key (temp : dict (list CondObj)) (c_list : list Conditioning)
    : dict (list CondObj) :=
  fold_left (fun temp x_t =>
    fold_left (fun temp '(k, o) =>
      let cur := match dict_get temp k with Some l => l | None => [] end in
      dict_set temp k (cur ++ [o]))
      (conditioning_items x_t) temp)
    c_list temp.

(** The values the conditionings of a batch have under the key [k], in the
    order of the batch. *)
Fixpoint values_of (k : string) (c_list : list Conditioning) : list CondObj :=
  match c_list with
  | [] => []
  | x_t :: rest =>
      match dict_get (conditioning_items x_t) k with
      | Some o => o :: values_of k rest
      | None => values_of k rest
      end
  end.
End cond_cat_vocabulary.

(** Two entries that share a control object: the first one has object 0
    under "control", whose previous object is the stock object 9; the
    second one has object 9 itself under "control". *)
Module DemoShared.
Definition controls : ControlStore :=
  fun c => match c with
           | 0%nat => mkControlBase (Some 9%nat) (Some None) None None
           | _ => mkControlBase None None None None
           end.

Definition env : @Env nat unit := mkEnv DemoWindow.adgs controls tt.

Definition first_entry : @CondEntry Q _ _ := [("control"%string, VControl 0)].
Definition second_entry : @CondEntry Q _ _ := [("control"%string, VControl 9)].
End DemoShared.

(** Conditioning objects whose [can_concat] is directed: an object accepts
    another one that has at least as many rows (as a class that can pad its
    own tensor up to the other's, but not cut it down, would). *)
Definition Directed_Comfy : Comfy Q := {|
  CondObj := AnyTensor Q;
  Patch := nat;
  ControlOut := nat;
  cond_attr := fun o => Some o;
  copy_with := fun _ t => t;
  process_cond := fun o _ _ => Ok o;
  can_concat := fun a b =>
    match size0 a, size0 b with
    | Ok n, Ok m => n <=? m
    | _, _ => false
    end;
  concat_conds := fun o _ => Ok o;
  set_position := fun _ _ _ => Ok 0%nat;
  set_empty := fun _ _ => Ok 0%nat;
  get_control := fun _ _ _ _ _ => Ok 0%nat
|}.

(** Two requests on the same input, without control or patches, whose
    conditioning dicts are distinct objects with the one key "c_crossattn":
    a tensor of one row in the first, of two rows in the second. *)
Module DemoMerge.
Definition one_row : AnyTensor Q := mkAnyTensor 1 [inject_Z 1].
Definition two_rows : AnyTensor Q := mkAnyTensor 1 [inject_Z 1; inject_Z 2].

Definition short (C : Comfy Q) (wrap : AnyTensor Q -> @CondObj Q _ C)
    : @Prepared Q _ C :=
  mkPrepared Demo.x Demo.x
             (mkConditioning 0 [("c_crossattn"%string, wrap one_row)])
             (1, 1, 0, 0) None None.
Definition long (C : Comfy Q) (wrap : AnyTensor Q -> @CondObj Q _ C)
    : @Prepared Q _ C :=
  mkPrepared Demo.x Demo.x
             (mkConditioning 1 [("c_crossattn"%string, wrap two_rows)])
             (1, 1, 0, 0) None None.
End DemoMerge.

(* ===================================================================== *)
(** * Properties                                                          *)
(* ===================================================================== *)

(** ** The batch planner never completes a pass *)

Section planner_facts.
Context {R : Type} `{Comfy R}.

Lemma weighted_chunk_state (o : nat) (l l' : @Locals R) r :
  weighted_chunk o l = (r, l') -> l' = l.
Proof.
  unfold weighted_chunk, bind, get, lift_result, ret.
  intros E. break_match_hyp E; congruence.
Qed.

Lemma scatter_cond_input_x (area : list Area) (o : nat) (l l' : @Locals R) r :
  scatter_cond area o l = (r, l') -> input_x l' = input_x l.
Proof.
  unfold scatter_cond, bind.
  destruct (weighted_chunk o l) as [[[w m]|e] l1] eqn:W;
    apply weighted_chunk_state in W; subst l1.
  2: { intros [= _ <-]. reflexivity. }
  unfold get, lift_result, modify, set_out_cond, set_out_count.
  intros E. break_match_hyp E; injection E as _ <-; reflexivity.
Qed.

Lemma is_cond_state (cu : list Branch) (o : nat) (l l' : @Locals R) r :
  is_cond cu o l = (r, l') -> l' = l.
Proof.
  unfold is_cond, bind, lift_result, ret.
  intros E. break_match_hyp E; congruence.
Qed.

Lemma del_input_x_unbound (l : @Locals R) :
  input_x l = None -> del_input_x l = (Err UnboundLocalError, l).
Proof.
  intros E. unfold del_input_x, bind, get, lift_result. rewrite E. reflexivity.
Qed.

(** With [input_x] already deleted, the first iteration of the loop over
    the chunks raises. *)
Lemma scatter_loop_raises (mf : ModelFn) (ts : tensor R 1) (c : ModelKwargs)
    (cu : list Branch) (area : list Area) (n : nat) (l : @Locals R) :
  input_x l = None ->
  exists e l', scatter_loop mf ts c cu area (S n) l = (Err e, l').
Proof.
  intros Hx. unfold scatter_loop. cbn [seq for_each].
  unfold bind at 1. unfold bind at 1.
  destruct (is_cond cu 0 l) as [[b|e] l1] eqn:Ec;
    apply is_cond_state in Ec; subst l1; [|eauto].
  destruct b.
  - unfold bind at 1.
    destruct (scatter_cond area 0 l) as [[[]|e] l1] eqn:Es; [|eauto].
    apply scatter_cond_input_x in Es. rewrite Hx in Es.
    unfold bind at 1. rewrite (del_input_x_unbound l1 Es). eauto.
  - unfold bind at 1. unfold bind at 1. unfold get at 1.
    unfold bind at 1. unfold lift_result at 1. rewrite Hx. cbn. eauto.
Qed.

Lemma pop_batch_lengths (to_batch : list nat) (b b' : Batch) :
  pop_batch to_batch b = Ok b' ->
  length (b_input_x b) = length (b_cond_or_uncond b) ->
  length (b_input_x b') = length (b_cond_or_uncond b').
Proof.
  revert b. induction to_batch as [|x_t rest IH]; intros b; cbn.
  - intros [= <-]. auto.
  - destruct (py_pop (b_to_run b) x_t) as [[o to_run]|e]; cbn; [|discriminate].
    intros E Hl. apply IH in E; [exact E|].
    cbn. rewrite !length_app. cbn. lia.
Qed.

(** One pass through the body of the [while] never reaches its [return]. *)
Lemma batch_pass_raises (mf : ModelFn) (controls : ControlStore)
    (to_run : list (Prepared * Branch)) (first : Prepared * Branch)
    (timestep : tensor R 1) (max_total_area : Z) (mo : ModelOptions)
    (l : @Locals R) :
  exists e, batch_pass mf controls to_run first timestep max_total_area mo l = Err e.
Proof.
  unfold batch_pass.
  destruct (pop_batch _ _) as [b|e] eqn:Eb; cbn [rbind]; [|eauto].
  apply pop_batch_lengths in Eb; [|reflexivity].
  destruct (cat (b_input_x b)) as [ix|e] eqn:Ecat; cbn [rbind]; [|eauto].
  destruct (cond_cat (b_c b)) as [c|e]; cbn [rbind]; [|eauto].
  destruct (cat (replicate _ timestep)) as [ts|e]; cbn [rbind]; [|eauto].
  destruct (match b_control b with Some _ => _ | None => _ end) as [co|e];
    cbn [rbind]; [|eauto].
  match goal with
  | |- context [rbind ?m _] => destruct m as [out|e]; cbn [rbind]; [|eauto]
  end.
  destruct (chunk out _) as [chunks|e]; cbn [rbind]; [|eauto].
  destruct (b_cond_or_uncond b) as [|br brs] eqn:Ecu.
  { destruct (b_input_x b); [discriminate Ecat | discriminate Eb]. }
  cbn [length].
  unfold bind at 1. unfold del_input_x at 1.
  unfold bind at 1. unfold get at 1. unfold bind at 1.
  unfold lift_result at 1. cbn [input_x set_output set_mult set_input_x del_local].
  unfold modify at 1. unfold bind at 1.
  match goal with
  | |- context [scatter_loop ?a ?b ?c ?d ?e (S ?n) ?l] =>
      destruct (scatter_loop_raises a b c d e n l) as (e0 & l' & ->); [reflexivity|]
  end.
  eauto.
Qed.

(** Whatever the requests, [calc_cond_uncond_batch] raises or returns
    [None]. *)
Lemma calc_cond_uncond_batch_raises_or_none (mf : ModelFn)
    (controls : ControlStore) (cond uncond : option (list CondEntry))
    (x_in : tensor R 4) (timestep : tensor R 1) (max_total_area : Z)
    (mo : ModelOptions) :
  returns_buffers (calc_cond_uncond_batch mf controls cond uncond x_in timestep
                                          max_total_area mo) = false.
Proof.
  unfold calc_cond_uncond_batch.
  destruct cond as [cond|]; cbn [rbind]; [|reflexivity].
  destruct (collect COND 0 cond x_in timestep) as [to_run|e]; cbn [rbind];
    [|reflexivity].
  destruct (match uncond with Some _ => _ | None => _ end) as [to_run_u|e];
    cbn [rbind]; [|reflexivity].
  destruct (to_run ++ to_run_u) as [|first rest]; [reflexivity|].
  match goal with
  | |- context [batch_pass ?a ?b ?c ?d ?e ?f ?g ?h] =>
      destruct (batch_pass_raises a b c d e f g h) as [e0 ->]
  end.
  reflexivity.
Qed.
End planner_facts.

(** C1.  The batching loop of [calc_cond_uncond_batch] does not run until
    all requests are consumed and never reaches the division and return of
    the two accumulated buffers: whatever the requests, the call raises or
    returns [None]; on a single request, conditioned or unconditioned, it
    raises [UnboundLocalError] in the first iteration over the chunks, where
    [input_x] is used after its deletion. *)
Theorem calc_cond_uncond_batch_returns_no_buffers :
  (forall (R : Type) (HS : Scalar R) (HC : Comfy R) (mf : ModelFn)
          (controls : ControlStore) (cond uncond : option (list CondEntry))
          (x_in : tensor R 4) (timestep : tensor R 1) (max_total_area : Z)
          (mo : ModelOptions),
      returns_buffers (calc_cond_uncond_batch mf controls cond uncond x_in timestep
                                              max_total_area mo) = false)
  /\ calc_cond_uncond_batch Demo.model_function Demo.no_controls
        (Some [Demo.request]) None Demo.x Demo.timestep 1000 Demo.model_options
      = Err UnboundLocalError
  /\ calc_cond_uncond_batch Demo.model_function Demo.no_controls
        (Some []) (Some [Demo.request]) Demo.x Demo.timestep 1000 Demo.model_options
      = Err UnboundLocalError.
Proof.
  split; [|split].
  - intros. apply calc_cond_uncond_batch_raises_or_none.
  - vm_compute. reflexivity.
  - vm_compute. reflexivity.
Qed.

(** ** The sliding path and the replacement denoising step *)

Section sliding_facts.
Context {R : Type} `{Comfy R}.
Context {MotionModule MotionState : Type}.
Context (motion_set_sub_idxs : MotionModule -> option (list Z) -> M MotionState unit).
Context (get_context_scheduler : option string -> result ContextScheduler).

(** No pass over a context window completes: the batch planner it calls
    raises, or returns the [None] that cannot be unpacked. *)
Lemma window_pass_raises (depth : nat) (x : tensor R 4) (axes_factor : Z)
    (mf : ModelFn) (cond uncond : option (list CondEntry)) (timestep : tensor R 1)
    (max_total_area : Z) (mo : ModelOptions) (f : Final) (ctx_idxs : list Z)
    (e : @Env MotionModule MotionState) :
  exists err e',
    window_pass motion_set_sub_idxs depth x axes_factor mf cond uncond timestep
                max_total_area mo f ctx_idxs e = (Err err, e').
Proof.
  unfold window_pass.
  unfold bind at 1. unfold get at 1.
  unfold bind at 1.
  match goal with
  | |- context [match ?m e with _ => _ end] =>
      destruct (m e) as [[[]|err] e1]; [|eauto]
  end.
  unfold bind at 1. unfold lift_result at 1.
  destruct (gather x _) as [sub_x|err]; [|eauto].
  unfold bind at 1. unfold lift_result at 1.
  destruct (gather timestep _) as [sub_t|err]; [|eauto].
  unfold bind at 1.
  match goal with
  | |- context [match ?m e1 with _ => _ end] =>
      destruct (m e1) as [[sub_cond|err] e2]; [|eauto]
  end.
  unfold bind at 1.
  match goal with
  | |- context [match ?m e2 with _ => _ end] =>
      destruct (m e2) as [[sub_uncond|err] e3]; [|eauto]
  end.
  unfold bind at 1. unfold get at 1.
  unfold bind at 1. unfold lift_result at 1.
  pose proof (calc_cond_uncond_batch_raises_or_none mf (env_controls e3)
                sub_cond sub_uncond sub_x sub_t max_total_area mo) as Hc.
  destruct (calc_cond_uncond_batch _ _ _ _ _ _ _ _) as [[outs|]|err];
    [discriminate Hc| |eauto].
  unfold bind at 1. unfold raise. eauto.
Qed.

(** C3.  Under the coverage precondition (every frame index below the
    video length lies in some window, for a video of at least one frame) the
    sliding path does not reach the division of its buffers by the usage
    counts: it raises in its first window. *)
Theorem sliding_calc_cond_uncond_batch_raises_under_coverage (depth : nat)
    (x : tensor R 4) (mf : ModelFn) (cond uncond : option (list CondEntry))
    (x_in : tensor R 4) (timestep : tensor R 1) (max_total_area : Z)
    (mo : ModelOptions) (e : @Env MotionModule MotionState)
    (scheduler : ContextScheduler) (windows : list (list Z)) :
  let adgs := env_ADGS e in
  get_context_scheduler (GlobalState.context_schedule adgs) = Ok scheduler ->
  scheduler (GlobalState.current_step adgs) (GlobalState.total_steps adgs)
            (GlobalState.video_length adgs) (GlobalState.context_frames adgs)
            (GlobalState.context_stride adgs) (GlobalState.context_overlap adgs)
            (GlobalState.closed_loop adgs) = Ok windows ->
  0 < GlobalState.video_length adgs ->
  (forall i, 0 <= i < GlobalState.video_length adgs ->
             exists w, In w windows /\ In i w) ->
  exists err e',
    sliding_calc_cond_uncond_batch motion_set_sub_idxs get_context_scheduler depth x
      mf cond uncond x_in timestep max_total_area mo e = (Err err, e').
Proof.
  intros adgs Hs Hw Hlen Hcov.
  destruct windows as [|w ws].
  { destruct (Hcov 0) as (w & [] & _). lia. }
  unfold sliding_calc_cond_uncond_batch.
  unfold bind at 1. unfold get at 1. fold adgs.
  unfold bind at 1. unfold lift_result at 1. rewrite Hs.
  unfold bind at 1.
  destruct (Z.eqb_spec (GlobalState.video_length adgs) 0) as [E|_]; [lia|].
  unfold ret at 1.
  unfold bind at 1. unfold lift_result at 1. rewrite Hw.
  unfold bind at 1. cbn [windows_loop]. unfold bind at 1.
  match goal with
  | |- context [window_pass _ ?a ?b ?c ?d ?e0 ?f ?g ?h ?i ?j ?k ?l] =>
      destruct (window_pass_raises a b c d e0 f g h i j k l) as (err & e' & ->)
  end.
  eauto.
Qed.

(** C2.  Whatever its arguments, [sliding_sampling_function] returns
    [None]: no conditioned or unconditioned output is computed and nothing is
    combined, and the run state is left as it was. *)
Theorem sliding_sampling_function_returns_None (depth : nat) (mf : ModelFn)
    (x : tensor R 4) (timestep : tensor R 1)
    (uncond cond : option (list CondEntry)) (cond_scale : R)
    (mo : ModelOptions) (seed : option Z) (e : @Env MotionModule MotionState) :
  sliding_sampling_function motion_set_sub_idxs get_context_scheduler depth mf x
    timestep uncond cond cond_scale mo seed e = (Ok None, e).
Proof. reflexivity. Qed.
End sliding_facts.

Lemma sliding_calc_cond_uncond_batch_raises_under_coverage_witness :
  (forall i, 0 <= i < 1 -> exists w, In w [[0]] /\ In i w)
  /\ exists err e',
       sliding_calc_cond_uncond_batch Demo.motion_set_sub_idxs
         (fun _ => Ok Demo.one_window) 100 Demo.x Demo.model_function
         (Some [Demo.request]) None Demo.x Demo.timestep 1000 Demo.model_options
         (Demo.env (Some 1)) = (Err err, e').
Proof.
  assert (Hcov : forall i, 0 <= i < 1 -> exists w, In w [[0]] /\ In i w).
  { intros i Hi. exists [0]. split; [left; reflexivity|].
    left. lia. }
  split; [exact Hcov|].
  apply (sliding_calc_cond_uncond_batch_raises_under_coverage
           Demo.motion_set_sub_idxs (fun _ => Ok Demo.one_window) 100 Demo.x
           Demo.model_function (Some [Demo.request]) None Demo.x Demo.timestep
           1000 Demo.model_options (Demo.env (Some 1)) Demo.one_window [[0]]).
  - reflexivity.
  - reflexivity.
  - reflexivity.
  - exact Hcov.
Defined.

(** C4.  With no window length in the run state the denoising step is not
    the batch planner run once on the full batch: on a single conditioned
    request the step returns [None] where the planner raises
    [UnboundLocalError]. *)
Theorem no_window_step_is_not_the_batch_planner :
  GlobalState.is_using_sliding_context (env_ADGS (Demo.env None)) = false
  /\ fst (sliding_sampling_function Demo.motion_set_sub_idxs
            (fun _ => Ok Demo.one_window) 100 Demo.model_function Demo.x
            Demo.timestep None (Some [Demo.request]) (inject_Z 2)
            Demo.model_options None (Demo.env None)) = Ok None
  /\ calc_cond_uncond_batch Demo.model_function Demo.no_controls
        (Some [Demo.request]) None Demo.x Demo.timestep 1000 Demo.model_options
      = Err UnboundLocalError.
Proof.
  split; [reflexivity|]. split; [reflexivity|].
  vm_compute. reflexivity.
Qed.

(** ** The sampling wrapper *)

Section sample_facts.
Context {Model MotionModule Arg Out BetaCache HostState : Type}.
Context (C : @Collaborators Model MotionModule Arg Out BetaCache HostState).

(** C10.  For a model without injected motion-module parameters the wrapped
    sampler is the original sampler: same result and same world, so nothing
    is patched, loaded or reset by the wrapper. *)
Theorem animatediff_sample_without_params (orig_comfy_sample : SampleFn)
    (model : Model) (args : list Arg) (kwargs : Kwargs) (w : World) :
  is_injected_mm_params C model = false ->
  animatediff_sample C orig_comfy_sample model args kwargs w
  = orig_comfy_sample model args kwargs w.
Proof.
  intros Hno. unfold animatediff_sample. rewrite Hno. reflexivity.
Qed.

(** C8.  When the motion module fails to load, the [finally] block stops at
    [motion_module.reset_scale_multiplier()] on [None]: the caller gets
    [AttributeError] in place of the error raised by the loader, and the
    patched function references are not restored. *)
Theorem animatediff_sample_load_failure (orig_comfy_sample : SampleFn)
    (m : Model) (args : list Arg) (kwargs : Kwargs) (w : World)
    (params : InjectionParams.t) (latents : Arg) (m' : Model)
    (cache : BetaCache) (err : exn) (h1 h2 h3 h4 : HostState) :
  is_injected_mm_params C m = true ->
  get_injected_mm_params C m = Ok params ->
  last_arg args = Ok latents ->
  let params' := InjectionParams.set_video_length params (latents_size C latents) in
  inject_params_into_model C m params' (host w) = (Ok m', h1) ->
  BetaScheduleCache C m' h1 = (Ok cache, h2) ->
  load_motion_module C (InjectionParams.model_name params')
                     (InjectionParams.loras params') m' h2 = (Err err, h3) ->
  eject_motion_module C m' h3 = (Ok tt, h4) ->
  exists w',
    animatediff_sample C orig_comfy_sample m args kwargs w
    = (Err AttributeError, w')
    /\ forward_timestep_embed_attr w' = Fn_forward_timestep_embed
    /\ GroupNorm_forward_attr w' = groupnorm_mm_factory params'
    /\ sampling_function_attr w' = Fn_sliding_sampling_function
    /\ host w' = h4.
Proof.
  intros Hinj Hp Hl params' Hi Hb Hload Hej.
  unfold animatediff_sample. rewrite Hinj. cbn [negb].
  unfold try_finally, sample_try_body.
  unfold bind at 1. unfold get at 1. cbn [model].
  unfold bind at 1. unfold lift_result at 1. rewrite Hp.
  unfold bind at 1. unfold lift_result at 1. rewrite Hl.
  fold params'.
  unfold bind at 1. unfold on_host at 1. cbn [world host]. rewrite Hi.
  unfold bind at 1. unfold modify at 1.
  unfold bind at 1. unfold modify_ADGS at 1, modify_world at 1, modify at 1.
  unfold bind at 1. unfold get at 1.
  unfold bind at 1. unfold modify at 1.
  unfold bind at 1. unfold on_host at 1. cbn. rewrite Hb. cbn.
  cbn in Hload.
  destruct (InjectionParams.unlimited_area_hack params);
    destruct (InjectionParams.apply_mm_groupnorm_hack params); cbn;
    unfold bind at 1; unfold on_host at 1; cbn; rewrite Hload; cbn;
    unfold bind at 1; unfold on_host at 1; cbn; rewrite Hej; cbn;
    eexists; repeat split.
Qed.
End sample_facts.

Lemma animatediff_sample_without_params_witness :
  is_injected_mm_params (DemoHost.collaborators true) 0%nat = false
  /\ animatediff_sample (DemoHost.collaborators true) DemoHost.working_sample
        0%nat [16%nat] DemoHost.kwargs DemoHost.world
      = DemoHost.working_sample 0%nat [16%nat] DemoHost.kwargs DemoHost.world.
Proof.
  split; [reflexivity|].
  apply animatediff_sample_without_params. reflexivity.
Defined.

Lemma animatediff_sample_load_failure_witness :
  load_motion_module (DemoHost.collaborators false) "mm_sd_v15" 0 1%nat
                     ["inject_params_into_model"%string]
  = (Err (HostError 404), ["inject_params_into_model"%string])
  /\ exists w',
       animatediff_sample (DemoHost.collaborators false) DemoHost.working_sample
         1%nat [16%nat] DemoHost.kwargs DemoHost.world = (Err AttributeError, w')
       /\ forward_timestep_embed_attr w' = Fn_forward_timestep_embed
       /\ GroupNorm_forward_attr w'
          = groupnorm_mm_factory (InjectionParams.set_video_length DemoHost.params 16)
       /\ sampling_function_attr w' = Fn_sliding_sampling_function
       /\ host w' = ["inject_params_into_model"%string; "eject_motion_module"%string].
Proof.
  split; [reflexivity|].
  apply (animatediff_sample_load_failure (DemoHost.collaborators false)
           DemoHost.working_sample 1%nat [16%nat] DemoHost.kwargs DemoHost.world
           DemoHost.params 16%nat 1%nat 0%nat (HostError 404)
           ["inject_params_into_model"%string] ["inject_params_into_model"%string]
           ["inject_params_into_model"%string]
           ["inject_params_into_model"%string; "eject_motion_module"%string]);
    reflexivity.
Defined.

(** An error raised by the host sampler itself, once the motion module is
    loaded, does reach the caller after a complete teardown. *)
Example animatediff_sample_sampler_failure :
  animatediff_sample (DemoHost.collaborators true) DemoHost.failing_sample
    1%nat [16%nat] DemoHost.kwargs DemoHost.world
  = (Err (HostError 500),
     mkWorld (HostFn 1) (HostFn 2) (HostFn 3) (HostFn 4) (HostFn 5)
             GlobalState.init
             ["inject_params_into_model"; "load_motion_module";
              "inject_motion_module"; "register_schedule";
              "set_scale_multiplier"; "eject_motion_module";
              "reset_scale_multiplier"; "set_sub_idxs";
              "use_cached_beta_schedule_and_clean"]%string).
Proof. reflexivity. Qed.

(** ** Mergeability *)

Section mergeability.
Context {R : Type} `{Comfy R}.

Lemma dict_has_In {V : Type} (d : dict V) (k : string) :
  dict_has d k = true <-> In k (dict_keys d).
Proof.
  unfold dict_has, dict_keys.
  induction d as [|[k' v] d IH]; cbn.
  - split; [discriminate | tauto].
  - destruct (String.eqb_spec k' k) as [->|Hne].
    + split; auto.
    + rewrite IH. split; [auto | intros [E|E]; [contradiction | exact E]].
Qed.

Lemma keys_eqb_sym {V W : Type} (d1 : dict V) (d2 : dict W) :
  keys_eqb d1 d2 = keys_eqb d2 d1.
Proof. unfold keys_eqb. apply andb_comm. Qed.

Lemma forallb_same_keys (P : string -> bool) (l1 l2 : list string) :
  (forall k, In k l1 <-> In k l2) -> forallb P l1 = forallb P l2.
Proof.
  intros Hk. apply eq_true_iff_eq. rewrite !forallb_forall.
  split; intros Hall k Hin; apply Hall, Hk, Hin.
Qed.

Lemma shape_eqb_sym (s1 s2 : Z * Z * Z * Z) : shape_eqb s1 s2 = shape_eqb s2 s1.
Proof.
  destruct s1 as [[[a0 a1] a2] a3], s2 as [[[b0 b1] b2] b3]. cbn.
  rewrite (Z.eqb_sym a0), (Z.eqb_sym a1), (Z.eqb_sym a2), (Z.eqb_sym a3).
  reflexivity.
Qed.

Lemma shape_eqb_refl (s : Z * Z * Z * Z) : shape_eqb s s = true.
Proof.
  destruct s as [[[a0 a1] a2] a3]. cbn. rewrite !Z.eqb_refl. reflexivity.
Qed.

Lemma cond_equal_size_refl (c : Conditioning) : cond_equal_size c c = true.
Proof. unfold cond_equal_size. rewrite Nat.eqb_refl. reflexivity. Qed.

Lemma cond_equal_size_sym (c1 c2 : Conditioning) :
  (forall a b : CondObj, can_concat a b = can_concat b a) ->
  cond_equal_size c1 c2 = cond_equal_size c2 c1.
Proof.
  intros Hsym. unfold cond_equal_size.
  rewrite (Nat.eqb_sym (conditioning_id c2)).
  destruct (conditioning_id c1 =? conditioning_id c2)%nat; [reflexivity|].
  rewrite (keys_eqb_sym (conditioning_items c2)).
  destruct (keys_eqb (conditioning_items c1) (conditioning_items c2)) eqn:Ek;
    [|reflexivity].
  cbn [negb].
  unfold keys_eqb in Ek. apply andb_prop in Ek as [E12 E21].
  rewrite forallb_forall in E12, E21.
  rewrite (forallb_same_keys _ (dict_keys (conditioning_items c1))
                               (dict_keys (conditioning_items c2))).
  - apply eq_true_iff_eq. rewrite !forallb_forall.
    split; intros Hall k Hin; specialize (Hall k Hin);
      destruct (dict_get (conditioning_items c1) k),
               (dict_get (conditioning_items c2) k);
      try discriminate; rewrite Hsym; exact Hall.
  - intros k. split; intros Hin.
    + apply dict_has_In, E12, Hin.
    + apply dict_has_In, E21, Hin.
Qed.

Lemma none_mismatch_sym {A B : Type} (a : option A) (b : option B) :
  none_mismatch a b = none_mismatch b a.
Proof. destruct a, b; reflexivity. Qed.

Lemma is_not_sym (a b : option nat) : is_not a b = is_not b a.
Proof. destruct a, b; cbn; try reflexivity. rewrite Nat.eqb_sym. reflexivity. Qed.

Lemma is_not_refl (a : option nat) : is_not a a = false.
Proof. destruct a; cbn; [rewrite Nat.eqb_refl|]; reflexivity. Qed.

Lemma can_concat_cond_refl (c : Prepared) : can_concat_cond c c = true.
Proof.
  unfold can_concat_cond.
  rewrite shape_eqb_refl, !is_not_refl, cond_equal_size_refl.
  destruct (p_control c), (p_patches c); reflexivity.
Qed.

Lemma can_concat_cond_sym (c1 c2 : Prepared) :
  (forall a b : CondObj, can_concat a b = can_concat b a) ->
  can_concat_cond c1 c2 = can_concat_cond c2 c1.
Proof.
  intros Hsym. unfold can_concat_cond.
  rewrite (shape_eqb_sym (shape4 (p_input_x c2))).
  rewrite (none_mismatch_sym (p_control c2)), (none_mismatch_sym (p_patches c2)).
  rewrite (is_not_sym (p_control c2)), (is_not_sym (patches_id <$> p_patches c2)).
  rewrite (cond_equal_size_sym (p_conditionning c2) (p_conditionning c1) Hsym).
  destruct (shape_eqb _ _); [|reflexivity]. cbn [negb].
  destruct (p_control c1), (p_control c2); cbn [none_mismatch]; try reflexivity;
    destruct (p_patches c1), (p_patches c2); cbn [none_mismatch]; reflexivity.
Qed.

(** The requests that compare two given conditioning objects and nothing
    else: same (empty) input, no control, no patches, two distinct
    conditioning dicts with the one key "k". *)
Lemma can_concat_cond_single_key (a b : CondObj) :
  can_concat_cond
    (mkPrepared [] [] (mkConditioning 0 [("k"%string, a)]) (0, 0, 0, 0) None None)
    (mkPrepared [] [] (mkConditioning 1 [("k"%string, b)]) (0, 0, 0, 0) None None)
  = can_concat a b.
Proof. cbn. apply andb_true_r. Qed.

(** C9, amended.  The merge-compatibility predicate is reflexive: every
    request is mergeable with itself.  It is symmetric for all pairs of
    requests exactly when the [can_concat] method of the conditioning
    objects, which [cond_equal_size] calls in one direction only, is
    itself symmetric. *)
Theorem can_concat_cond_reflexive_symmetric_iff :
  (forall c : Prepared, can_concat_cond c c = true)
  /\ ((forall a b : CondObj, can_concat a b = can_concat b a)
      <-> (forall c1 c2 : Prepared, can_concat_cond c1 c2 = can_concat_cond c2 c1)).
Proof.
  split; [apply can_concat_cond_refl|]. split.
  - intros Hsym c1 c2. apply can_concat_cond_sym, Hsym.
  - intros Hsym a b.
    rewrite <- (can_concat_cond_single_key a b).
    rewrite Hsym. cbn. apply andb_true_r.
Qed.
End mergeability.

(** ** Batch selection *)

Section selection.
Context {R : Type} `{Comfy R}.

Lemma select_loop_seq (temp : list nat) (shape : Z * Z * Z * Z) (budget : Z)
    (to_batch : list nat) (m a : nat) :
  (1 <= a)%nat ->
  let n := length temp in
  (exists i, (a <= i < a + m)%nat
             /\ select_loop (seq a m) temp shape budget to_batch = take (n / i) temp
             /\ fits (n / i) shape budget
             /\ forall j, (a <= j < i)%nat -> ~ fits (n / j) shape budget)
  \/ ((forall j, (a <= j < a + m)%nat -> ~ fits (n / j) shape budget)
      /\ select_loop (seq a m) temp shape budget to_batch = to_batch).
Proof.
  intros Ha n. subst n. revert a Ha.
  induction m as [|m IH]; intros a Ha.
  - right. split; [intros j Hj; lia | reflexivity].
  - cbn [seq select_loop].
    assert (Hlen : length (take (length temp / a) temp) = (length temp / a)%nat).
    { rewrite length_take. apply Nat.min_l.
      apply Nat.Div0.div_le_upper_bound. nia. }
    destruct shape as [[[s0 s1] s2] s3]. rewrite Hlen.
    destruct (Z.ltb_spec (Z.of_nat (length temp / a) * s0 * s2 * s3) budget) as [Hfit|Hno].
    + left. exists a. repeat split; [lia | lia | exact Hfit | intros j Hj; lia].
    + destruct (IH (S a)) as [(i & Hi & Hsel & Hfit & Hmin)|[Hnone Hsel]]; [lia| |].
      * left. exists i. repeat split; [lia | lia | exact Hsel | exact Hfit |].
        intros j Hj. destruct (Nat.eq_dec j a) as [->|Hne].
        -- cbn. lia.
        -- apply Hmin. lia.
      * right. split; [|exact Hsel].
        intros j Hj. destruct (Nat.eq_dec j a) as [->|Hne].
        -- cbn. lia.
        -- apply Hnone. lia.
Qed.

Lemma mergeable_with_first_nonempty (first : Prepared * Branch)
    (rest : list (Prepared * Branch)) :
  mergeable_with_first (first :: rest) first <> [].
Proof.
  unfold mergeable_with_first. intros E.
  assert (Hin : In 0%nat (List.filter (fun x_t =>
                   match (first :: rest) !! x_t with
                   | Some o => can_concat_cond (fst o) (fst first)
                   | None => false
                   end) (seq 0 (length (first :: rest))))).
  { apply filter_In. split; [cbn; left; reflexivity|].
    cbn. apply can_concat_cond_refl. }
  apply (f_equal length) in E. rewrite length_reverse in E.
  destruct (List.filter _ _); [destruct Hin | discriminate E].
Qed.

(** C7, amended.  In the group of the requests mergeable with the first one,
    which is never empty, the planner takes the first of the prefixes of
    [len // 1], [len // 2], ..., [len // len] requests whose total area is
    strictly under the budget, and a single request when no prefix is: the
    batch is never empty. *)
Theorem select_batch_first_fitting_quotient (first : Prepared * Branch)
    (rest : list (Prepared * Branch)) (max_total_area : Z) :
  let to_run := first :: rest in
  let first_shape := shape4 (p_input_x (fst first)) in
  let to_batch_temp := mergeable_with_first to_run first in
  let n := length to_batch_temp in
  let to_batch := select_batch to_batch_temp first_shape max_total_area in
  (1 <= n)%nat
  /\ to_batch <> []
  /\ ((exists i, (1 <= i <= n)%nat
                 /\ to_batch = take (n / i) to_batch_temp
                 /\ fits (n / i) first_shape max_total_area
                 /\ forall j, (1 <= j < i)%nat ->
                              ~ fits (n / j) first_shape max_total_area)
      \/ ((forall j, (1 <= j <= n)%nat -> ~ fits (n / j) first_shape max_total_area)
          /\ to_batch = take 1 to_batch_temp)).
Proof.
  intros to_run first_shape to_batch_temp n to_batch.
  pose proof (mergeable_with_first_nonempty first rest) as Hne.
  fold to_run to_batch_temp in Hne.
  assert (Hn : (1 <= n)%nat).
  { subst n. destruct to_batch_temp; [contradiction | cbn; lia]. }
  split; [exact Hn|].
  destruct (select_loop_seq to_batch_temp first_shape max_total_area
              (take 1 to_batch_temp) n 1) as [(i & Hi & Hsel & Hfit & Hmin)|[Hnone Hsel]];
    [lia | |].
  - split.
    + unfold to_batch, select_batch. fold n. rewrite Hsel.
      assert (1 <= n / i)%nat by (apply Nat.div_le_lower_bound; lia).
      intros E. apply (f_equal length) in E. rewrite length_take in E.
      fold n in E. cbn [length] in E. lia.
    + left. exists i. repeat split; [lia | lia | exact Hsel | exact Hfit | exact Hmin].
  - split.
    + unfold to_batch, select_batch. fold n. rewrite Hsel.
      destruct to_batch_temp; [contradiction | intros E; cbn in E; discriminate E].
    + right. split; [|exact Hsel]. intros j Hj. apply Hnone. lia.
Qed.
End selection.

(** C7 as stated fails: of eleven mergeable requests of area 1 under a
    budget of 4 the planner batches three (11 // 3), which is no power of
    two and not what halving eleven reaches; the largest power of two under
    the budget, and the size halving stops at, is 2. *)
Lemma select_batch_not_power_of_two :
  mergeable_with_first (Demo.to_run 11) (Demo.prepared 0, COND)
  = [10; 9; 8; 7; 6; 5; 4; 3; 2; 1; 0]%nat
  /\ select_batch (mergeable_with_first (Demo.to_run 11) (Demo.prepared 0, COND))
                  (shape4 Demo.x) 4 = [10; 9; 8]%nat
  /\ spec_pow2_size 11 (shape4 Demo.x) 4 = 2%nat
  /\ spec_halving_size 11 11 (shape4 Demo.x) 4 = 2%nat.
Proof. vm_compute. repeat split. Qed.

(** C9 as stated fails: with conditioning objects whose [can_concat] is
    directed, the request with the shorter tensor is mergeable with the one
    with the longer tensor, and not the other way round. *)
Lemma can_concat_cond_not_symmetric :
  @can_concat_cond Q Q_Scalar Directed_Comfy
    (DemoMerge.short Directed_Comfy id) (DemoMerge.long Directed_Comfy id) = true
  /\ @can_concat_cond Q Q_Scalar Directed_Comfy
       (DemoMerge.long Directed_Comfy id) (DemoMerge.short Directed_Comfy id) = false.
Proof. split; reflexivity. Qed.

Lemma can_concat_cond_reflexive_symmetric_iff_witness :
  (forall a b : AnyTensor Q, can_concat (Comfy := Q_Comfy) a b = can_concat b a)
  /\ can_concat_cond (DemoMerge.short Q_Comfy id) (DemoMerge.short Q_Comfy id) = true
  /\ can_concat_cond (DemoMerge.short Q_Comfy id) (DemoMerge.long Q_Comfy id)
     = can_concat_cond (DemoMerge.long Q_Comfy id) (DemoMerge.short Q_Comfy id).
Proof.
  assert (Hsym : forall a b : AnyTensor Q,
             can_concat (Comfy := Q_Comfy) a b = can_concat b a).
  { intros a b. cbn. destruct (size0 a), (size0 b); try reflexivity.
    apply Z.eqb_sym. }
  split; [exact Hsym|].
  destruct (@can_concat_cond_reflexive_symmetric_iff Q Q_Scalar Q_Comfy)
    as [Hrefl [Hs _]].
  split; [apply Hrefl | apply (Hs Hsym)].
Defined.

(** ** Projection of conditioning entries *)

Lemma py_index_in_range {A : Type} (l : list A) (i : Z) :
  0 <= i < Z.of_nat (length l) ->
  exists a, py_index l i = Ok a /\ l !! Z.to_nat i = Some a.
Proof.
  intros Hi. unfold py_index.
  destruct (Z.ltb_spec i 0) as [?|_]; [lia|].
  destruct (Z.leb_spec 0 i) as [_|?]; [|lia].
  destruct (Z.ltb_spec i (Z.of_nat (length l))) as [_|?]; [|lia].
  cbn [andb].
  destruct (l !! Z.to_nat i) as [a|] eqn:E.
  - exists a. split; reflexivity.
  - apply lookup_ge_None in E. lia.
Qed.

Lemma gather_in_range {A : Type} (l : list A) (idxs : list Z) :
  Forall (fun i => 0 <= i < Z.of_nat (length l)) idxs ->
  exists rows', gather l idxs = Ok rows' /\ gathered l idxs rows'.
Proof.
  unfold gather, gathered.
  induction 1 as [|i idxs Hi _ (rows' & Eg & Hlen & Hrows)]; cbn.
  - exists []. repeat split. intros j i E. destruct j; discriminate E.
  - destruct (py_index_in_range l i Hi) as (a & -> & Ha). cbn. rewrite Eg. cbn.
    exists (a :: rows'). repeat split; [cbn; lia|].
    intros [|j] i' E; cbn in *.
    + injection E as <-. symmetry. exact Ha.
    + apply Hrows, E.
Qed.

Lemma store_step_refl (idxs : list Z) (vl : Z) (cf : option Z) (s : ControlStore) :
  store_step idxs vl cf s s.
Proof. intros c. split; [reflexivity | left; reflexivity]. Qed.

Lemma store_step_trans (idxs : list Z) (vl : Z) (cf : option Z)
    (s1 s2 s3 : ControlStore) :
  store_step idxs vl cf s1 s2 -> store_step idxs vl cf s2 s3 ->
  store_step idxs vl cf s1 s3.
Proof.
  intros H12 H23 c. destruct (H12 c) as [P12 S12], (H23 c) as [P23 S23].
  split; [congruence|].
  destruct S23 as [E|S]; [|right; exact S].
  rewrite E. exact S12.
Qed.

Lemma store_step_sub_idxs (idxs : list Z) (vl : Z) (cf : option Z)
    (s s' : ControlStore) (c : nat) :
  store_step idxs vl cf s s' -> sub_idxs (s c) <> None -> sub_idxs (s' c) <> None.
Proof.
  intros Hs Hc. destruct (Hs c) as [_ [E|(E & _)]]; congruence.
Qed.

Lemma store_step_scoped (idxs : list Z) (vl : Z) (cf : option Z)
    (s s' : ControlStore) (c : nat) :
  store_step idxs vl cf s s' -> window_scoped (s c) idxs vl cf ->
  window_scoped (s' c) idxs vl cf.
Proof.
  intros Hs Hc. destruct (Hs c) as [_ [E|S]]; [rewrite E|]; assumption.
Qed.

Lemma chain_store_step (idxs : list Z) (vl : Z) (cf : option Z)
    (s s' : ControlStore) (c : nat) (links : list nat) :
  store_step idxs vl cf s s' -> chain s c links -> chain s' c links.
Proof.
  intros Hs. induction 1 as [c Hc|c p links Hc _ IH].
  - apply chain_last. destruct (Hs c) as [-> _]. exact Hc.
  - apply chain_link with p; [|exact IH]. destruct (Hs c) as [-> _]. exact Hc.
Qed.

Section projection_facts.
Context {R : Type} `{Comfy R}.
Context {MotionModule MotionState : Type}.

Lemma env_step_refl (idxs : list Z) (e : @Env MotionModule MotionState) : env_step idxs e e.
Proof. split; [reflexivity|]. split; [reflexivity|]. apply store_step_refl. Qed.

Lemma env_step_trans (idxs : list Z) (e1 e2 e3 : @Env MotionModule MotionState) :
  env_step idxs e1 e2 -> env_step idxs e2 e3 -> env_step idxs e1 e3.
Proof.
  intros (A12 & M12 & S12) (A23 & M23 & S23).
  split; [congruence|]. split; [congruence|].
  rewrite A12 in S23. eapply store_step_trans; eassumption.
Qed.

(** Enough recursion depth for the chain: every link gets the window scope. *)
Lemma prepare_control_objects_chain (idxs : list Z) (links : list nat) :
  forall (c depth : nat) (e : @Env MotionModule MotionState),
    chain (env_controls e) c links ->
    (length links <= depth)%nat ->
    exists e',
      prepare_control_objects depth c idxs e = (Ok tt, e')
      /\ env_step idxs e e'
      /\ Forall (fun l => window_scoped (env_controls e' l) idxs
                            (GlobalState.video_length (env_ADGS e))
                            (GlobalState.context_frames (env_ADGS e))) links.
Proof.
  induction links as [|l links IH]; intros c depth e Hchain Hdepth.
  { inversion Hchain. }
  destruct depth as [|depth]; [cbn in Hdepth; lia|].
  cbn [prepare_control_objects].
  unfold bind at 1. unfold get at 1.
  inversion Hchain as [c0 Hprev|c0 p links0 Hprev Hrest]; subst.
  - rewrite Hprev. unfold bind at 1, ret at 1, modify.
    eexists. split; [reflexivity|]. split.
    + split; [reflexivity|]. split; [reflexivity|]. cbn.
      intros c'. unfold store_set. destruct (c' =? l)%nat eqn:E.
      * apply Nat.eqb_eq in E. subst c'. cbn. split; [reflexivity|].
        right. split; [reflexivity|]. split; reflexivity.
      * split; [reflexivity | left; reflexivity].
    + constructor; [|constructor]. cbn. unfold store_set.
      rewrite Nat.eqb_refl. split; [reflexivity|]. split; reflexivity.
  - rewrite Hprev. unfold bind at 1.
    destruct (IH p depth e Hrest) as (e1 & -> & (A1 & M1 & S1) & Hall);
      [cbn in Hdepth; lia|].
    unfold modify.
    eexists. split; [reflexivity|]. split.
    + split; [exact A1|]. split; [exact M1|]. cbn.
      intros c'. unfold store_set. destruct (c' =? l)%nat eqn:E.
      * apply Nat.eqb_eq in E. subst c'. cbn. split; [apply S1|].
        right. rewrite A1. split; [reflexivity|]. split; reflexivity.
      * apply S1.
    + cbn. constructor.
      * unfold store_set. rewrite Nat.eqb_refl. rewrite A1.
        split; [reflexivity|]. split; reflexivity.
      * eapply Forall_impl; [exact Hall|]. cbn. intros l' Hl'.
        unfold store_set. destruct (l' =? l)%nat; [|exact Hl'].
        rewrite A1. split; [reflexivity|]. split; reflexivity.
Qed.
End projection_facts.

Lemma chain_functional (s : ControlStore) (c : nat) (l1 l2 : list nat) :
  chain s c l1 -> chain s c l2 -> l1 = l2.
Proof.
  intros H1. revert l2.
  induction H1 as [c Hc|c p links Hc _ IH]; intros l2 H2;
    inversion H2 as [c0 Hc0|c0 p0 links0 Hc0 Hrest]; subst; try congruence.
  f_equal. apply IH. congruence.
Qed.

Section projection_items.
Context {R : Type} `{Comfy R}.
Context {MotionModule MotionState : Type}.

Lemma index_select_in_range (n : nat) (rows : list (tensor R n)) (idxs : list Z) :
  Forall (fun i => 0 <= i < Z.of_nat (length rows)) idxs ->
  exists rows', index_select (mkAnyTensor (S n) rows) idxs
                = Ok (mkAnyTensor (S n) rows')
                /\ gathered rows idxs rows'.
Proof.
  intros Hr. destruct (gather_in_range rows idxs Hr) as (rows' & Eg & Hg).
  exists rows'. split; [|exact Hg]. cbn. rewrite Eg. reflexivity.
Qed.

Lemma resize_tensor_ok (x_size : Z) (idxs : list Z) (t : AnyTensor R) :
  Forall (fun i => 0 <= i < x_size) idxs ->
  rank t <> 0%nat ->
  exists n, size0 t = Ok n
            /\ (n = x_size -> exists t', index_select t idxs = Ok t').
Proof.
  intros Hr Hrank. destruct t as [[|n] rows]; [contradiction Hrank; reflexivity|].
  eexists. split; [reflexivity|]. intros E.
  destruct (index_select_in_range n rows idxs) as (rows' & -> & _); [|eauto].
  rewrite E. exact Hr.
Qed.

Lemma resize_dict_ok (x_size : Z) (idxs : list Z) (d : dict DictValue) :
  Forall (fun i => 0 <= i < x_size) idxs ->
  Forall (fun kv => nested_projectable (snd kv)) d ->
  exists d', resize_dict x_size idxs d = Ok d'.
Proof.
  intros Hr Hd. unfold resize_dict. cbv zeta.
  generalize d at 2 as acc. revert Hd.
  induction d as [|[k dv] d IH]; intros Hd acc; cbn [fold_left].
  - eauto.
  - inversion Hd as [|? ? Hdv Hrest]; subst. cbn [snd] in Hdv.
    cbn [rbind].
    destruct dv as [t|o|o]; cbn in Hdv |- *.
    + destruct (resize_tensor_ok x_size idxs t Hr Hdv) as (n & -> & Hsel). cbn.
      destruct (Z.eqb_spec n x_size) as [E|_]; [|apply IH, Hrest].
      destruct (Hsel E) as (t' & ->). cbn. apply IH, Hrest.
    + destruct (cond_attr o) as [t|]; [|apply IH, Hrest].
      destruct (resize_tensor_ok x_size idxs t Hr Hdv) as (n & -> & Hsel). cbn.
      destruct (Z.eqb_spec n x_size) as [E|_]; [|apply IH, Hrest].
      destruct (Hsel E) as (t' & ->). cbn. apply IH, Hrest.
    + apply IH, Hrest.
Qed.

(** Apart from a control object under the key "control", the new value of a
    key is computed without touching the environment. *)
Lemma resize_item_pure (depth : nat) (x_size : Z) (idxs : list Z) (key : string)
    (v : CondValue) (e : @Env MotionModule MotionState) :
  key <> "control"%string \/ (exists t, v = VTensor t) ->
  resize_item depth x_size idxs key v e = (resize_value x_size idxs key v, e).
Proof.
  intros Hk. unfold resize_item, resize_value.
  destruct v as [t|c|d|r|a|g|o].
  - unfold bind, lift_result, ret. destruct (size0 t) as [n|err]; cbn; [|reflexivity].
    destruct (n =? x_size); [|reflexivity].
    destruct (index_select t idxs); reflexivity.
  - destruct Hk as [Hk|[t Ht]]; [|discriminate Ht].
    apply String.eqb_neq in Hk. rewrite Hk. reflexivity.
  - destruct Hk as [Hk|[t Ht]]; [|discriminate Ht].
    apply String.eqb_neq in Hk. rewrite Hk.
    unfold bind, lift_result, ret. destruct (resize_dict x_size idxs d); reflexivity.
  - destruct Hk as [Hk|[t Ht]]; [|discriminate Ht].
    apply String.eqb_neq in Hk. rewrite Hk. reflexivity.
  - destruct Hk as [Hk|[t Ht]]; [|discriminate Ht].
    apply String.eqb_neq in Hk. rewrite Hk. reflexivity.
  - destruct Hk as [Hk|[t Ht]]; [|discriminate Ht].
    apply String.eqb_neq in Hk. rewrite Hk. reflexivity.
  - destruct Hk as [Hk|[t Ht]]; [|discriminate Ht].
    apply String.eqb_neq in Hk. rewrite Hk. reflexivity.
Qed.

Lemma item_projectable_step (idxs : list Z) (vl : Z) (cf : option Z)
    (s s' : ControlStore) (depth : nat) (key : string) (v : CondValue) :
  store_step idxs vl cf s s' ->
  item_projectable s depth key v -> item_projectable s' depth key v.
Proof.
  intros Hs. destruct v; cbn; auto.
  intros Hc Hk. destruct (Hc Hk) as (Hsub & links & Hchain & Hlen).
  split; [eapply store_step_sub_idxs; eassumption|].
  exists links. split; [eapply chain_store_step; eassumption | exact Hlen].
Qed.

(** A projectable value gets its new value; a control object under the key
    "control" is handed back as it is, every link of its chain scoped to the
    window. *)
Lemma resize_item_projectable (depth : nat) (x_size : Z) (idxs : list Z)
    (key : string) (v : CondValue) (e : @Env MotionModule MotionState) :
  Forall (fun i => 0 <= i < x_size) idxs ->
  item_projectable (env_controls e) depth key v ->
  exists v' e',
    resize_item depth x_size idxs key v e = (Ok v', e')
    /\ resize_value x_size idxs key v = Ok v'
    /\ env_step idxs e e'
    /\ forall c links,
         v = VControl c -> key = "control"%string ->
         chain (env_controls e) c links ->
         Forall (fun l => window_scoped (env_controls e' l) idxs
                            (GlobalState.video_length (env_ADGS e))
                            (GlobalState.context_frames (env_ADGS e))) links.
Proof.
  intros Hr Hv.
  destruct (String.eqb_spec key "control") as [Hk|Hk].
  - destruct v as [t|c|d|r|a|g|o]; cbn in Hv; try tauto.
    + rewrite resize_item_pure by (right; eauto).
      destruct (resize_tensor_ok x_size idxs t Hr Hv) as (n & Es & Hsel).
      cbn. rewrite Es. cbn.
      destruct (Z.eqb_spec n x_size) as [E|_].
      * destruct (Hsel E) as (t' & ->). cbn.
        eexists _, e. repeat split; try apply store_step_refl. discriminate.
      * eexists _, e. repeat split; try apply store_step_refl. discriminate.
    + destruct (Hv Hk) as (Hsub & links & Hchain & Hlen).
      unfold resize_item. rewrite Hk.
      change (String.eqb "control" "control") with true. cbv iota.
      unfold bind at 1. unfold get at 1. unfold bind at 1.
      cbn [has_sub_idxs].
      destruct (sub_idxs (env_controls e c)) eqn:Es; [|contradiction Hsub; reflexivity].
      destruct (prepare_control_objects_chain idxs links c depth e Hchain Hlen)
        as (e' & -> & Hstep & Hall).
      unfold ret.
      exists (VControl c), e'. split; [reflexivity|]. split; [reflexivity|].
      split; [exact Hstep|].
      intros c0 links0 [= <-] _ Hchain0.
      rewrite (chain_functional _ _ _ _ Hchain0 Hchain). exact Hall.
  - rewrite resize_item_pure by (left; exact Hk).
    assert (Hok : exists v', resize_value x_size idxs key v = Ok v').
    { destruct v as [t|c|d|r|a|g|o]; cbn in Hv |- *; eauto.
      - destruct (resize_tensor_ok x_size idxs t Hr Hv) as (n & -> & Hsel). cbn.
        destruct (Z.eqb_spec n x_size) as [E|_]; [|eauto].
        destruct (Hsel E) as (t' & ->). cbn. eauto.
      - apply String.eqb_neq in Hk. rewrite Hk.
        destruct Hv as [_ Hd].
        destruct (resize_dict_ok x_size idxs d Hr Hd) as (d' & ->). cbn. eauto. }
    destruct Hok as (v' & Ev). rewrite Ev.
    exists v', e. split; [reflexivity|]. split; [reflexivity|].
    split; [apply env_step_refl|]. intros c links _ Hk'. contradiction.
Qed.
End projection_items.

Section dict_facts.
Context {V : Type}.

Lemma dict_get_set_eq (d : dict V) (k : string) (v : V) :
  dict_get (dict_set d k v) k = Some v.
Proof.
  induction d as [|[k' v'] d IH]; cbn.
  - rewrite String.eqb_refl. reflexivity.
  - destruct (String.eqb k' k) eqn:E; cbn; rewrite E; [reflexivity | exact IH].
Qed.

Lemma dict_get_set_ne (d : dict V) (k k0 : string) (v : V) :
  k <> k0 -> dict_get (dict_set d k v) k0 = dict_get d k0.
Proof.
  intros Hne. pose proof Hne as Hb. apply String.eqb_neq in Hb.
  induction d as [|[k' v'] d IH]; cbn.
  - rewrite Hb. reflexivity.
  - destruct (String.eqb k' k) eqn:E; cbn.
    + apply String.eqb_eq in E. subst k'. rewrite Hb. reflexivity.
    + rewrite IH. reflexivity.
Qed.

Lemma dict_get_keys (d : dict V) (k : string) :
  In k (dict_keys d) <-> exists v, dict_get d k = Some v.
Proof.
  unfold dict_keys. induction d as [|[k' v'] d IH]; cbn.
  - split; [intros [] | intros [v E]; discriminate E].
  - destruct (String.eqb_spec k' k) as [->|Hne].
    + split; [eauto | auto].
    + rewrite <- IH. split; [intros [E|Hin]; [contradiction|exact Hin] | auto].
Qed.

(** [d[k] = v] keeps the keys of [d] when [k] is one of them. *)
Lemma dict_keys_set (d : dict V) (k : string) (v : V) :
  In k (dict_keys d) -> dict_keys (dict_set d k v) = dict_keys d.
Proof.
  unfold dict_keys. induction d as [|[k' v'] d IH]; cbn; [intros []|].
  intros Hin. destruct (String.eqb_spec k' k) as [->|Hne]; cbn; [reflexivity|].
  f_equal. apply IH. destruct Hin as [E|Hin]; [contradiction | exact Hin].
Qed.
End dict_facts.

Section projection_entries.
Context {R : Type} `{Comfy R}.
Context {MotionModule MotionState : Type}.

Lemma resize_entry_fold (depth : nat) (x_size : Z) (idxs : list Z)
    (actual : CondEntry) :
  resize_entry (MotionModule := MotionModule) (MotionState := MotionState)
    depth x_size idxs actual
  = fold_left (resize_key depth x_size idxs actual) (dict_keys actual) (ret actual).
Proof. reflexivity. Qed.

(** An exception ends the loop over the keys. *)
Lemma fold_resize_key_bind (depth : nat) (x_size : Z) (idxs : list Z)
    (actual : CondEntry) (ks : list string) :
  forall (acc : M (@Env MotionModule MotionState) CondEntry) (e : Env),
    fold_left (resize_key depth x_size idxs actual) ks acc e
    = match acc e with
      | (Ok r, e1) => fold_left (resize_key depth x_size idxs actual) ks (ret r) e1
      | (Err err, e1) => (Err err, e1)
      end.
Proof.
  induction ks as [|k ks IH]; intros acc e; cbn [fold_left].
  - destruct (acc e) as [[r|err] e1]; reflexivity.
  - rewrite IH. unfold resize_key at 1. unfold bind at 1.
    destruct (acc e) as [[r|err] e1]; [|reflexivity].
    rewrite (IH (resize_key depth x_size idxs actual (ret r) k)).
    unfold resize_key at 2. unfold bind at 4. unfold ret at 3. reflexivity.
Qed.

Lemma fold_resize_key_projectable (depth : nat) (x_size : Z) (idxs : list Z)
    (actual : CondEntry) :
  Forall (fun i => 0 <= i < x_size) idxs ->
  forall (ks : list string) (r : CondEntry) (e : @Env MotionModule MotionState),
    (forall k, In k ks ->
       exists v, dict_get actual k = Some v
                 /\ item_projectable (env_controls e) depth k v) ->
    exists r' e',
      fold_left (resize_key depth x_size idxs actual) ks (ret r) e = (Ok r', e')
      /\ env_step idxs e e'
      /\ (forall k, In k ks ->
            exists v v', dict_get actual k = Some v
                         /\ resize_value x_size idxs k v = Ok v'
                         /\ dict_get r' k = Some v')
      /\ (forall k, ~ In k ks -> dict_get r' k = dict_get r k)
      /\ (forall c links,
            In "control"%string ks ->
            dict_get actual "control" = Some (VControl c) ->
            chain (env_controls e) c links ->
            Forall (fun l => window_scoped (env_controls e' l) idxs
                               (GlobalState.video_length (env_ADGS e))
                               (GlobalState.context_frames (env_ADGS e))) links).
Proof.
  intros Hr. induction ks as [|k ks IH]; intros r e Hks.
  - exists r, e. cbn. split; [reflexivity|]. split; [apply env_step_refl|].
    split; [intros k []|]. split; [reflexivity|]. intros c links [].
  - cbn [fold_left]. rewrite fold_resize_key_bind.
    destruct (Hks k (or_introl eq_refl)) as (v & Ev & Hv).
    destruct (resize_item_projectable depth x_size idxs k v e Hr Hv)
      as (v' & e1 & Ei & Evalue & Hstep1 & Hctl1).
    assert (Ek : resize_key depth x_size idxs actual (ret r) k e
                 = (Ok (dict_set r k v'), e1)).
    { unfold resize_key, bind, ret, lift_result, dict_item.
      rewrite Ev. cbv beta iota. rewrite Ei. reflexivity. }
    rewrite Ek.
    destruct Hstep1 as (A1 & M1 & S1).
    destruct (IH (dict_set r k v') e1) as (r' & e' & Ef & Hstep & Hin & Hout & Hctl).
    { intros k0 Hk0. destruct (Hks k0 (or_intror Hk0)) as (v0 & Ev0 & Hv0).
      exists v0. split; [exact Ev0|].
      eapply item_projectable_step; eassumption. }
    exists r', e'. split; [exact Ef|].
    split; [eapply env_step_trans; [exact (conj A1 (conj M1 S1)) | exact Hstep]|].
    destruct Hstep as (A & M' & S'). rewrite A1 in S'.
    split; [|split].
    + intros k0 Hk0. destruct (in_dec String.string_dec k0 ks) as [Hi|Hni].
      * apply Hin, Hi.
      * destruct Hk0 as [<-|Hk0]; [|contradiction].
        exists v, v'. split; [exact Ev|]. split; [exact Evalue|].
        rewrite (Hout k Hni). apply dict_get_set_eq.
    + intros k0 Hk0. rewrite Hout by (intros Hi; apply Hk0; right; exact Hi).
      apply dict_get_set_ne. intros E. apply Hk0. left. exact E.
    + intros c links Hc Ec Hchain.
      destruct (in_dec String.string_dec "control"%string ks) as [Hi|Hni].
      * rewrite <- A1. apply (Hctl c links Hi Ec).
        eapply chain_store_step; eassumption.
      * destruct Hc as [E|Hc]; [|contradiction]. subst k.
        assert (v = VControl c) as -> by congruence.
        specialize (Hctl1 c links eq_refl eq_refl Hchain).
        eapply Forall_impl; [exact Hctl1|]. cbn. intros l Hl.
        eapply store_step_scoped; eassumption.
Qed.

(** Projection of one entry made of projectable values. *)
Lemma resize_entry_projectable (depth : nat) (x_size : Z) (idxs : list Z)
    (actual : CondEntry) (e : @Env MotionModule MotionState) :
  Forall (fun i => 0 <= i < x_size) idxs ->
  entry_projectable (env_controls e) depth actual ->
  exists r' e',
    resize_entry depth x_size idxs actual e = (Ok r', e')
    /\ env_step idxs e e'
    /\ entry_projected x_size idxs actual r'
    /\ (forall c links,
          dict_get actual "control" = Some (VControl c) ->
          chain (env_controls e) c links ->
          Forall (fun l => window_scoped (env_controls e' l) idxs
                             (GlobalState.video_length (env_ADGS e))
                             (GlobalState.context_frames (env_ADGS e))) links).
Proof.
  intros Hr Hp. rewrite resize_entry_fold.
  destruct (fold_resize_key_projectable depth x_size idxs actual Hr
              (dict_keys actual) actual e)
    as (r' & e' & Ef & Hstep & Hin & _ & Hctl).
  { intros k Hk. apply dict_get_keys in Hk. destruct Hk as (v & Ev).
    exists v. split; [exact Ev | apply Hp, Ev]. }
  exists r', e'. split; [exact Ef|]. split; [exact Hstep|]. split.
  - intros k v Ev.
    destruct (Hin k) as (v0 & v' & Ev0 & Evalue & Er).
    { apply dict_get_keys. eauto. }
    exists v'. split; [congruence | exact Er].
  - intros c links Ec Hchain. apply (Hctl c links); [|exact Ec|exact Hchain].
    apply dict_get_keys. eauto.
Qed.

(** Projection of a conditioning list made of projectable entries. *)
Lemma get_resized_cond_projectable (depth : nat) (x : tensor R 4) (idxs : list Z) :
  Forall (fun i => 0 <= i < Z.of_nat (length x)) idxs ->
  forall (cond_in : list CondEntry) (e : @Env MotionModule MotionState),
    Forall (entry_projectable (env_controls e) depth) cond_in ->
    exists resized e',
      get_resized_cond depth x cond_in idxs e = (Ok resized, e')
      /\ env_step idxs e e'
      /\ Forall2 (entry_projected (Z.of_nat (length x)) idxs) cond_in resized
      /\ (forall actual c links,
            In actual cond_in ->
            dict_get actual "control" = Some (VControl c) ->
            chain (env_controls e) c links ->
            Forall (fun l => window_scoped (env_controls e' l) idxs
                               (GlobalState.video_length (env_ADGS e))
                               (GlobalState.context_frames (env_ADGS e))) links).
Proof.
  intros Hr. induction cond_in as [|actual rest IH]; intros e Hall.
  - exists [], e. cbn. split; [reflexivity|]. split; [apply env_step_refl|].
    split; [constructor|]. intros actual c links [].
  - inversion Hall as [|? ? Hactual Hrest]; subst.
    cbn [get_resized_cond]. unfold bind at 1.
    destruct (resize_entry_projectable depth (Z.of_nat (length x)) idxs actual e
                Hr Hactual) as (r1 & e1 & -> & Hstep1 & Hproj1 & Hctl1).
    destruct Hstep1 as (A1 & M1 & S1).
    destruct (IH e1) as (resized & e' & Eg & Hstep & Hproj & Hctl).
    { eapply Forall_impl; [exact Hrest|]. intros entry He k v Ev.
      eapply item_projectable_step; [exact S1 | apply He, Ev]. }
    unfold bind at 1. rewrite Eg. unfold ret.
    exists (r1 :: resized), e'. split; [reflexivity|].
    split; [eapply env_step_trans; [exact (conj A1 (conj M1 S1)) | exact Hstep]|].
    destruct Hstep as (A & M' & S'). rewrite A1 in S'.
    split; [constructor; assumption|].
    intros entry c links [<-|Hin] Ec Hchain.
    + eapply Forall_impl; [exact (Hctl1 c links Ec Hchain)|]. cbn. intros l Hl.
      eapply store_step_scoped; eassumption.
    + rewrite <- A1. apply (Hctl entry c links Hin Ec).
      eapply chain_store_step; eassumption.
Qed.
End projection_entries.

Section projection_theorems.
Context {R : Type} `{Comfy R}.
Context {MotionModule MotionState : Type}.


(** C5.  Projection [get_resized_cond] onto target indices within the full
    batch, for entries it is defined on: a tensor-valued field whose leading
    dimension is the size of the full batch becomes the gather of its rows at
    the target indices, in their order, one row per index (repeated indices
    repeat the row); a tensor-valued field of another leading dimension, and
    a field that is neither a tensor nor a mapping, is handed over unchanged;
    a mapping is replaced by its own projection [resize_dict]. *)
Theorem get_resized_cond_gathers_rows (depth : nat) (x : tensor R 4)
    (idxs : list Z) (cond_in : list CondEntry) (e : @Env MotionModule MotionState) :
  Forall (fun i => 0 <= i < Z.of_nat (length x)) idxs ->
  Forall (entry_projectable (env_controls e) depth) cond_in ->
  exists resized e',
    get_resized_cond depth x cond_in idxs e = (Ok resized, e')
    /\ Forall2 (fields_projected (Z.of_nat (length x)) idxs)
               cond_in resized.
Proof.
  intros Hr Hall.
  destruct (get_resized_cond_projectable depth x idxs Hr cond_in e Hall)
    as (resized & e' & Eg & _ & Hproj & _).
  exists resized, e'. split; [exact Eg|].
  assert (Hp : Forall (entry_projectable (env_controls e) depth) cond_in) by exact Hall.
  clear Eg. revert Hp. induction Hproj as [|actual r1 rest rs Hone _ IH]; intros Hp.
  { constructor. }
  inversion Hp as [|? ? Hactual Hrest]; subst.
  constructor; [|apply IH; assumption].
  split; [|split].
  - intros key n rows Ev. destruct (Hone key _ Ev) as (v' & Evalue & Er).
    cbn in Evalue.
    destruct (Z.eqb_spec (Z.of_nat (length rows)) (Z.of_nat (length x))) as [E|_].
    + destruct (gather_in_range rows idxs) as (rows' & Eg & Hg).
      { rewrite E. exact Hr. }
      change (@gather (tensor R n) rows idxs) with (gather rows idxs) in Evalue.
      rewrite Eg in Evalue. cbn in Evalue. injection Evalue as <-.
      exists rows'. split; [exact Er | exact Hg].
    + injection Evalue as <-. exact Er.
  - intros key d Ev. destruct (Hone key _ Ev) as (v' & Evalue & Er).
    pose proof (Hactual key _ Ev) as [Hne _]. cbn in Evalue.
    apply String.eqb_neq in Hne. rewrite Hne in Evalue.
    destruct (resize_dict (Z.of_nat (length x)) idxs d) as [d'|err];
      [|discriminate Evalue].
    cbn in Evalue. injection Evalue as <-. exists d'. split; [reflexivity | exact Er].
  - intros key v Ev. destruct (Hone key _ Ev) as (v' & Evalue & Er).
    destruct v; try exact I; cbn in Evalue; injection Evalue as <-; exact Er.
Qed.

End projection_theorems.

Lemma DemoWindow_entry_projectable :
  entry_projectable (env_controls DemoWindow.env) 2 DemoWindow.entry.
Proof.
  intros key v. unfold DemoWindow.entry. cbn [dict_get].
  destruct (String.eqb "per_frame" key); [intros [= <-]; cbn; discriminate|].
  destruct (String.eqb "pooled_output" key); [intros [= <-]; cbn; discriminate|].
  destruct (String.eqb_spec "strength" key) as [<-|_];
    [intros [= <-]; cbn; discriminate|].
  destruct (String.eqb "control" key); [|discriminate].
  intros [= <-] _. split; [cbn; discriminate|].
  exists [0%nat; 1%nat]. split; [|cbn; lia].
  apply chain_link with 1%nat; [reflexivity|]. apply chain_last. reflexivity.
Defined.

Lemma DemoWindow_window_in_range :
  Forall (fun i => 0 <= i < Z.of_nat (length DemoWindow.x)) DemoWindow.window.
Proof. repeat constructor; cbn; lia. Defined.

Lemma get_resized_cond_gathers_rows_witness :
  exists resized e',
    get_resized_cond 2 DemoWindow.x [DemoWindow.entry] DemoWindow.window
                     DemoWindow.env = (Ok resized, e')
    /\ Forall2 (fields_projected (Z.of_nat (length DemoWindow.x)) DemoWindow.window)
               [DemoWindow.entry] resized.
Proof.
  apply (get_resized_cond_gathers_rows 2 DemoWindow.x DemoWindow.window
           [DemoWindow.entry] DemoWindow.env).
  - exact DemoWindow_window_in_range.
  - constructor; [exact DemoWindow_entry_projectable | constructor].
Defined.


(** ** The frames of a window across the batches of the input *)

Lemma expand_idxs_length (video_length axes_factor : Z) (ctx_idxs : list Z) :
  length (expand_idxs video_length axes_factor ctx_idxs)
  = (Z.to_nat axes_factor * length ctx_idxs)%nat.
Proof.
  unfold expand_idxs. generalize 0%nat as start.
  induction (Z.to_nat axes_factor) as [|k IH]; intros start; cbn; [reflexivity|].
  rewrite length_app, length_map, IH. reflexivity.
Qed.

(** X1.  The expanded indices of a window list the window once per batch of
    the input, batch after batch: position [n * len(ctx_idxs) + j] holds
    [video_length * n + ctx_idxs[j]], and there are
    [axes_factor * len(ctx_idxs)] of them. *)
Theorem expand_idxs_lookup (video_length axes_factor : Z) (ctx_idxs : list Z)
    (n j : nat) (ind : Z) :
  (n < Z.to_nat axes_factor)%nat ->
  ctx_idxs !! j = Some ind ->
  length (expand_idxs video_length axes_factor ctx_idxs)
  = (Z.to_nat axes_factor * length ctx_idxs)%nat
  /\ expand_idxs video_length axes_factor ctx_idxs !! (n * length ctx_idxs + j)%nat
     = Some (video_length * Z.of_nat n + ind).
Proof.
  intros Hn Hj. split; [apply expand_idxs_length|].
  unfold expand_idxs.
  assert (Hgen : forall k start m,
            (m < k)%nat ->
            concat (map (fun n0 => map (fun i => video_length * Z.of_nat n0 + i) ctx_idxs)
                        (seq start k)) !! (m * length ctx_idxs + j)%nat
            = Some (video_length * Z.of_nat (start + m) + ind)).
  { induction k as [|k IH]; intros start m Hm; [lia|]. cbn [seq map concat].
    destruct m as [|m].
    - rewrite lookup_app_l.
      + rewrite list_lookup_fmap. cbn. rewrite Hj. cbn.
        do 3 f_equal. lia.
      + rewrite length_map. apply lookup_lt_Some in Hj. lia.
    - rewrite lookup_app_r by (rewrite length_map; lia).
      rewrite length_map.
      replace (S m * length ctx_idxs + j - length ctx_idxs)%nat
        with (m * length ctx_idxs + j)%nat by lia.
      rewrite IH by lia. do 3 f_equal. lia. }
  rewrite (Hgen _ 0%nat n Hn). reflexivity.
Qed.

Lemma expand_idxs_lookup_witness :
  length (expand_idxs 16 2 [0; 1; 2; 6; 7]) = (Z.to_nat 2 * 5)%nat
  /\ expand_idxs 16 2 [0; 1; 2; 6; 7] !! (1 * 5 + 3)%nat = Some (16 * 1 + 6).
Proof.
  apply (expand_idxs_lookup 16 2 [0; 1; 2; 6; 7] 1 3 6).
  - cbn. lia.
  - reflexivity.
Defined.

Lemma expand_idxs_elements (video_length axes_factor : Z) (ctx_idxs : list Z) (i : Z) :
  In i (expand_idxs video_length axes_factor ctx_idxs) ->
  exists (n : nat) (ind : Z),
    (n < Z.to_nat axes_factor)%nat /\ In ind ctx_idxs
    /\ i = video_length * Z.of_nat n + ind.
Proof.
  unfold expand_idxs. intros Hi.
  apply in_concat in Hi. destruct Hi as (row & Hrow & Hi).
  apply in_map_iff in Hrow. destruct Hrow as (n & <- & Hn).
  apply in_map_iff in Hi. destruct Hi as (ind & <- & Hind).
  apply in_seq in Hn. exists n, ind. split; [lia|]. split; [exact Hind | reflexivity].
Qed.

(** X2.  With [axes_factor = x.size(0) // video_length] as line 464 computes
    it, a window of frame indices below [video_length] expands to indices
    of rows of the input: none is out of the range of [x]. *)
Theorem expand_idxs_in_range (video_length size : Z) (ctx_idxs : list Z) :
  0 < video_length ->
  Forall (fun ind => 0 <= ind < video_length) ctx_idxs ->
  Forall (fun i => 0 <= i < size)
         (expand_idxs video_length (size / video_length) ctx_idxs).
Proof.
  intros Hv Hctx. apply List.Forall_forall. intros i Hi.
  apply expand_idxs_elements in Hi. destruct Hi as (n & ind & Hn & Hind & ->).
  rewrite List.Forall_forall in Hctx. specialize (Hctx ind Hind).
  assert (Hq : 0 <= size / video_length \/ size / video_length < 0) by lia.
  destruct Hq as [Hq|Hq]; [|lia].
  assert (Hn' : Z.of_nat n + 1 <= size / video_length) by lia.
  pose proof (Z.mul_div_le size video_length Hv) as Hle.
  nia.
Qed.

Lemma expand_idxs_in_range_witness :
  Forall (fun i => 0 <= i < 32) (expand_idxs 16 (32 / 16) [0; 1; 2; 6; 7]).
Proof.
  apply (expand_idxs_in_range 16 32 [0; 1; 2; 6; 7]).
  - lia.
  - repeat constructor; lia.
Defined.

(** ** Projection, whatever its outcome *)

Section projection_frame.
Context {R : Type} `{Comfy R}.
Context {MotionModule MotionState : Type}.

Lemma prepare_control_objects_env_step (idxs : list Z) (depth : nat) :
  forall (c : nat) (e : @Env MotionModule MotionState),
    env_step idxs e (snd (prepare_control_objects depth c idxs e)).
Proof.
  induction depth as [|depth IH]; intros c e; cbn [prepare_control_objects].
  { apply env_step_refl. }
  unfold bind at 1. unfold get at 1.
  assert (Hprev : exists r e1,
            (match previous_controlnet (env_controls e c) with
             | Some previous => prepare_control_objects depth previous idxs
             | None => ret tt
             end) e = (r, e1) /\ env_step idxs e e1).
  { destruct (previous_controlnet (env_controls e c)) as [p|].
    - specialize (IH p e).
      destruct (prepare_control_objects depth p idxs e) as [r e1].
      exists r, e1. split; [reflexivity | exact IH].
    - exists (Ok tt), e. split; [reflexivity | apply env_step_refl]. }
  destruct Hprev as (r & e1 & E & (A1 & M1 & S1)).
  unfold bind at 1. rewrite E. destruct r as [[]|err]; cbn.
  - split; [exact A1|]. split; [exact M1|]. cbn.
    intros c'. unfold store_set. destruct (c' =? c)%nat eqn:Ec.
    + apply Nat.eqb_eq in Ec. subst c'. cbn. split; [apply S1|].
      right. rewrite A1. split; [reflexivity|]. split; reflexivity.
    + apply S1.
  - split; [exact A1|]. split; [exact M1 | exact S1].
Qed.

Lemma resize_item_env_step (depth : nat) (x_size : Z) (idxs : list Z)
    (key : string) (v : CondValue) (e : @Env MotionModule MotionState) :
  env_step idxs e (snd (resize_item depth x_size idxs key v e)).
Proof.
  destruct (String.eqb_spec key "control") as [->|Hne].
  - destruct v as [t|c|d|r|a|g|o];
      try (rewrite resize_item_pure by (right; eauto); apply env_step_refl);
      unfold resize_item; change (String.eqb "control" "control") with true;
      cbv iota; unfold bind at 1; unfold get at 1; unfold bind at 1;
      cbn [has_sub_idxs]; try apply env_step_refl.
    destruct (sub_idxs (env_controls e c)); [|apply env_step_refl].
    pose proof (prepare_control_objects_env_step idxs depth c e) as Hp.
    destruct (prepare_control_objects depth c idxs e) as [[[]|err] e1]; exact Hp.
  - rewrite resize_item_pure by (left; exact Hne). apply env_step_refl.
Qed.

Lemma resize_key_env_step (depth : nat) (x_size : Z) (idxs : list Z)
    (actual r : CondEntry) (k : string) (e : @Env MotionModule MotionState) :
  env_step idxs e (snd (resize_key depth x_size idxs actual (ret r) k e))
  /\ forall r1 e1,
       resize_key depth x_size idxs actual (ret r) k e = (Ok r1, e1) ->
       exists v, r1 = dict_set r k v.
Proof.
  unfold resize_key, bind, ret, lift_result, dict_item.
  destruct (dict_get actual k) as [v|]; cbv beta iota.
  - pose proof (resize_item_env_step depth x_size idxs k v e) as Hi.
    destruct (resize_item depth x_size idxs k v e) as [[v'|err] e1]; cbn in *.
    + split; [exact Hi|]. intros r1 e2 [= <- <-]. eauto.
    + split; [exact Hi|]. intros r1 e2 [=].
  - split; [apply env_step_refl|]. intros r1 e2 [=].
Qed.

Lemma fold_resize_key_env_step (depth : nat) (x_size : Z) (idxs : list Z)
    (actual : CondEntry) (ks : list string) :
  forall (r : CondEntry) (e : @Env MotionModule MotionState),
    env_step idxs e
      (snd (fold_left (resize_key depth x_size idxs actual) ks (ret r) e))
    /\ forall r' e',
         fold_left (resize_key depth x_size idxs actual) ks (ret r) e = (Ok r', e') ->
         (forall k, In k ks -> In k (dict_keys r)) ->
         dict_keys r' = dict_keys r.
Proof.
  induction ks as [|k ks IH]; intros r e.
  { cbn. split; [apply env_step_refl|]. intros r' e' [= <- <-] _. reflexivity. }
  cbn [fold_left]. rewrite fold_resize_key_bind.
  destruct (resize_key_env_step depth x_size idxs actual r k e) as [Hstep Hset].
  destruct (resize_key depth x_size idxs actual (ret r) k e) as [[r1|err] e1];
    cbn in Hstep.
  - destruct (IH r1 e1) as [Hstep' Hkeys]. split.
    + eapply env_step_trans; eassumption.
    + intros r' e' Ef Hin.
      destruct (Hset r1 e1 eq_refl) as (v & ->).
      assert (Hk : dict_keys (dict_set r k v) = dict_keys r).
      { apply dict_keys_set, Hin. left. reflexivity. }
      rewrite <- Hk. apply (Hkeys r' e' Ef).
      intros k0 Hk0. rewrite Hk. apply Hin. right. exact Hk0.
  - split; [exact Hstep|]. intros r' e' [=].
Qed.

(** X3.  Whatever its outcome (a result or an exception), projection leaves
    the run state [ADGS] and the motion module as they were, keeps the
    previous-link of every control object, and leaves a control object
    either untouched or carrying the window scope of the call: the target
    indices, [ADGS.video_length] and [ADGS.context_frames]. *)
Theorem get_resized_cond_frame (depth : nat) (x : tensor R 4) (idxs : list Z)
    (cond_in : list CondEntry) (e : @Env MotionModule MotionState) :
  let e' := snd (get_resized_cond depth x cond_in idxs e) in
  env_ADGS e' = env_ADGS e
  /\ env_motion e' = env_motion e
  /\ forall c,
       previous_controlnet (env_controls e' c) = previous_controlnet (env_controls e c)
       /\ (env_controls e' c = env_controls e c
           \/ window_scoped (env_controls e' c) idxs
                (GlobalState.video_length (env_ADGS e))
                (GlobalState.context_frames (env_ADGS e))).
Proof.
  cbv zeta. change (env_step idxs e (snd (get_resized_cond depth x cond_in idxs e))).
  revert e. induction cond_in as [|actual rest IH]; intros e.
  { apply env_step_refl. }
  cbn [get_resized_cond]. unfold bind at 1. rewrite resize_entry_fold.
  destruct (fold_resize_key_env_step depth (Z.of_nat (length x)) idxs actual
              (dict_keys actual) actual e) as [Hstep _].
  destruct (fold_left _ (dict_keys actual) (ret actual) e) as [[r1|err] e1];
    cbn in Hstep; [|exact Hstep].
  unfold bind at 1. specialize (IH e1).
  destruct (get_resized_cond depth x rest idxs e1) as [[rs|err] e2]; cbn in IH |- *;
    eapply env_step_trans; eassumption.
Qed.

(** X4.  A successful projection returns as many entries as it was given,
    each with the keys of its original, in the same order. *)
Theorem get_resized_cond_keeps_keys (depth : nat) (x : tensor R 4) (idxs : list Z)
    (cond_in : list CondEntry) (e : @Env MotionModule MotionState) :
  match fst (get_resized_cond depth x cond_in idxs e) with
  | Ok resized_cond =>
      length resized_cond = length cond_in
      /\ map dict_keys resized_cond = map dict_keys cond_in
  | Err _ => True
  end.
Proof.
  revert e. induction cond_in as [|actual rest IH]; intros e.
  { cbn. split; reflexivity. }
  cbn [get_resized_cond]. unfold bind at 1. rewrite resize_entry_fold.
  destruct (fold_resize_key_env_step depth (Z.of_nat (length x)) idxs actual
              (dict_keys actual) actual e) as [_ Hkeys].
  destruct (fold_left _ (dict_keys actual) (ret actual) e) as [[r1|err] e1];
    [|exact I].
  specialize (Hkeys r1 e1 eq_refl (fun k Hk => Hk)).
  unfold bind at 1. specialize (IH e1).
  destruct (get_resized_cond depth x rest idxs e1) as [[rs|err] e2]; cbn in IH |- *;
    [|exact I].
  destruct IH as [Hlen Hmap]. split; [lia|]. rewrite Hkeys, Hmap. reflexivity.
Qed.

Lemma py_index_error {A : Type} (l : list A) (i : Z) :
  ~ (- Z.of_nat (length l) <= i < Z.of_nat (length l)) ->
  py_index l i = Err IndexError.
Proof.
  intros Hi. unfold py_index.
  destruct (Z.ltb_spec i 0) as [Hneg|Hpos].
  - destruct (Z.leb_spec 0 (i + Z.of_nat (length l))) as [?|_]; [lia | reflexivity].
  - destruct (Z.leb_spec 0 i) as [_|?]; [|lia].
    destruct (Z.ltb_spec i (Z.of_nat (length l))) as [?|_]; [lia | reflexivity].
Qed.

Lemma py_index_Ok_or_IndexError {A : Type} (l : list A) (i : Z) :
  (exists a, py_index l i = Ok a) \/ py_index l i = Err IndexError.
Proof.
  unfold py_index.
  destruct ((0 <=? _) && (_ <? _)); [|right; reflexivity].
  destruct (l !! _); [left; eauto | right; reflexivity].
Qed.

Lemma gather_out_of_range {A : Type} (l : list A) (idxs : list Z) :
  Exists (fun i => ~ (- Z.of_nat (length l) <= i < Z.of_nat (length l))) idxs ->
  gather l idxs = Err IndexError.
Proof.
  unfold gather. induction idxs as [|i idxs IH]; intros Hex; [inversion Hex|].
  cbn. destruct (py_index_Ok_or_IndexError l i) as [(a & Ea)|Ee];
    [|rewrite Ee; reflexivity].
  inversion Hex as [? ? Hi|? ? Hrest]; subst.
  - rewrite (py_index_error l i Hi) in Ea. discriminate Ea.
  - rewrite Ea. cbn. rewrite (IH Hrest). reflexivity.
Qed.

(** X5.  A target index outside the full batch makes projection raise
    [IndexError] at the first per-frame tensor; when that tensor is the
    first field of the first entry nothing has been changed by then. *)
Theorem get_resized_cond_index_error (depth : nat) (x : tensor R 4) (idxs : list Z)
    (key : string) (n : nat) (rows : list (tensor R n))
    (fields : CondEntry) (rest : list CondEntry)
    (e : @Env MotionModule MotionState) :
  length rows = length x ->
  Exists (fun i => ~ (- Z.of_nat (length x) <= i < Z.of_nat (length x))) idxs ->
  get_resized_cond depth x
    (((key, VTensor (mkAnyTensor (S n) rows)) :: fields) :: rest) idxs e
  = (Err IndexError, e).
Proof.
  intros Hlen Hex.
  cbn [get_resized_cond]. unfold bind at 1. rewrite resize_entry_fold.
  cbn [dict_keys map fst fold_left]. rewrite fold_resize_key_bind.
  match goal with
  | |- context [resize_key ?d ?s ?i ?a ?acc ?k ?e0] =>
      assert (Ek : resize_key d s i a acc k e0 = (Err IndexError, e))
  end.
  { unfold resize_key, bind, ret, lift_result, dict_item. cbn [dict_get].
    rewrite String.eqb_refl. cbv beta iota.
    rewrite resize_item_pure by (right; eauto).
    cbn. rewrite Hlen, Z.eqb_refl.
    change (@gather (tensor R n) rows idxs) with (gather rows idxs).
    rewrite gather_out_of_range by (rewrite Hlen; exact Hex). reflexivity. }
  rewrite Ek. reflexivity.
Qed.

Lemma resize_dict_fold (x_size : Z) (idxs : list Z) (d : dict DictValue) :
  resize_dict x_size idxs d = fold_left (resize_dict_step x_size idxs) d (Ok d).
Proof. reflexivity. Qed.

Lemma fold_resize_dict_Err (x_size : Z) (idxs : list Z)
    (items : dict DictValue) (err : exn) :
  fold_left (resize_dict_step x_size idxs) items (Err err) = Err err.
Proof. induction items as [|[k dv] items IH]; cbn; [reflexivity | exact IH]. Qed.

Lemma dict_set_app_notin {V : Type} (d1 d2 : dict V) (k : string) (v v' : V) :
  ~ In k (dict_keys d1) ->
  dict_set (d1 ++ (k, v) :: d2) k v' = d1 ++ (k, v') :: d2.
Proof.
  unfold dict_keys. induction d1 as [|[k1 v1] d1 IH]; cbn; intros Hk.
  - rewrite String.eqb_refl. reflexivity.
  - destruct (String.eqb_spec k1 k) as [->|_]; [exfalso; apply Hk; left; reflexivity|].
    rewrite IH; [reflexivity|]. intros Hin. apply Hk. right. exact Hin.
Qed.

(** X6.  On a nested dict (one key, one value) the in-place update of the
    copy while iterating over it amounts to a map: each value is replaced
    by its own new value, per-frame tensors and wrapped per-frame tensors
    gathered at the target indices, everything else kept; keys and order
    are those of the original, and the first failing value gives the
    exception. *)
Theorem resize_dict_is_map (x_size : Z) (idxs : list Z) (d : dict DictValue) :
  List.NoDup (dict_keys d) ->
  resize_dict x_size idxs d
  = map_result (fun '(cond_key, cond_value) =>
                  doR v <- resize_dict_value x_size idxs cond_value;
                  Ok (cond_key, v)) d.
Proof.
  intros Hnd. rewrite resize_dict_fold.
  assert (Hgen : forall items done,
            List.NoDup (dict_keys (done ++ items)) ->
            fold_left (resize_dict_step x_size idxs) items (Ok (done ++ items))
            = doR rest <- map_result (fun '(cond_key, cond_value) =>
                            doR v <- resize_dict_value x_size idxs cond_value;
                            Ok (cond_key, v)) items;
              Ok (done ++ rest)).
  { induction items as [|[k dv] items IH]; intros done Hdone.
    { cbn. reflexivity. }
    assert (Hk : ~ In k (dict_keys done)).
    { unfold dict_keys in *. rewrite map_app in Hdone. cbn in Hdone.
      apply NoDup_remove_2 in Hdone. intros Hin. apply Hdone.
      apply in_or_app. left. exact Hin. }
    assert (Hnext : forall dv', List.NoDup (dict_keys ((done ++ [(k, dv')]) ++ items))).
    { intros dv'. unfold dict_keys in *. rewrite <- app_assoc.
      rewrite map_app in *. cbn in *. exact Hdone. }
    assert (Hsame : forall dv',
              fold_left (resize_dict_step x_size idxs) items
                        (Ok (done ++ (k, dv') :: items))
              = doR rest <- map_result (fun '(cond_key, cond_value) =>
                              doR v <- resize_dict_value x_size idxs cond_value;
                              Ok (cond_key, v)) items;
                Ok (done ++ (k, dv') :: rest)).
    { intros dv'. specialize (IH (done ++ [(k, dv')]) (Hnext dv')).
      rewrite <- app_assoc in IH. cbn [app] in IH. rewrite IH.
      destruct (map_result _ items); cbn; [|reflexivity].
      rewrite <- app_assoc. reflexivity. }
    cbn [fold_left map_result rbind]. unfold resize_dict_step at 2.
    cbn [rbind].
    destruct dv as [t|o|o]; cbn [resize_dict_value].
    - destruct (size0 t) as [n|err]; cbn [rbind];
        [|apply fold_resize_dict_Err].
      destruct (n =? x_size).
      + destruct (index_select t idxs) as [t'|err]; cbn [rbind];
          [|apply fold_resize_dict_Err].
        rewrite dict_set_app_notin by exact Hk. rewrite Hsame.
        destruct (map_result _ items); reflexivity.
      + cbn [rbind]. rewrite Hsame. destruct (map_result _ items); reflexivity.
    - destruct (cond_attr o) as [t|].
      + destruct (size0 t) as [n|err]; cbn [rbind];
          [|apply fold_resize_dict_Err].
        destruct (n =? x_size).
        * destruct (index_select t idxs) as [t'|err]; cbn [rbind];
            [|apply fold_resize_dict_Err].
          rewrite dict_set_app_notin by exact Hk. rewrite Hsame.
          destruct (map_result _ items); reflexivity.
        * cbn [rbind]. rewrite Hsame. destruct (map_result _ items); reflexivity.
      + cbn [rbind]. rewrite Hsame. destruct (map_result _ items); reflexivity.
    - cbn [rbind]. rewrite Hsame. destruct (map_result _ items); reflexivity. }
  etransitivity; [exact (Hgen d [] Hnd)|].
  destruct (map_result _ d); reflexivity.
Qed.
End projection_frame.

Lemma get_resized_cond_index_error_witness :
  get_resized_cond 2 DemoWindow.x [DemoWindow.entry] [0; 16] DemoWindow.env
  = (Err IndexError, DemoWindow.env).
Proof.
  apply (get_resized_cond_index_error 2 DemoWindow.x [0; 16] "per_frame" 0).
  - reflexivity.
  - apply Exists_cons_tl, Exists_cons_hd. cbn. lia.
Defined.

Lemma resize_dict_is_map_witness :
  resize_dict 16 DemoWindow.window
    [("c_crossattn"%string, DObj DemoWindow.per_frame);
     ("y"%string, DTensor DemoWindow.pooled)]
  = map_result (fun '(cond_key, cond_value) =>
                  doR v <- resize_dict_value 16 DemoWindow.window cond_value;
                  Ok (cond_key, v))
      [("c_crossattn"%string, DObj DemoWindow.per_frame);
       ("y"%string, DTensor DemoWindow.pooled)].
Proof.
  apply (resize_dict_is_map (R := Q)).
  repeat constructor; cbn; intros Hin; repeat destruct Hin as [Hin|Hin];
    try discriminate Hin; exact Hin.
Defined.

(** ** What one pass of the planner takes out of [to_run] *)

Lemma descending_below_mono (l : list nat) (b b' : nat) :
  (b <= b')%nat -> descending_below b l -> descending_below b' l.
Proof. destruct l as [|i l]; cbn; [auto|]. intros Hb [Hi Hl]. split; [lia | exact Hl]. Qed.

Lemma descending_below_take (l : list nat) (b k : nat) :
  descending_below b l -> descending_below b (take k l).
Proof.
  revert b k. induction l as [|i l IH]; intros b k; [destruct k; auto|].
  destruct k as [|k]; cbn; [auto|]. intros [Hi Hl]. split; [exact Hi | apply IH, Hl].
Qed.

Lemma descending_below_Forall (l : list nat) (b : nat) :
  descending_below b l -> Forall (fun i => (i < b)%nat) l.
Proof.
  revert b. induction l as [|i l IH]; intros b; cbn; [constructor|].
  intros [Hi Hl]. constructor; [exact Hi|].
  eapply Forall_impl; [apply IH, Hl|]. cbn. intros j Hj. lia.
Qed.

Lemma descending_below_reverse_filter (P : nat -> bool) (a m : nat) :
  descending_below (a + m) (reverse (List.filter P (seq a m))).
Proof.
  induction m as [|m IH]; [exact I|].
  rewrite seq_S, List.filter_app, reverse_app. cbn [List.filter].
  destruct (P (a + m)%nat); cbn.
  - split; [lia | exact IH].
  - eapply descending_below_mono; [|exact IH]. lia.
Qed.

Section pop_facts.
Context {R : Type} `{Comfy R}.

(** Popping strictly decreasing indices takes out exactly the requests at
    those indices of the list as it was before the first pop. *)
Lemma pop_batch_descending (to_batch : list nat) :
  forall b : Batch,
    descending_below (length (b_to_run b)) to_batch ->
    exists b' popped,
      pop_batch to_batch b = Ok b'
      /\ Forall2 (fun i o => b_to_run b !! i = Some o) to_batch popped
      /\ b_to_run b ≡ₚ popped ++ b_to_run b'
      /\ b_to_run b' `sublist_of` b_to_run b
      /\ b_input_x b' = b_input_x b ++ map (fun o => p_input_x (fst o)) popped
      /\ b_mult b' = b_mult b ++ map (fun o => p_mult (fst o)) popped
      /\ b_c b' = b_c b ++ map (fun o => p_conditionning (fst o)) popped
      /\ b_area b' = b_area b ++ map (fun o => p_area (fst o)) popped
      /\ b_cond_or_uncond b' = b_cond_or_uncond b ++ map snd popped
      /\ b_control b' = match last popped with
                        | Some o => p_control (fst o)
                        | None => b_control b
                        end.
Proof.
  induction to_batch as [|i rest IH]; intros b Hdesc.
  - exists b, []. cbn. rewrite !app_nil_r.
    repeat split; try reflexivity. constructor.
  - destruct Hdesc as [Hi Hrest]. cbn [pop_batch]. unfold py_pop.
    destruct (b_to_run b !! i) as [o|] eqn:Eo;
      [|apply lookup_ge_None in Eo; lia].
    cbn [rbind].
    set (b1 := mkBatch _ _ _ _ _ _ _ _).
    assert (Hlen1 : length (b_to_run b1) = (length (b_to_run b) - 1)%nat).
    { cbn. rewrite length_app, length_take, length_drop. lia. }
    destruct (IH b1) as (b' & popped & Ep & Hlook & Hperm & Hsub & Hx & Hm & Hc
                         & Ha & Hcu & Hctl).
    { eapply descending_below_mono; [|exact Hrest]. lia. }
    exists b', (o :: popped). split; [exact Ep|].
    assert (Hdel : b_to_run b1 = delete i (b_to_run b)).
    { cbn. symmetry. apply delete_take_drop. }
    split; [|split; [|split]].
    + constructor; [exact Eo|].
      apply descending_below_Forall in Hrest.
      clear -Hlook Hrest Hdel.
      induction Hlook as [|j o' js os Hj _ IHl]; [constructor|].
      inversion Hrest as [|? ? Hji Hrest']; subst.
      constructor; [|apply IHl, Hrest'].
      rewrite Hdel in Hj. rewrite list_lookup_delete_lt in Hj by exact Hji. exact Hj.
    + cbn [app]. rewrite <- Hperm, Hdel. apply delete_Permutation, Eo.
    + etransitivity; [exact Hsub|]. rewrite Hdel. apply sublist_delete.
    + cbn [map]. rewrite Hx, Hm, Hc, Ha, Hcu. cbn. rewrite <- !app_assoc. cbn.
      repeat split; try reflexivity.
      rewrite Hctl. destruct popped as [|o' popped']; [reflexivity|].
      change (last (o :: o' :: popped')) with (last (o' :: popped')).
      destruct (last (o' :: popped')) eqn:El; [reflexivity|].
      apply last_None in El. discriminate El.
Qed.

Lemma can_concat_cond_same_shape_control (c1 c2 : Prepared) :
  can_concat_cond c1 c2 = true ->
  shape4 (p_input_x c1) = shape4 (p_input_x c2) /\ p_control c1 = p_control c2.
Proof.
  unfold can_concat_cond.
  destruct (shape_eqb _ _) eqn:Es; cbn [negb]; [|discriminate].
  destruct (none_mismatch (p_control c1) (p_control c2)) eqn:En; [discriminate|].
  intros Hrest. split.
  - unfold shape_eqb in Es.
    destruct (shape4 (p_input_x c1)) as [[[a0 a1] a2] a3].
    destruct (shape4 (p_input_x c2)) as [[[b0 b1] b2] b3].
    apply andb_prop in Es. destruct Es as [Es E3].
    apply andb_prop in Es. destruct Es as [Es E2].
    apply andb_prop in Es. destruct Es as [E0 E1].
    apply Z.eqb_eq in E0, E1, E2, E3. congruence.
  - destruct (p_control c1) as [i|], (p_control c2) as [j|]; cbn in En, Hrest;
      try discriminate; [|reflexivity].
    destruct (Nat.eqb_spec i j) as [->|_]; [reflexivity | discriminate Hrest].
Qed.

(** X7.  One pass of the planner over a non-empty [to_run]: popping the
    selected indices never fails; the popped requests are those at the
    selected indices of [to_run], at least one, each mergeable with the
    first request, of its input shape and with its control object; the
    control object of the batch is the one of the first request; [to_run]
    loses exactly the popped requests (none dropped, none repeated), keeps
    the others in their order and gets strictly shorter. *)
Theorem batch_pops_mergeable_requests (first : Prepared * Branch)
    (rest : list (Prepared * Branch)) (max_total_area : Z) :
  let to_run := first :: rest in
  let to_batch := select_batch (mergeable_with_first to_run first)
                               (shape4 (p_input_x (fst first))) max_total_area in
  exists b popped,
    pop_batch to_batch (mkBatch to_run [] [] [] [] [] None None) = Ok b
    /\ popped <> []
    /\ Forall2 (fun i o => to_run !! i = Some o) to_batch popped
    /\ Forall (fun o => can_concat_cond (fst o) (fst first) = true
                        /\ shape4 (p_input_x (fst o)) = shape4 (p_input_x (fst first))
                        /\ p_control (fst o) = p_control (fst first)) popped
    /\ b_control b = p_control (fst first)
    /\ b_input_x b = map (fun o => p_input_x (fst o)) popped
    /\ b_mult b = map (fun o => p_mult (fst o)) popped
    /\ b_cond_or_uncond b = map snd popped
    /\ to_run ≡ₚ popped ++ b_to_run b
    /\ b_to_run b `sublist_of` to_run
    /\ (length (b_to_run b) < length to_run)%nat.
Proof.
  intros to_run to_batch.
  set (temp := mergeable_with_first to_run first) in *.
  assert (Htemp : descending_below (length to_run) temp).
  { apply (descending_below_reverse_filter _ 0). }
  assert (Hne : temp <> []) by apply mergeable_with_first_nonempty.
  assert (Hk : exists k, (1 <= k)%nat /\ to_batch = take k temp).
  { destruct (select_loop_seq temp (shape4 (p_input_x (fst first))) max_total_area
                (take 1 temp) (length temp) 1)
      as [(i & Hi & Hsel & _)|[_ Hsel]]; [lia| |].
    - exists (length temp / i)%nat. split; [|exact Hsel].
      apply Nat.div_le_lower_bound; lia.
    - exists 1%nat. split; [lia | exact Hsel]. }
  destruct Hk as (k & Hk & Etb).
  assert (Hdesc : descending_below (length to_run) to_batch).
  { rewrite Etb. apply descending_below_take, Htemp. }
  assert (Hmerge : Forall (fun i => match to_run !! i with
                                    | Some o => can_concat_cond (fst o) (fst first)
                                    | None => false
                                    end = true) to_batch).
  { apply List.Forall_forall. intros i Hi. rewrite Etb in Hi.
    assert (Hin : In i temp).
    { apply list_elem_of_In in Hi. apply elem_of_take in Hi.
      destruct Hi as (j & Hj & _). apply list_elem_of_lookup_2 in Hj.
      apply list_elem_of_In, Hj. }
    unfold temp, mergeable_with_first in Hin.
    apply list_elem_of_In, elem_of_reverse, list_elem_of_In, filter_In in Hin.
    apply Hin. }
  destruct (pop_batch_descending to_batch (mkBatch to_run [] [] [] [] [] None None) Hdesc)
    as (b & popped & Ep & Hlook & Hperm & Hsub & Hx & Hm & _ & _ & Hcu & Hctl).
  cbn [b_to_run b_input_x b_mult b_cond_or_uncond b_control app] in *.
  assert (Hpop : popped <> []).
  { intros ->. inversion Hlook as [E|]; subst.
    rewrite Etb in E. destruct temp; [contradiction|].
    destruct k; [lia | discriminate E]. }
  assert (Hall : Forall (fun o => can_concat_cond (fst o) (fst first) = true
                   /\ shape4 (p_input_x (fst o)) = shape4 (p_input_x (fst first))
                   /\ p_control (fst o) = p_control (fst first)) popped).
  { clear -Hlook Hmerge. induction Hlook as [|i o js os Hi _ IHl]; [constructor|].
    inversion Hmerge as [|? ? Hm Hrest]; subst.
    constructor; [|apply IHl, Hrest].
    rewrite Hi in Hm. split; [exact Hm|].
    apply can_concat_cond_same_shape_control, Hm. }
  exists b, popped. split; [exact Ep|]. split; [exact Hpop|].
  split; [exact Hlook|]. split; [exact Hall|]. split.
  { rewrite Hctl. destruct (last popped) as [o|] eqn:El.
    - apply last_Some_elem_of in El.
      rewrite Forall_forall in Hall. apply (Hall o El).
    - apply last_None in El. contradiction. }
  split; [exact Hx|]. split; [exact Hm|]. split; [exact Hcu|].
  split; [exact Hperm|]. split; [exact Hsub|].
  apply Permutation_length in Hperm. rewrite length_app in Hperm.
  destruct popped; [contradiction | cbn in Hperm |- *; lia].
Qed.
End pop_facts.

(** ** The sliding path when the scheduler yields no window *)

Section broadcast_facts.
Context {R : Type} `{Scalar R}.

Lemma map_result_Ok {A B : Type} (f : A -> result B) (h : A -> B) (l : list A) :
  (forall a, In a l -> f a = Ok (h a)) -> map_result f l = Ok (map h l).
Proof.
  induction l as [|a l IH]; intros Hf; cbn; [reflexivity|].
  rewrite (Hf a (or_introl eq_refl)). cbn.
  rewrite IH by (intros a' Ha'; apply Hf; right; exact Ha'). reflexivity.
Qed.

Lemma zip_result_const {A B C D : Type} (g : A -> B -> result C) (h : D -> A)
    (c : B) (l : list D) :
  zip_result g (map h l) (map (fun _ => c) l) = map_result (fun d => g (h d) c) l.
Proof.
  induction l as [|d l IH]; cbn; [reflexivity|]. rewrite IH. reflexivity.
Qed.

Lemma tmap_tmap (n : nat) (g h : R -> R) (t : tensor R n) :
  tmap n g (tmap n h t) = tmap n (fun r => g (h r)) t.
Proof.
  induction n as [|n IH]; cbn; [reflexivity|].
  rewrite map_map. apply map_ext. intros a. apply IH.
Qed.

(** An operand of shape (1, ..., 1) is broadcast to every element. *)
Lemma broadcast_unit (n : nat) (f : R -> R -> R) (a : tensor R n) (r : R) :
  broadcast n f a (unit_tensor n r) = Ok (tmap n (fun v => f v r) a).
Proof.
  induction n as [|n IH]; cbn [broadcast unit_tensor tmap]; [reflexivity|].
  match goal with
  | |- context [if ?c then _ else _] => destruct c eqn:E
  end.
  - destruct a as [|a1 [|a2 a]]; try discriminate E.
    cbn. rewrite IH. reflexivity.
  - apply map_result_Ok. intros a1 _. apply IH.
Qed.

(** Buffers of zeros divided by per-frame counts of zero: 0/0 everywhere. *)
Lemma tdiv_zeros_by_zero_counts (x : tensor R 4) :
  tdiv (zeros_like x) (map (fun _ => [[[r_of_Z 0]]]) x)
  = Ok (tmap 4 (fun _ => r_div (r_of_Z 0) (r_of_Z 0)) x).
Proof.
  unfold tdiv, zeros_like. cbn [broadcast tmap].
  assert (Hzip : zip_result (broadcast 3 r_div)
                   (map (tmap 3 (fun _ => r_of_Z 0)) x)
                   (map (fun _ => [[[r_of_Z 0]]]) x)
                 = Ok (map (tmap 3 (fun _ => r_div (r_of_Z 0) (r_of_Z 0))) x)).
  { rewrite zip_result_const. apply map_result_Ok. intros row _.
    change [[[r_of_Z 0]]] with (unit_tensor 3 (r_of_Z 0)).
    rewrite broadcast_unit, tmap_tmap. reflexivity. }
  destruct x as [|x1 [|x2 x]]; exact Hzip.
Qed.
End broadcast_facts.

Section no_window_facts.
Context {R : Type} `{Comfy R}.
Context {MotionModule MotionState : Type}.
Context (motion_set_sub_idxs : MotionModule -> option (list Z) -> M MotionState unit).
Context (get_context_scheduler : option string -> result ContextScheduler).

(** X8.  With a scheduler at hand and a video length other than zero, the
    sliding path returns only when the scheduler yields no window at all,
    and then returns two buffers of the shape of [x] holding 0/0 (the
    zero buffers divided by the zero usage counts) with nothing changed;
    with at least one window it raises. *)
Theorem sliding_calc_cond_uncond_batch_returns_only_without_windows (depth : nat)
    (x : tensor R 4) (mf : ModelFn) (cond uncond : option (list CondEntry))
    (x_in : tensor R 4) (timestep : tensor R 1) (max_total_area : Z)
    (mo : ModelOptions) (e : @Env MotionModule MotionState)
    (scheduler : ContextScheduler) (windows : list (list Z)) :
  let adgs := env_ADGS e in
  let undefined := tmap 4 (fun _ => r_div (r_of_Z 0) (r_of_Z 0)) x in
  get_context_scheduler (GlobalState.context_schedule adgs) = Ok scheduler ->
  scheduler (GlobalState.current_step adgs) (GlobalState.total_steps adgs)
            (GlobalState.video_length adgs) (GlobalState.context_frames adgs)
            (GlobalState.context_stride adgs) (GlobalState.context_overlap adgs)
            (GlobalState.closed_loop adgs) = Ok windows ->
  GlobalState.video_length adgs <> 0 ->
  (windows = [] ->
   sliding_calc_cond_uncond_batch motion_set_sub_idxs get_context_scheduler depth x
     mf cond uncond x_in timestep max_total_area mo e
   = (Ok (undefined, undefined), e))
  /\ (windows <> [] ->
      exists err e',
        sliding_calc_cond_uncond_batch motion_set_sub_idxs get_context_scheduler
          depth x mf cond uncond x_in timestep max_total_area mo e
        = (Err err, e')).
Proof.
  intros adgs undefined Hs Hw Hlen.
  split.
  - intros ->. unfold sliding_calc_cond_uncond_batch.
    unfold bind at 1. unfold get at 1. fold adgs.
    unfold bind at 1. unfold lift_result at 1. rewrite Hs.
    unfold bind at 1.
    destruct (Z.eqb_spec (GlobalState.video_length adgs) 0) as [E|_]; [contradiction|].
    unfold ret at 1.
    unfold bind at 1. unfold lift_result at 1. rewrite Hw.
    cbn [windows_loop]. unfold bind at 1. unfold ret at 1.
    cbn [cond_final uncond_final out_count_final].
    unfold bind at 1. unfold lift_result at 1.
    rewrite tdiv_zeros_by_zero_counts.
    unfold bind at 1. unfold lift_result at 1. reflexivity.
  - intros Hne. destruct windows as [|w ws]; [contradiction|].
    unfold sliding_calc_cond_uncond_batch.
    unfold bind at 1. unfold get at 1. fold adgs.
    unfold bind at 1. unfold lift_result at 1. rewrite Hs.
    unfold bind at 1.
    destruct (Z.eqb_spec (GlobalState.video_length adgs) 0) as [E|_]; [contradiction|].
    unfold ret at 1.
    unfold bind at 1. unfold lift_result at 1. rewrite Hw.
    unfold bind at 1. cbn [windows_loop]. unfold bind at 1.
    match goal with
    | |- context [window_pass _ ?a ?b ?c ?d ?e0 ?f ?g ?h ?i ?j ?k ?l] =>
        destruct (window_pass_raises motion_set_sub_idxs a b c d e0 f g h i j k l)
          as (err & e' & ->)
    end.
    eauto.
Qed.
End no_window_facts.

Lemma sliding_calc_cond_uncond_batch_returns_only_without_windows_witness :
  sliding_calc_cond_uncond_batch Demo.motion_set_sub_idxs
    (fun _ => Ok no_window) 100 Demo.x Demo.model_function
    (Some [Demo.request]) None Demo.x Demo.timestep 1000 Demo.model_options
    (Demo.env (Some 1))
  = (Ok (tmap 4 (fun _ => r_div (r_of_Z 0) (r_of_Z 0)) Demo.x,
         tmap 4 (fun _ => r_div (r_of_Z 0) (r_of_Z 0)) Demo.x),
     Demo.env (Some 1)).
Proof.
  apply (sliding_calc_cond_uncond_batch_returns_only_without_windows
           Demo.motion_set_sub_idxs (fun _ => Ok no_window) 100 Demo.x
           Demo.model_function (Some [Demo.request]) None Demo.x Demo.timestep
           1000 Demo.model_options (Demo.env (Some 1)) no_window []).
  - reflexivity.
  - reflexivity.
  - cbn. discriminate.
  - reflexivity.
Defined.

(** ** Requests: get_area_and_mult *)

Lemma py_slice_full {A : Type} (l : list A) :
  py_slice 0 (Z.of_nat (length l) + 0) l = l.
Proof.
  unfold py_slice, slice_len, slice_lo, slice_bound.
  rewrite Z.add_0_r.
  destruct (Z.ltb_spec (Z.of_nat (length l)) 0) as [?|_]; [lia|].
  cbn [Z.ltb Z.compare].
  rewrite Z.min_id. rewrite (Z.min_l 0) by lia. cbn [Z.to_nat drop].
  rewrite Z.sub_0_r, Nat2Z.id. apply firstn_all.
Qed.

Section request_facts.
Context {R : Type} `{Comfy R}.

Lemma crop_full (x : tensor R 4) :
  uniform x ->
  let '(_, _, x_h, x_w) := shape4 x in
  crop (x_h, x_w, 0, 0) x = x.
Proof.
  unfold uniform, shape4, crop.
  set (d2 := match match x with c :: _ => c | [] => [] end with
             | h :: _ => h | [] => [] end).
  set (d3 := match d2 with w :: _ => w | [] => [] end).
  intros Hu.
  rewrite <- (map_id x) at 2. apply map_ext_Forall.
  eapply Forall_impl; [exact Hu|]. cbn beta. intros frame Hframe.
  rewrite <- (map_id frame) at 2. apply map_ext_Forall.
  eapply Forall_impl; [exact Hframe|]. cbn beta. intros hw [Hh Hrows].
  rewrite <- Hh, py_slice_full.
  rewrite <- (map_id hw) at 2. apply map_ext_Forall.
  eapply Forall_impl; [exact Hrows|]. cbn beta. intros row Hw.
  rewrite <- Hw. apply py_slice_full.
Qed.

(** X9.  An entry without the key "model_conds" never becomes a request:
    the call returns [None] (the entry is gated out by its timestep range)
    or raises. *)
Theorem get_area_and_mult_needs_model_conds (obj_id : nat) (conds : CondEntry)
    (x_in : tensor R 4) (timestep_in : tensor R 1) :
  dict_get conds "model_conds" = None ->
  returns_request (get_area_and_mult obj_id conds x_in timestep_in) = false.
Proof.
  intros Hmc. unfold get_area_and_mult, dict_item. rewrite Hmc.
  destruct (shape4 x_in) as [[[x_b x_c] x_h] x_w].
  repeat match goal with
         | |- returns_request (rbind ?m _) = false =>
             destruct m; cbn [rbind]; [|reflexivity]
         | |- returns_request (if ?b then _ else _) = false =>
             destruct b; [reflexivity|]
         | |- returns_request (let '(_, _) := ?p in _) = false =>
             destruct p
         | |- returns_request (match ?p with _ => _ end) = false =>
             destruct p
         end; reflexivity.
Qed.

End request_facts.

Lemma get_area_and_mult_needs_model_conds_witness :
  returns_request (get_area_and_mult 0 [("strength"%string, VFloat (inject_Z 1))]
                                     Demo.x Demo.timestep) = false.
Proof.
  apply (get_area_and_mult_needs_model_conds (R := Q)). reflexivity.
Defined.

Section request_default.
Context {R : Type} `{Comfy R}.

(** X10.  A request made from an entry without "area", "strength" and
    "mask" covers the whole input: its [input_x] is [x_in] itself, its
    area is (height, width, 0, 0), and its weights are the product 1 * 1
    of the unit mask and the unit strength everywhere, with no feathering
    of the edges. *)
Theorem get_area_and_mult_whole_input (obj_id : nat) (conds : CondEntry)
    (x_in : tensor R 4) (timestep_in : tensor R 1) (p : Prepared) :
  uniform x_in ->
  dict_get conds "area" = None ->
  dict_get conds "strength" = None ->
  dict_get conds "mask" = None ->
  get_area_and_mult obj_id conds x_in timestep_in = Ok (Some p) ->
  p_input_x p = x_in
  /\ p_area p = (snd (fst (shape4 x_in)), snd (shape4 x_in), 0, 0)
  /\ p_mult p = tmap 4 (fun _ => r_mul (r_of_Z 1) (r_of_Z 1)) x_in.
Proof.
  intros Hu Harea Hstrength Hmask E.
  pose proof (crop_full x_in Hu) as Hcrop.
  unfold get_area_and_mult, dict_has in E.
  rewrite Harea, Hstrength, Hmask in E.
  destruct (shape4 x_in) as [[[x_b x_c] x_h] x_w] eqn:Es.
  cbn [fst snd].
  destruct (match dict_get conds "timestep_start" with Some _ => _ | None => _ end)
    as [[|]|err]; cbn [rbind] in E; try discriminate E.
  destruct (match dict_get conds "timestep_end" with Some _ => _ | None => _ end)
    as [[|]|err]; cbn [rbind] in E; try discriminate E.
  rewrite Hcrop, Es in E.
  change (0 =? 0) with true in E. cbn [negb] in E.
  rewrite !Z.add_0_r, !Z.ltb_irrefl in E.
  repeat match type of E with
         | rbind ?m _ = _ => destruct m; cbn [rbind] in E; try discriminate E
         end.
  injection E as <-. cbn [p_input_x p_area p_mult].
  split; [reflexivity|]. split; [reflexivity|].
  exact (tmap_tmap 4 (fun r => r_mul r (r_of_Z 1)) (fun _ => r_of_Z 1) x_in).
Qed.
End request_default.

Lemma get_area_and_mult_whole_input_witness :
  p_input_x (Demo.prepared 0) = Demo.x
  /\ p_area (Demo.prepared 0)
     = (snd (fst (shape4 Demo.x)), snd (shape4 Demo.x), 0, 0)
  /\ p_mult (Demo.prepared 0)
     = tmap 4 (fun _ => r_mul (r_of_Z 1) (r_of_Z 1)) Demo.x.
Proof.
  apply (get_area_and_mult_whole_input 0 Demo.request Demo.x Demo.timestep).
  - repeat constructor.
  - reflexivity.
  - reflexivity.
  - reflexivity.
  - reflexivity.
Defined.

(** ** The sampling wrapper once the motion module is loaded *)

Section teardown_facts.
Context {Model MotionModule Arg Out BetaCache HostState : Type}.
Context (C : @Collaborators Model MotionModule Arg Out BetaCache HostState).

Lemma keeps_locals_bind {A B : Type}
    (m : M (@Frame Model MotionModule BetaCache HostState) A)
    (k : A -> M (@Frame Model MotionModule BetaCache HostState) B) :
  keeps_locals m -> (forall a, keeps_locals (k a)) -> keeps_locals (bind m k).
Proof.
  intros Hm Hk f. unfold bind. specialize (Hm f).
  destruct (m f) as [[a|err] f1]; cbn in Hm |- *; [|exact Hm].
  rewrite <- Hm. apply Hk.
Qed.

Lemma keeps_locals_ret {A : Type} (a : A) :
  keeps_locals (ret a : M (@Frame Model MotionModule BetaCache HostState) A).
Proof. intros f. reflexivity. Qed.

Lemma keeps_locals_lift_result {A : Type} (r : result A) :
  keeps_locals (lift_result r : M (@Frame Model MotionModule BetaCache HostState) A).
Proof. intros f. reflexivity. Qed.

Lemma keeps_locals_on_host {A : Type} (m : M HostState A) :
  keeps_locals (on_host m : M (@Frame Model MotionModule BetaCache HostState) A).
Proof. intros f. unfold on_host. destruct (m _) as [r h]. reflexivity. Qed.

Lemma keeps_locals_on_world {A : Type} (m : M World A) :
  keeps_locals (on_world m : M (@Frame Model MotionModule BetaCache HostState) A).
Proof. intros f. unfold on_world. destruct (m _) as [r w]. reflexivity. Qed.

Lemma keeps_locals_modify_world (g : World -> World) :
  keeps_locals (modify_world g : M (@Frame Model MotionModule BetaCache HostState) unit).
Proof. intros f. reflexivity. Qed.

Lemma keeps_locals_modify_ADGS
    (g : GlobalState.t MotionModule -> GlobalState.t MotionModule) :
  keeps_locals (modify_ADGS g : M (@Frame Model MotionModule BetaCache HostState) unit).
Proof. intros f. reflexivity. Qed.

(** From the binding of the loaded motion module to the end of the [try]
    body, nothing rebinds the locals the [finally] block reads. *)
Lemma sample_try_tail_keeps_locals (orig_comfy_sample : SampleFn)
    (args : list Arg) (kwargs : Kwargs) (params : InjectionParams.t)
    (model' : Model) (mm : MotionModule) :
  @keeps_locals Model MotionModule BetaCache HostState Out
    (do _ <- on_host (inject_motion_module C model' mm params);
     do beta_schedule <- lift_result
                           (BetaSchedules_to_name C (InjectionParams.beta_schedule params));
     do _ <- on_host (register_schedule C model' beta_schedule);
     do _ <- on_host (set_scale_multiplier C mm (InjectionParams.attn_scale params));
     do _ <- modify_ADGS (fun g => GlobalState.set_motion_module g (Some mm));
     do _ <- modify_ADGS (fun g => GlobalState.update_with_inject_params g params);
     do _ <- modify_ADGS (fun g => GlobalState.set_start_step g (get_or_0 (kw_start_step kwargs)));
     do _ <- modify_ADGS (fun g => GlobalState.set_current_step g (GlobalState.start_step g));
     do _ <- modify_ADGS (fun g => GlobalState.set_last_step g (get_or_0 (kw_last_step kwargs)));
     on_world (wrap_function_to_inject_xformers_bug_info C orig_comfy_sample
                 model' args
                 (mkKwargs (kw_start_step kwargs) (kw_last_step kwargs)
                           (Some (ad_callback (kw_callback kwargs)))))).
Proof.
  repeat first
    [ apply keeps_locals_bind; [|intros ?]
    | apply keeps_locals_on_host
    | apply keeps_locals_on_world
    | apply keeps_locals_lift_result
    | apply keeps_locals_modify_ADGS ].
Qed.

(** With the motion module, the saved functions and the beta cache bound,
    the [finally] block runs to its end. *)
Lemma sample_finally_completes (f : @Frame Model MotionModule BetaCache HostState)
    (mm : MotionModule)
    (saved : SavedFns) (cache : BetaCache) :
  teardown_never_raises C ->
  frame_locals f = (Some (Some mm), Some saved, Some cache) ->
  exists f',
    sample_finally C f = (Ok tt, f')
    /\ patched_attrs (world f') = saved
    /\ ADGS (world f') = GlobalState.init.
Proof.
  intros (Hej & Hreset & Hsub & Hloras & Hunload & Hcache) [= Emm Esaved Ecache].
  unfold sample_finally.
  unfold bind at 1. unfold get at 1.
  unfold motion_module_method. rewrite Emm, Esaved, Ecache.
  unfold bind at 1. unfold on_host at 1.
  destruct (Hej (model f) (host (world f))) as ([] & h1 & ->).
  unfold bind at 1. unfold on_host at 1. cbn [world host set_world set_host].
  destruct (Hreset mm h1) as ([] & h2 & ->).
  unfold bind at 1. unfold on_host at 1. cbn [world host set_world set_host].
  destruct (Hsub mm None h2) as ([] & h3 & ->).
  unfold bind at 1. unfold on_host at 1. cbn [world host set_world set_host].
  destruct (Hloras mm h3) as (loras & h4 & ->).
  assert (Hrest : forall h5 (f5 : @Frame Model MotionModule BetaCache HostState),
            world f5 = set_host h5 (world f) ->
            model f5 = model f ->
            exists f',
              (do saved0 <- lift_result (read_local (Some saved));
               do _ <- modify_world (set_maximum_batch_area_attr (orig_maximum_batch_area saved0));
               do _ <- modify_world (set_forward_timestep_embed_attr (orig_forward_timestep_embed saved0));
               do _ <- modify_world (set_GroupNorm_forward_attr (orig_groupnorm_forward saved0));
               do _ <- modify_world (set_GroupNormAD_forward_attr (orig_groupnormad_forward saved0));
               do _ <- modify_world (set_sampling_function_attr (orig_sampling_function saved0));
               do cache0 <- lift_result (read_local (Some cache));
               do _ <- on_host (use_cached_beta_schedule_and_clean C cache0 (model f));
               modify_ADGS GlobalState.reset) f5 = (Ok tt, f')
              /\ patched_attrs (world f') = saved
              /\ ADGS (world f') = GlobalState.init).
  { intros h5 f5 Hw Hm.
    unfold bind at 1. unfold lift_result at 1. cbn [read_local].
    unfold bind at 1. unfold modify_world at 1, modify at 1.
    unfold bind at 1. unfold modify_world at 1, modify at 1.
    unfold bind at 1. unfold modify_world at 1, modify at 1.
    unfold bind at 1. unfold modify_world at 1, modify at 1.
    unfold bind at 1. unfold modify_world at 1, modify at 1.
    unfold bind at 1. unfold lift_result at 1. cbn [read_local].
    unfold bind at 1. unfold on_host at 1. cbn [world host set_world set_host
      set_maximum_batch_area_attr set_forward_timestep_embed_attr
      set_GroupNorm_forward_attr set_GroupNormAD_forward_attr
      set_sampling_function_attr].
    rewrite Hw. cbn [host set_host].
    destruct (Hcache cache (model f) h5) as ([] & h6 & ->).
    unfold modify_ADGS, modify_world, modify.
    eexists. split; [reflexivity|]. cbn. split; [|reflexivity].
    destruct saved; reflexivity. }
  unfold bind at 1. cbn [world host set_world set_host].
  destruct loras.
  - unfold bind at 1. unfold on_host at 1. cbn [world host set_world set_host].
    destruct (Hunload mm h4) as ([] & h5 & ->).
    unfold modify at 1.
    apply (Hrest h5); reflexivity.
  - unfold ret at 1. apply (Hrest h4); reflexivity.
Qed.

(** X11.  A run on a model with injected parameters whose collaborators do
    their part (parameters read, a positional argument for the latents,
    the model patched, the schedule cached and the motion module loaded,
    and a teardown that does not raise): whatever happens next, in the
    remaining setup or in the host sampler, the caller gets the outcome of
    the [try] body unchanged, result or exception, and the world has its
    five patched attributes back as they were before the call and a reset
    global state. *)
Theorem animatediff_sample_teardown_after_load (orig_comfy_sample : SampleFn)
    (m : Model) (args : list Arg) (kwargs : Kwargs) (w : World)
    (params : InjectionParams.t) (latents : Arg) :
  is_injected_mm_params C m = true ->
  get_injected_mm_params C m = Ok params ->
  last_arg args = Ok latents ->
  setup_never_raises C ->
  teardown_never_raises C ->
  let out := animatediff_sample C orig_comfy_sample m args kwargs w in
  fst out = fst (sample_try_body C orig_comfy_sample args kwargs
                   (mkFrame m (Some None) None None w))
  /\ patched_attrs (snd out) = patched_attrs w
  /\ ADGS (snd out) = GlobalState.init.
Proof.
  intros Hinj Hp Hl (Hinject & Hbeta & Hload) Hteardown.
  assert (Hbody : exists r f' mm cache,
            sample_try_body C orig_comfy_sample args kwargs
              (mkFrame m (Some None) None None w) = (r, f')
            /\ frame_locals f' = (Some (Some mm), Some (patched_attrs w), Some cache)).
  { unfold sample_try_body.
    unfold bind at 1. unfold get at 1. cbn [model].
    unfold bind at 1. unfold lift_result at 1. rewrite Hp.
    unfold bind at 1. unfold lift_result at 1. rewrite Hl.
    set (params' := InjectionParams.set_video_length params (latents_size C latents)).
    unfold bind at 1. unfold on_host at 1. cbn [world host].
    destruct (Hinject m params' (host w)) as (m' & h1 & ->).
    unfold bind at 1. unfold modify at 1.
    unfold bind at 1. unfold modify_ADGS at 1, modify_world at 1, modify at 1.
    unfold bind at 1. unfold get at 1.
    unfold bind at 1. unfold modify at 1.
    unfold bind at 1. unfold on_host at 1.
    cbn [world host set_world set_host set_model set_saved_fns set_ADGS
         forward_timestep_embed_attr maximum_batch_area_attr GroupNorm_forward_attr
         GroupNormAD_forward_attr sampling_function_attr
         model motion_module saved_fns orig_beta_cache].
    destruct (Hbeta m' h1) as (cache & h2 & ->).
    unfold bind at 1. unfold modify at 1.
    unfold bind at 1. unfold modify_world at 1, modify at 1.
    unfold bind at 1.
    match goal with
    | |- context [(if ?b then modify_world ?g else ret tt) ?f0] =>
        assert (Ea : exists w1, (if b then modify_world g else ret tt) f0
                                = (Ok tt, set_world w1 f0)
                                /\ host w1 = h2)
    end.
    { destruct (InjectionParams.unlimited_area_hack params');
        eexists; split; reflexivity. }
    destruct Ea as (w1 & -> & Hh1).
    unfold bind at 1. unfold modify_world at 1, modify at 1.
    unfold bind at 1.
    match goal with
    | |- context [(if ?b then modify_world ?g else ret tt) ?f0] =>
        assert (Eb : exists w2, (if b then modify_world g else ret tt) f0
                                = (Ok tt, set_world w2 f0)
                                /\ host w2 = h2)
    end.
    { destruct (InjectionParams.apply_mm_groupnorm_hack params');
        eexists; (split; [reflexivity|]); cbn; exact Hh1. }
    destruct Eb as (w2 & -> & Hh2).
    unfold bind at 1. unfold modify_world at 1, modify at 1.
    unfold bind at 1. unfold on_host at 1.
    cbn [world host set_world set_host set_sampling_function_attr].
    rewrite Hh2.
    destruct (Hload (InjectionParams.model_name params')
                    (InjectionParams.loras params') m' h2) as (mm & h3 & ->).
    unfold bind at 1. unfold modify at 1.
    match goal with
    | |- context [bind ?tail_m ?tail_k ?f0] =>
        pose proof (sample_try_tail_keeps_locals orig_comfy_sample args kwargs
                      params' m' mm f0) as Hkeep;
        destruct (bind tail_m tail_k f0) as [r f'] eqn:Etail
    end.
    exists r, f', mm, cache. split; [reflexivity|].
    cbn [snd] in Hkeep. rewrite Hkeep. reflexivity. }
  destruct Hbody as (r & f' & mm & cache & Ebody & Hlocals).
  destruct (sample_finally_completes f' mm (patched_attrs w) cache Hteardown Hlocals)
    as (f'' & Efin & Hattrs & Hadgs).
  cbv zeta. unfold animatediff_sample. rewrite Hinj. cbn [negb].
  unfold try_finally. rewrite Ebody, Efin. cbn [fst snd].
  split; [reflexivity|]. split; [exact Hattrs | exact Hadgs].
Qed.
End teardown_facts.

Lemma DemoHost_never_raises :
  setup_never_raises (DemoHost.collaborators true)
  /\ teardown_never_raises (DemoHost.collaborators true).
Proof.
  split.
  - repeat split; intros; intros s; eexists _, _; reflexivity.
  - repeat split; intros; intros s; eexists _, _; reflexivity.
Defined.

Lemma animatediff_sample_teardown_after_load_witness :
  let out := animatediff_sample (DemoHost.collaborators true) DemoHost.failing_sample
               1%nat [16%nat] DemoHost.kwargs DemoHost.world in
  fst out = fst (sample_try_body (DemoHost.collaborators true) DemoHost.failing_sample
                   [16%nat] DemoHost.kwargs
                   (mkFrame 1%nat (Some None) None None DemoHost.world))
  /\ patched_attrs (snd out) = patched_attrs DemoHost.world
  /\ ADGS (snd out) = GlobalState.init.
Proof.
  apply (animatediff_sample_teardown_after_load (DemoHost.collaborators true)
           DemoHost.failing_sample 1%nat [16%nat] DemoHost.kwargs DemoHost.world
           DemoHost.params 16%nat).
  - reflexivity.
  - reflexivity.
  - reflexivity.
  - exact (proj1 DemoHost_never_raises).
  - exact (proj2 DemoHost_never_raises).
Defined.

Section run_facts.
Context {Model MotionModule Arg Out BetaCache HostState : Type}.
Context (C : @Collaborators Model MotionModule Arg Out BetaCache HostState).

(** X12.  Called without a positional argument on a model with injected
    parameters, the wrapper raises [AttributeError], not the [IndexError]
    of [args[-1]]: the [finally] block ejects the motion module and then
    stops at [motion_module.reset_scale_multiplier()] on [None].  Nothing
    had been patched, and the global state is as it was. *)
Theorem animatediff_sample_without_latents (orig_comfy_sample : SampleFn)
    (m : Model) (kwargs : Kwargs) (w : World) (params : InjectionParams.t) :
  is_injected_mm_params C m = true ->
  get_injected_mm_params C m = Ok params ->
  never_raises (eject_motion_module C m) ->
  exists w',
    animatediff_sample C orig_comfy_sample m [] kwargs w = (Err AttributeError, w')
    /\ patched_attrs w' = patched_attrs w
    /\ ADGS w' = ADGS w
    /\ host w' = snd (eject_motion_module C m (host w)).
Proof.
  intros Hinj Hp Hej.
  unfold animatediff_sample. rewrite Hinj. cbn [negb].
  unfold try_finally, sample_try_body.
  unfold bind at 1. unfold get at 1. cbn [model].
  unfold bind at 1. unfold lift_result at 1. rewrite Hp.
  unfold bind at 1. unfold lift_result at 1. cbn [last_arg last].
  unfold sample_finally.
  unfold bind at 1. unfold get at 1.
  unfold bind at 1. unfold on_host at 1. cbn [world host model].
  destruct (Hej (host w)) as ([] & h1 & E). rewrite E.
  unfold bind at 1. cbn [motion_module_method motion_module].
  unfold raise at 1.
  eexists. split; [reflexivity|]. cbn. repeat split.
Qed.

(** X13.  When every collaborator of the setup does its part, the host
    sampler is called on the model that [inject_params_into_model]
    returned, with the caller's positional arguments and with the step
    callback wrapped, in the frame and world spelled out here: the motion
    module is the one [load_motion_module] returned, the saved functions
    and the beta cache are bound, [forward_timestep_embed],
    [GroupNorm.forward] and [sampling_function] are the replacements of
    this module, [maximum_batch_area] and [GroupNormAD.forward] are
    replaced exactly when the parameters ask for it, the global state
    holds the loaded motion module, the context settings of the parameters
    with the number of latents as video length, and start, current and
    last step from the keyword arguments ([None] counting as 0), and the
    host is as the last collaborator left it.  The [finally] block then
    runs on what the sampler leaves. *)
Theorem animatediff_sample_runs_sampler_patched (orig_comfy_sample : SampleFn)
    (m : Model) (args : list Arg) (kwargs : Kwargs) (w : World)
    (params : InjectionParams.t) (latents : Arg)
    (m' : Model) (cache : BetaCache) (mm : MotionModule) (beta_schedule : string)
    (h1 h2 h3 h4 h5 h6 : HostState) :
  is_injected_mm_params C m = true ->
  get_injected_mm_params C m = Ok params ->
  last_arg args = Ok latents ->
  let params' := InjectionParams.set_video_length params (latents_size C latents) in
  inject_params_into_model C m params' (host w) = (Ok m', h1) ->
  BetaScheduleCache C m' h1 = (Ok cache, h2) ->
  load_motion_module C (InjectionParams.model_name params')
                     (InjectionParams.loras params') m' h2 = (Ok mm, h3) ->
  inject_motion_module C m' mm params' h3 = (Ok tt, h4) ->
  BetaSchedules_to_name C (InjectionParams.beta_schedule params') = Ok beta_schedule ->
  register_schedule C m' beta_schedule h4 = (Ok tt, h5) ->
  set_scale_multiplier C mm (InjectionParams.attn_scale params') h5 = (Ok tt, h6) ->
  let f_in :=
    mkFrame m' (Some (Some mm)) (Some (patched_attrs w)) (Some cache)
      (mkWorld Fn_forward_timestep_embed
               (if InjectionParams.unlimited_area_hack params
                then Fn_unlimited_batch_area else maximum_batch_area_attr w)
               (groupnorm_mm_factory params')
               (if InjectionParams.apply_mm_groupnorm_hack params
                then groupnorm_mm_factory params' else GroupNormAD_forward_attr w)
               Fn_sliding_sampling_function
               (run_state mm params' kwargs)
               h6) in
  let call :=
    on_world (wrap_function_to_inject_xformers_bug_info C orig_comfy_sample m' args
                (mkKwargs (kw_start_step kwargs) (kw_last_step kwargs)
                          (Some (ad_callback (kw_callback kwargs))))) in
  sample_try_body C orig_comfy_sample args kwargs (mkFrame m (Some None) None None w)
  = call f_in
  /\ animatediff_sample C orig_comfy_sample m args kwargs w
     = (let (r, f) := try_finally call (sample_finally C) f_in in (r, world f)).
Proof.
  intros Hinj Hp Hl params' Hi Hb Hload Himm Hname Hreg Hscale f_in call.
  assert (Ebody : sample_try_body C orig_comfy_sample args kwargs
                    (mkFrame m (Some None) None None w) = call f_in).
  { subst f_in call. unfold sample_try_body.
    unfold bind at 1. unfold get at 1. cbn [model].
    unfold bind at 1. unfold lift_result at 1. rewrite Hp.
    unfold bind at 1. unfold lift_result at 1. rewrite Hl.
    fold params'.
    unfold bind at 1. unfold on_host at 1. cbn [world host]. rewrite Hi.
    unfold bind at 1. unfold modify at 1.
    unfold bind at 1. unfold modify_ADGS at 1, modify_world at 1, modify at 1.
    unfold bind at 1. unfold get at 1.
    unfold bind at 1. unfold modify at 1.
    unfold bind at 1. unfold on_host at 1.
    cbn [world host set_world set_host set_model set_saved_fns set_ADGS
         forward_timestep_embed_attr maximum_batch_area_attr GroupNorm_forward_attr
         GroupNormAD_forward_attr sampling_function_attr
         model motion_module saved_fns orig_beta_cache].
    rewrite Hb.
    unfold bind at 1. unfold modify at 1.
    unfold bind at 1. unfold modify_world at 1, modify at 1.
    cbn in Hload, Himm, Hname, Hscale.
    assert (Ehack1 : InjectionParams.unlimited_area_hack params'
                     = InjectionParams.unlimited_area_hack params) by reflexivity.
    assert (Ehack2 : InjectionParams.apply_mm_groupnorm_hack params'
                     = InjectionParams.apply_mm_groupnorm_hack params) by reflexivity.
    rewrite Ehack1, Ehack2.
    destruct (InjectionParams.unlimited_area_hack params);
      destruct (InjectionParams.apply_mm_groupnorm_hack params);
      unfold bind, on_host, lift_result, modify_ADGS, modify_world, modify, ret; cbn;
      rewrite Hload; cbn; rewrite Himm; cbn; rewrite Hname; cbn;
      rewrite Hreg; cbn; rewrite Hscale; cbn; reflexivity. }
  split; [exact Ebody|].
  unfold animatediff_sample. rewrite Hinj. cbn [negb].
  unfold try_finally. rewrite Ebody. reflexivity.
Qed.
End run_facts.

Lemma animatediff_sample_without_latents_witness :
  exists w',
    animatediff_sample (DemoHost.collaborators true) DemoHost.working_sample
      1%nat [] DemoHost.kwargs DemoHost.world = (Err AttributeError, w')
    /\ patched_attrs w' = patched_attrs DemoHost.world
    /\ ADGS w' = ADGS DemoHost.world
    /\ host w' = snd (eject_motion_module (DemoHost.collaborators true) 1%nat
                        (host DemoHost.world)).
Proof.
  apply (animatediff_sample_without_latents (DemoHost.collaborators true)
           DemoHost.working_sample 1%nat DemoHost.kwargs DemoHost.world
           DemoHost.params).
  - reflexivity.
  - reflexivity.
  - intros s. eexists _, _. reflexivity.
Defined.

Lemma animatediff_sample_runs_sampler_patched_witness :
  let params' := InjectionParams.set_video_length DemoHost.params 16 in
  let f_in :=
    mkFrame 1%nat (Some (Some 7%nat)) (Some (patched_attrs DemoHost.world)) (Some 0%nat)
      (mkWorld Fn_forward_timestep_embed Fn_unlimited_batch_area
               (groupnorm_mm_factory params') (groupnorm_mm_factory params')
               Fn_sliding_sampling_function
               (run_state 7%nat params' DemoHost.kwargs)
               ["inject_params_into_model"; "load_motion_module";
                "inject_motion_module"; "register_schedule";
                "set_scale_multiplier"]%string) in
  let call :=
    on_world (DemoHost.working_sample 1%nat [16%nat]
                (mkKwargs None None (Some (ad_callback None)))) in
  sample_try_body (DemoHost.collaborators true) DemoHost.working_sample
    [16%nat] DemoHost.kwargs (mkFrame 1%nat (Some None) None None DemoHost.world)
  = call f_in
  /\ animatediff_sample (DemoHost.collaborators true) DemoHost.working_sample
       1%nat [16%nat] DemoHost.kwargs DemoHost.world
     = (let (r, f) := try_finally call (sample_finally (DemoHost.collaborators true))
                                  f_in in (r, world f)).
Proof.
  apply (animatediff_sample_runs_sampler_patched (DemoHost.collaborators true)
           DemoHost.working_sample 1%nat [16%nat] DemoHost.kwargs DemoHost.world
           DemoHost.params 16%nat 1%nat 0%nat 7%nat "sqrt_linear"
           ["inject_params_into_model"%string]
           ["inject_params_into_model"%string]
           ["inject_params_into_model"; "load_motion_module"]%string
           ["inject_params_into_model"; "load_motion_module";
            "inject_motion_module"]%string
           ["inject_params_into_model"; "load_motion_module";
            "inject_motion_module"; "register_schedule"]%string
           ["inject_params_into_model"; "load_motion_module";
            "inject_motion_module"; "register_schedule";
            "set_scale_multiplier"]%string);
    reflexivity.
Defined.

(** ** The layer sequence: forward_timestep_embed *)

Section layer_facts.
Context {X Emb Ctx Shape Other : Type}.

Lemma layer_step_current_index (layer : @Layer X Emb Ctx Shape Other)
    (ts : list Layer) (x : X) (emb : Emb) (context : option Ctx)
    (output_shape : option Shape) (o : LayerOptions) :
  keeps_current_index layer ->
  (exists err o',
     forward_timestep_embed (layer :: ts) x emb context output_shape o = (Err err, o')
     /\ (layer_returns layer -> err = KeyError /\ current_index o = None
                                /\ is_SpatialTransformer layer = true))
  \/ (exists x' o',
        forward_timestep_embed (layer :: ts) x emb context output_shape o
        = forward_timestep_embed ts x' emb context output_shape o'
        /\ match current_index o with
           | Some i =>
               current_index o'
               = Some (if is_SpatialTransformer layer then i + 1 else i)
           | None => is_SpatialTransformer layer = false /\ current_index o' = None
           end).
Proof.
  intros Hkeep.
  destruct layer as [f|f|f|f|f]; cbn [is_SpatialTransformer layer_returns];
    try (cbn [forward_timestep_embed]; unfold bind at 1; unfold lift_result at 1;
         match goal with
         | |- context [match ?r with Ok _ => _ | Err _ => _ end] =>
             destruct r as [x'|err] eqn:Er
         end;
         [ right; exists x', o; split; [reflexivity|];
           destruct (current_index o); [reflexivity | split; reflexivity]
         | left; exists err, o; split; [reflexivity|];
           intros Hret; try (specialize (Hret x emb)); try (specialize (Hret x context));
           try (specialize (Hret x output_shape)); try (specialize (Hret x));
           rewrite Er in Hret; discriminate Hret ]).
  cbn in Hkeep. specialize (Hkeep x context o).
  destruct (f x context o) as [[x'|err] o1] eqn:Ef; cbn [snd] in Hkeep.
  - destruct (current_index o) as [i|] eqn:Ei.
    + right. exists x', (mkLayerOptions (Some (i + 1)) (other_options o1)).
      split; [|reflexivity].
      cbn [forward_timestep_embed].
      unfold bind, increment_current_index, get, modify, ret.
      rewrite Ef. cbn. rewrite Hkeep. reflexivity.
    + left. exists KeyError, o1. split; [|intros _; repeat split].
      cbn [forward_timestep_embed].
      unfold bind, increment_current_index, get, raise.
      rewrite Ef. cbn. rewrite Hkeep. reflexivity.
  - left. exists err, o1. split.
    + cbn [forward_timestep_embed]. unfold bind. rewrite Ef. reflexivity.
    + intros Hret. specialize (Hret x context o). rewrite Ef in Hret.
      discriminate Hret.
Qed.

(** X14.  When the call returns and its spatial transformers leave the key
    "current_index" alone, the key has been advanced by one per
    SpatialTransformer layer of the sequence: it ends at its initial value
    plus the number of those layers. *)
Theorem forward_timestep_embed_counts_transformers
    (ts : list (@Layer X Emb Ctx Shape Other)) (x : X) (emb : Emb)
    (context : option Ctx) (output_shape : option Shape)
    (o o' : LayerOptions) (x' : X) (i : Z) :
  Forall keeps_current_index ts ->
  current_index o = Some i ->
  forward_timestep_embed ts x emb context output_shape o = (Ok x', o') ->
  current_index o'
  = Some (i + Z.of_nat (length (List.filter is_SpatialTransformer ts))).
Proof.
  intros Hkeep. revert x o i.
  induction Hkeep as [|layer ts Hlayer _ IH]; intros x o i Hi E.
  { cbn in E. injection E as _ <-. rewrite Hi. cbn. f_equal. lia. }
  destruct (layer_step_current_index layer ts x emb context output_shape o Hlayer)
    as [(err & o1 & E1 & _)|(x1 & o1 & E1 & Hidx)].
  { rewrite E1 in E. discriminate E. }
  rewrite E1 in E. rewrite Hi in Hidx.
  rewrite (IH x1 o1 _ Hidx E). cbn [List.filter].
  destruct (is_SpatialTransformer layer); cbn [length]; f_equal; lia.
Qed.

(** X15.  Without the key "current_index" (as in the default
    [transformer_options={}]) a sequence holding a SpatialTransformer
    never returns: the call raises, and what it raises is [KeyError] when
    every layer returns and the spatial transformers do not add the key. *)
Theorem forward_timestep_embed_needs_current_index
    (ts : list (@Layer X Emb Ctx Shape Other)) (x : X) (emb : Emb)
    (context : option Ctx) (output_shape : option Shape) (o : LayerOptions) :
  Forall keeps_current_index ts ->
  current_index o = None ->
  Exists (fun layer => is_SpatialTransformer layer = true) ts ->
  exists err o',
    forward_timestep_embed ts x emb context output_shape o = (Err err, o')
    /\ (Forall layer_returns ts -> err = KeyError).
Proof.
  intros Hkeep. revert x o.
  induction Hkeep as [|layer ts Hlayer _ IH]; intros x o Hi Hex.
  { inversion Hex. }
  destruct (layer_step_current_index layer ts x emb context output_shape o Hlayer)
    as [(err & o1 & E1 & Herr)|(x1 & o1 & E1 & Hidx)].
  - exists err, o1. split; [exact E1|]. intros Hret.
    inversion Hret as [|? ? Hl _]; subst. apply Herr, Hl.
  - rewrite Hi in Hidx. destruct Hidx as [Hns Hi1].
    inversion Hex as [? ? Hs|? ? Hrest]; subst; [congruence|].
    destruct (IH x1 o1 Hi1 Hrest) as (err & o2 & E2 & Herr).
    exists err, o2. split; [rewrite E1; exact E2|].
    intros Hret. inversion Hret; subst. apply Herr. assumption.
Qed.
End layer_facts.

Lemma DemoLayers_keep_current_index : Forall keeps_current_index DemoLayers.block.
Proof. repeat constructor. Defined.

Lemma forward_timestep_embed_counts_transformers_witness :
  current_index (mkLayerOptions (Some 7) tt)
  = Some (5 + Z.of_nat (length (List.filter is_SpatialTransformer DemoLayers.block))).
Proof.
  apply (forward_timestep_embed_counts_transformers DemoLayers.block 3 4 None None
           (mkLayerOptions (Some 5) tt) (mkLayerOptions (Some 7) tt) 26 5).
  - exact DemoLayers_keep_current_index.
  - reflexivity.
  - reflexivity.
Defined.

Lemma forward_timestep_embed_needs_current_index_witness :
  exists err o',
    forward_timestep_embed DemoLayers.block 3 4 None None (mkLayerOptions None tt)
    = (Err err, o')
    /\ (Forall layer_returns DemoLayers.block -> err = KeyError).
Proof.
  apply (forward_timestep_embed_needs_current_index DemoLayers.block 3 4 None None
           (mkLayerOptions None tt)).
  - exact DemoLayers_keep_current_index.
  - reflexivity.
  - apply Exists_cons_tl, Exists_cons_hd. reflexivity.
Defined.

(** ** A group that fits the budget as a whole *)

(** X16.  When the requests mergeable with the first one fit the area
    budget all together, the batch is the whole group: nothing is split
    off (the case the "unlimited area" replacement of
    [maximum_batch_area] is there to bring about). *)
Theorem select_batch_whole_group (to_batch_temp : list nat)
    (first_shape : Z * Z * Z * Z) (max_total_area : Z) :
  fits (length to_batch_temp) first_shape max_total_area ->
  select_batch to_batch_temp first_shape max_total_area = to_batch_temp.
Proof.
  intros Hfit. unfold select_batch.
  destruct (select_loop_seq to_batch_temp first_shape max_total_area
              (take 1 to_batch_temp) (length to_batch_temp) 1)
    as [(i & Hi & Hsel & _ & Hmin)|[Hnone Hsel]]; [lia| |].
  - rewrite Hsel. destruct (Nat.eq_dec i 1%nat) as [->|Hne].
    + rewrite Nat.div_1_r. apply firstn_all.
    + exfalso. apply (Hmin 1%nat); [lia|]. rewrite Nat.div_1_r. exact Hfit.
  - rewrite Hsel. destruct to_batch_temp as [|x_t rest]; [reflexivity|].
    exfalso. apply (Hnone 1%nat); [cbn; lia|]. rewrite Nat.div_1_r. exact Hfit.
Qed.

Lemma select_batch_whole_group_witness :
  select_batch [2; 1; 0]%nat (1, 4, 8, 8) 1000 = [2; 1; 0]%nat.
Proof.
  apply select_batch_whole_group. cbn. lia.
Defined.

(** ** A chain of control objects that does not end *)

Section endless_chain.
Context {MotionModule MotionState : Type}.

(** X17.  On a chain of previous-links that never ends (a cycle),
    [prepare_control_objects] exhausts the recursion limit, whatever that
    limit is: it raises [RecursionError], and no control object has been
    given a window scope, since the attributes are set on the way back
    from the recursion. *)
Theorem prepare_control_objects_endless_chain (idxs : list Z)
    (e : @Env MotionModule MotionState) (depth : nat) :
  forall c : nat,
    (forall k, nth_previous (env_controls e) c k <> None) ->
    prepare_control_objects depth c idxs e = (Err RecursionError, e).
Proof.
  induction depth as [|depth IH]; intros c Hendless; [reflexivity|].
  cbn [prepare_control_objects]. unfold bind at 1. unfold get at 1.
  pose proof (Hendless 1%nat) as H1. cbn in H1.
  destruct (previous_controlnet (env_controls e c)) as [p|] eqn:Ep;
    [|contradiction H1; reflexivity].
  unfold bind at 1. rewrite IH; [reflexivity|].
  intros k. specialize (Hendless (S k)). cbn in Hendless.
  rewrite Ep in Hendless. exact Hendless.
Qed.
End endless_chain.

Lemma prepare_control_objects_endless_chain_witness :
  prepare_control_objects 1000 0 DemoWindow.window
    (mkEnv DemoWindow.adgs looped_controls tt)
  = (Err RecursionError, mkEnv DemoWindow.adgs looped_controls tt).
Proof.
  apply (prepare_control_objects_endless_chain (MotionModule := nat)).
  intros k. induction k as [|k IHk]; cbn; [discriminate | exact IHk].
Defined.

(** ** Merging the conditionings of a batch: cond_cat *)

Section cond_cat_facts.
Context {R : Type} `{Comfy R}.

Lemma cond_cat_group (c_list : list Conditioning) :
  cond_cat c_list
  = map_result (fun '(k, conds) =>
                  match conds with
                  | o :: rest => doR t <- concat_conds o rest; Ok (k, t)
                  | [] => Err IndexError
                  end) (group_by_key [] c_list).
Proof. reflexivity. Qed.

Lemma group_items_lookup (items : dict CondObj) :
  List.NoDup (dict_keys items) ->
  forall (temp : dict (list CondObj)) (k : string),
    dict_get (fold_left (fun temp '(k, o) =>
                let cur := match dict_get temp k with Some l => l | None => [] end in
                dict_set temp k (cur ++ [o])) items temp) k
    = match dict_get items k with
      | Some o => Some (match dict_get temp k with Some l => l | None => [] end ++ [o])
      | None => dict_get temp k
      end.
Proof.
  induction items as [|[k1 o1] items IH]; intros Hnd temp k; [reflexivity|].
  cbn [dict_keys map fst] in Hnd. inversion Hnd as [|? ? Hnotin Hnd']; subst.
  cbn [fold_left]. rewrite (IH Hnd'). cbn [dict_get].
  destruct (String.eqb_spec k1 k) as [->|Hne].
  - assert (Hnone : dict_get items k = None).
    { destruct (dict_get items k) eqn:E; [|reflexivity].
      exfalso. apply Hnotin. apply dict_get_keys. eauto. }
    rewrite Hnone. apply dict_get_set_eq.
  - rewrite (dict_get_set_ne temp k1 k) by exact Hne. reflexivity.
Qed.

Lemma group_by_key_lookup (c_list : list Conditioning) :
  Forall (fun x_t => List.NoDup (dict_keys (conditioning_items x_t))) c_list ->
  forall (temp : dict (list CondObj)) (k : string),
    dict_get (group_by_key temp c_list) k
    = match values_of k c_list with
      | [] => dict_get temp k
      | vs => Some (match dict_get temp k with Some l => l | None => [] end ++ vs)
      end.
Proof.
  unfold group_by_key.
  induction 1 as [|x_t c_list Hnd _ IH]; intros temp k; [reflexivity|].
  cbn [fold_left values_of]. rewrite IH. rewrite (group_items_lookup _ Hnd).
  destruct (dict_get (conditioning_items x_t) k) as [o|]; cbn [app];
    [|reflexivity].
  destruct (values_of k c_list) as [|v vs]; [reflexivity|].
  rewrite <- app_assoc. reflexivity.
Qed.

Lemma concat_groups_lookup (temp : dict (list CondObj)) (out : dict (AnyTensor R))
    (k : string) :
  map_result (fun '(k, conds) =>
                match conds with
                | o :: rest => doR t <- concat_conds o rest; Ok (k, t)
                | [] => Err IndexError
                end) temp = Ok out ->
  match dict_get temp k with
  | Some (o :: rest) => exists t, concat_conds o rest = Ok t /\ dict_get out k = Some t
  | Some [] => False
  | None => dict_get out k = None
  end.
Proof.
  revert out. induction temp as [|[k1 conds] temp IH]; intros out E; cbn in E.
  { injection E as <-. reflexivity. }
  destruct conds as [|o rest]; [discriminate E|].
  destruct (concat_conds o rest) as [t|err] eqn:Ec; cbn in E; [|discriminate E].
  destruct (map_result _ temp) as [out'|err]; cbn in E; [|discriminate E].
  injection E as <-. specialize (IH out' eq_refl). cbn [dict_get].
  destruct (String.eqb k1 k); [eauto | exact IH].
Qed.

(** X18.  For conditionings that are dicts (one value per key), a
    successful [cond_cat] holds, under every key that occurs in the batch,
    the [concat] of the first value of that key with the list of the
    following ones, values taken in the order of the batch; a key that
    occurs nowhere is not in the result. *)
Theorem cond_cat_per_key (c_list : list Conditioning) (out : dict (AnyTensor R))
    (k : string) :
  Forall (fun x_t => List.NoDup (dict_keys (conditioning_items x_t))) c_list ->
  cond_cat c_list = Ok out ->
  match values_of k c_list with
  | o :: rest => exists t, concat_conds o rest = Ok t /\ dict_get out k = Some t
  | [] => dict_get out k = None
  end.
Proof.
  intros Hnd E. rewrite cond_cat_group in E.
  pose proof (concat_groups_lookup _ out k E) as Hk.
  rewrite (group_by_key_lookup c_list Hnd [] k) in Hk. cbn [dict_get app] in Hk.
  destruct (values_of k c_list) as [|o rest]; exact Hk.
Qed.
End cond_cat_facts.

Lemma cond_cat_per_key_witness :
  exists t,
    concat_conds (Comfy := Q_Comfy) DemoWindow.per_frame [DemoWindow.pooled] = Ok t
    /\ dict_get [("c_crossattn"%string, DemoWindow.per_frame)] "c_crossattn" = Some t.
Proof.
  apply (@cond_cat_per_key Q Q_Scalar Q_Comfy
           [@mkConditioning Q Q_Scalar Q_Comfy 0
              [("c_crossattn"%string, DemoWindow.per_frame)];
            @mkConditioning Q Q_Scalar Q_Comfy 1
              [("c_crossattn"%string, DemoWindow.pooled)]]
           [("c_crossattn"%string, DemoWindow.per_frame)] "c_crossattn").
  - repeat constructor; cbn; intros [].
  - reflexivity.
Defined.

(** ** Control objects across the entries of a conditioning list *)


Section control_frame.
Context {R : Type} `{Comfy R}.
Context {MotionModule MotionState : Type}.






End control_frame.


(** The side condition on earlier chains is needed: a stock control object
    that is the previous object of an earlier entry's control has been
    given [sub_idxs] by the time its own entry is reached, and passes. *)
Example get_resized_cond_accepts_scoped_link :
  is_ok (fst (get_resized_cond 2 DemoWindow.x [DemoShared.second_entry]
                DemoWindow.window DemoShared.env)) = false
  /\ is_ok (fst (get_resized_cond 2 DemoWindow.x
                   [DemoShared.first_entry; DemoShared.second_entry]
                   DemoWindow.window DemoShared.env)) = true.
Proof. split; reflexivity. Qed.
